(** * ShadowsocksR native client: the [auth_aes128_{md5,sha1}] protocol plugin,
    the tunnel-cipher constructor and the SOCKS5 tunnel state machine.

    A shallow embedding of the C sources.  Bytes are integers in [0, 256),
    buffers are lists of bytes, lengths are [Z] where the C code computes with
    them and [nat] where they index a list.  The external primitives (HMAC,
    hash, AES, base64, key derivation) form an interface; randomness and the
    clock are read from an explicit oracle. *)

From Stdlib Require Import ZArith List Lia Bool.
From Stdlib Require Ascii String.
Import String.StringSyntax.
Delimit Scope string_scope with string.
Import ListNotations.
Local Open Scope Z_scope.
Local Open Scope list_scope.

(** ** Bytes, casts and buffers *)

(** [(char)x], read back as an unsigned byte. *)
Definition to_char (x : Z) : Z := x mod 256.

(** [(uint8_t)x], [(uint16_t)x] and [(uint32_t)x]. *)
Definition to_uint8 (x : Z) : Z := x mod 2 ^ 8.
Definition to_uint16 (x : Z) : Z := x mod 2 ^ 16.
Definition to_uint32 (x : Z) : Z := x mod 2 ^ 32.

(** A 16-bit little-endian read: [(b1 << 8) + b0]. *)
Definition le_u16 (b0 b1 : Z) : Z := Z.shiftl b1 8 + b0.

(** The first two bytes of a buffer, read as a little-endian u16. *)
Definition read_le_u16 (buf : list Z) : Z :=
  le_u16 (nth 0 buf 0) (nth 1 buf 0).

(** [memcpy(dst + off, src, |src|)] on a buffer held as a list. *)
Definition memcpy (dst : list Z) (off : nat) (src : list Z) : list Z :=
  firstn off dst ++ src ++ skipn (off + length src) dst.

(** [memcmp(a, b, n) == 0] for two [n]-byte regions already cut out. *)
Definition bytes_eqb (a b : list Z) : bool :=
  if list_eq_dec Z.eq_dec a b then true else false.

(** Modelled from the spec: [memintcopy_lt] lives in obfsutil.c, which is not
    part of the sources at hand; the specification reads every use of it as a
    little-endian u32 store ("pack_id(LE u32)", "time_u32_LE"). *)
Definition memintcopy_lt (v : Z) : list Z :=
  [ to_char v; to_char (Z.shiftr v 8);
    to_char (Z.shiftr v 16); to_char (Z.shiftr v 24) ].

(** ** Randomness and time

    [xorshift128plus] (obfsutil.c) and [rand_bytes] (encrypt.c) are outside the
    sources at hand.  They are modelled as reads from two oracle tapes: the
    successive 64-bit outputs of the generator and the successive bytes
    delivered by [rand_bytes]. *)

Record rand_state := mk_rand {
  xs_tape : nat -> Z;
  xs_pos  : nat;
  rb_tape : nat -> Z;
  rb_pos  : nat
}.

Definition xorshift128plus (r : rand_state) : Z * rand_state :=
  (xs_tape r (xs_pos r) mod 2 ^ 64,
   mk_rand (xs_tape r) (S (xs_pos r)) (rb_tape r) (rb_pos r)).

Definition rand_bytes (len : Z) (r : rand_state) : list Z * rand_state :=
  (map (fun i => to_char (rb_tape r (rb_pos r + i)%nat)) (seq 0 (Z.to_nat len)),
   mk_rand (xs_tape r) (xs_pos r) (rb_tape r) (rb_pos r + Z.to_nat len)%nat).

(** ** Plugin data *)

Definition auth_simple_pack_unit_size : Z := 2000.

Record auth_simple_global_data := mk_global {
  local_client_id : list Z;
  connection_id   : Z
}.

(** [user_key_len] of the C struct is always set together with [user_key];
    it is read off the key here. *)
Record auth_simple_local_data := mk_local {
  has_sent_header : bool;
  recv_buffer     : list Z;
  recv_id         : Z;
  pack_id         : Z;
  salt            : list Z;
  user_key        : option (list Z);
  uid             : list Z;
  hash_len        : Z;
  last_data_len   : Z;
  unit_len        : Z
}.

Definition user_key_bytes (local : auth_simple_local_data) : list Z :=
  match user_key local with Some k => k | None => [] end.

Definition user_key_len (local : auth_simple_local_data) : Z :=
  Z.of_nat (length (user_key_bytes local)).

(** The bytes of a string literal. *)
Definition bytes_of_string (s : String.string) : list Z :=
  map (fun c => Z.of_nat (Ascii.nat_of_ascii c)) (String.list_ascii_of_string s).

(** [auth_simple_local_data_init].  The C function leaves [uid] and
    [last_data_len] as they come from [malloc]; they are zero here.  Every
    path that reads [uid] stores it first; [last_data_len] enters the padding
    length of the data chunks only, and the statements about them hold for
    every value of it. *)
Definition auth_simple_local_data_init : auth_simple_local_data :=
  mk_local false [] 1 1 [] None [0; 0; 0; 0] 0 0 2000.

(** The local data behind [auth_aes128_md5_new_obfs] and
    [auth_aes128_sha1_new_obfs]. *)
Definition auth_aes128_md5_new_obfs : auth_simple_local_data :=
  mk_local false [] 1 1 (bytes_of_string "auth_aes128_md5"%string) None
           [0; 0; 0; 0] 16 0 2000.

Definition auth_aes128_sha1_new_obfs : auth_simple_local_data :=
  mk_local false [] 1 1 (bytes_of_string "auth_aes128_sha1"%string) None
           [0; 0; 0; 0] 20 0 2000.

(** Which plugin-global block a [g_data] pointer designates. *)
Inductive g_data_ref := g_null | g_obfs_global | g_protocol_global.

(** [struct server_info_t] (obfs.h).  [iv] and [key] hold the [iv_len] and
    [key_len] bytes the pointers designate.  [param] is a C string: [None] is
    the NULL pointer, the list holds the bytes before the terminating NUL. *)
Record server_info_t := mk_server_info {
  si_host        : list Z;
  si_port        : Z;
  si_iv          : list Z;
  si_key         : list Z;
  si_param       : option (list Z);
  si_g_data      : g_data_ref;
  si_head_len    : Z;
  si_tcp_mss     : Z;
  si_buffer_size : Z;
  si_overhead    : Z
}.

Definition set_pack_id (local : auth_simple_local_data) (v : Z) :=
  mk_local (has_sent_header local) (recv_buffer local) (recv_id local) v
           (salt local) (user_key local) (uid local) (hash_len local)
           (last_data_len local) (unit_len local).

Definition set_user_key (local : auth_simple_local_data) (u k : list Z) :=
  mk_local (has_sent_header local) (recv_buffer local) (recv_id local)
           (pack_id local) (salt local) (Some k) u (hash_len local)
           (last_data_len local) (unit_len local).

Definition set_sent_header (local : auth_simple_local_data) :=
  mk_local true (recv_buffer local) (recv_id local)
           (pack_id local) (salt local) (user_key local) (uid local)
           (hash_len local) (last_data_len local) (unit_len local).

Definition set_last_data_len (local : auth_simple_local_data) (n : Z) :=
  mk_local (has_sent_header local) (recv_buffer local) (recv_id local)
           (pack_id local) (salt local) (user_key local) (uid local)
           (hash_len local) n (unit_len local).

Definition set_recv (local : auth_simple_local_data) (buf : list Z) (id : Z) :=
  mk_local (has_sent_header local) buf id
           (pack_id local) (salt local) (user_key local) (uid local)
           (hash_len local) (last_data_len local) (unit_len local).

(** ** Padding length *)

Definition get_rand_len (datalength fulldatalength : Z)
    (local : auth_simple_local_data) (server : server_info_t)
    (rnd : rand_state) : Z * rand_state :=
  if (datalength >? 1300) || (last_data_len local >? 1300)
     || (fulldatalength >=? si_buffer_size server)
  then (0, rnd)
  else if datalength >? 1100 then
    let '(x, rnd') := xorshift128plus rnd in (Z.land x 0x7F, rnd')
  else if datalength >? 900 then
    let '(x, rnd') := xorshift128plus rnd in (Z.land x 0xFF, rnd')
  else if datalength >? 400 then
    let '(x, rnd') := xorshift128plus rnd in (Z.land x 0x1FF, rnd')
  else
    let '(x, rnd') := xorshift128plus rnd in (Z.land x 0x3FF, rnd').

(** ** External primitives

    The plugin reaches HMAC and the hash through the function pointers
    [local->hmac] and [local->hash]; AES, base64 and the key derivation are
    library calls.  None of them is part of the sources at hand, so they form
    an interface.  Arguments follow the C order ([msg] before [key]). *)

Class Primitives := {
  hmac : list Z -> list Z -> list Z;
  hash : list Z -> list Z;
  ss_aes_128_cbc : list Z -> list Z -> list Z;
  std_base64_encode : list Z -> list Z;
  bytes_to_key_with_size : list Z -> Z -> list Z
}.

(** What the code relies on: a digest fills at least the bytes copied out of
    it, AES returns one 16-byte block. *)
Class PrimitivesOk (P : Primitives) : Prop := {
  hmac_length : forall msg key, (6 <= length (hmac msg key))%nat;
  aes_length  : forall blk key, length (ss_aes_128_cbc blk key) = 16%nat
}.

(** Modelled from the spec: [strtol(s, NULL, 10)] is the C library's; it skips
    white space, takes an optional sign and the longest run of decimal
    digits, and saturates at the bounds of [long] (64 bits here). *)
Definition is_space (c : Z) : bool :=
  (c =? 32) || ((9 <=? c) && (c <=? 13)).

Definition is_digit (c : Z) : bool := (48 <=? c) && (c <=? 57).

Fixpoint skip_space (s : list Z) : list Z :=
  match s with
  | c :: s' => if is_space c then skip_space s' else s
  | [] => []
  end.

Fixpoint digits_value (acc : Z) (s : list Z) : Z :=
  match s with
  | c :: s' => if is_digit c then digits_value (10 * acc + (c - 48)) s' else acc
  | [] => acc
  end.

Definition LONG_MAX : Z := 2 ^ 63 - 1.
Definition LONG_MIN : Z := - 2 ^ 63.

Definition strtol10 (s : list Z) : Z :=
  match skip_space s with
  | c :: s' =>
    if c =? 45 then Z.max LONG_MIN (- digits_value 0 s')
    else if c =? 43 then Z.min LONG_MAX (digits_value 0 s')
    else Z.min LONG_MAX (digits_value 0 (c :: s'))
  | [] => 0
  end.

(** [strchr(s, c)]: the offset of the first [c] in [s], if any. *)
Fixpoint strchr (s : list Z) (c : Z) : option nat :=
  match s with
  | [] => None
  | x :: s' => if x =? c then Some O
               else match strchr s' c with
                    | Some i => Some (S i)
                    | None => None
                    end
  end.

Section AuthAes128.
Context {P : Primitives}.

(** ** Packing a data chunk *)

Record pack_result := mk_pack {
  out_size  : Z;
  outdata   : list Z;
  pk_local  : auth_simple_local_data;
  pk_rand   : rand_state
}.

(** [outdata] is the region of the zero-filled ([calloc]) output buffer that
    the chunk occupies; the stores follow the order of the C function. *)
Definition auth_aes128_sha1_pack_data (data : list Z) (fulldatalength : Z)
    (server : server_info_t) (local : auth_simple_local_data)
    (rnd : rand_state) : pack_result :=
  let datalength := Z.of_nat (length data) in
  let '(r, rnd1) := get_rand_len datalength fulldatalength local server rnd in
  let rand_len := r + 1 in
  let out_size := rand_len + datalength + 8 in
  let out0 := repeat 0 (Z.to_nat out_size) in
  let out1 := memcpy out0 (Z.to_nat (rand_len + 4)) data in
  let out2 := memcpy out1 0 [to_char out_size; to_char (Z.shiftr out_size 8)] in
  let key_len := to_uint8 (user_key_len local + 4) in
  let key := firstn (Z.to_nat key_len)
                    (user_key_bytes local ++ memintcopy_lt (pack_id local)) in
  let '(rnd_data, rnd2) := rand_bytes rand_len rnd1 in
  let out3 := memcpy out2 4 rnd_data in
  let out4 := memcpy out3 2 (firstn 2 (hmac (firstn 2 out3) key)) in
  let out5 :=
    if rand_len <? 128 then memcpy out4 4 [to_char rand_len]
    else memcpy out4 4 [0xFF; to_char rand_len; to_char (Z.shiftr rand_len 8)] in
  let local' := set_pack_id local (to_uint32 (pack_id local + 1)) in
  let out6 := memcpy out5 (Z.to_nat (out_size - 4))
                (firstn 4 (hmac (firstn (Z.to_nat (out_size - 4)) out5) key)) in
  mk_pack out_size out6 local' rnd2.

(** ** Packing the initial chunk ("auth data") *)

(** The key resolution of [auth_aes128_sha1_pack_auth_data], run when
    [local->user_key] is still NULL.  [uid_str] holds 16 bytes and [key_str]
    128: a longer prefix or suffix overruns them, which the model leaves out
    of its domain ([None]). *)
Definition resolve_user_key (server : server_info_t)
    (local : auth_simple_local_data) (rnd : rand_state)
    : option (auth_simple_local_data * rand_state) :=
  match user_key local with
  | Some _ => Some (local, rnd)
  | None =>
    let fallback :=
      let '(u, rnd') := rand_bytes 4 rnd in
      Some (set_user_key local u (si_key server), rnd') in
    match si_param server with
    | None => fallback
    | Some [] => fallback
    | Some param =>
      match strchr param 58 with
      | None => fallback
      | Some d =>
        let uid_str := firstn d param in
        let key_str := skipn (S d) param in
        if (15 <? Z.of_nat (length uid_str)) || (127 <? Z.of_nat (length key_str))
        then None
        else
          let uid_long := strtol10 uid_str in
          let u := memintcopy_lt (to_uint32 uid_long) in
          let h := hash key_str in
          Some (set_user_key local u (firstn (Z.to_nat (hash_len local)) h), rnd)
      end
    end
  end.

(** The connection counter of the plugin-global data, as the initial pack
    steps it: [++global->connection_id] and the re-seeding behind it.  The
    four random bytes land in the counter's memory; they are read back in the
    byte order of a little-endian host. *)
Definition le_u32 (b : list Z) : Z :=
  nth 0 b 0 + Z.shiftl (nth 1 b 0) 8 + Z.shiftl (nth 2 b 0) 16
  + Z.shiftl (nth 3 b 0) 24.

Definition step_connection_id (global : auth_simple_global_data)
    (rnd : rand_state) : auth_simple_global_data * rand_state :=
  let cid := to_uint32 (connection_id global + 1) in
  if cid >? 0xFF000000 then
    let '(lcid, rnd1) := rand_bytes 8 rnd in
    let '(c4, rnd2) := rand_bytes 4 rnd1 in
    (mk_global lcid (Z.land (le_u32 c4) 0xFFFFFF), rnd2)
  else (mk_global (local_client_id global) cid, rnd).

Record auth_result := mk_auth {
  au_size   : Z;
  au_data   : list Z;
  au_global : auth_simple_global_data;
  au_local  : auth_simple_local_data;
  au_rand   : rand_state
}.

(** The 24-byte local array [encrypt] once its first 16 bytes are stored:
    time, client id, connection id, [out_size] and [rand_len].  [now] is the
    value of [time(NULL)]. *)
Definition auth_plain_block (now : Z) (global : auth_simple_global_data)
    (out_size rand_len : Z) : list Z :=
  let enc0 := memcpy (repeat 0 24) 0 (memintcopy_lt (to_uint32 now)) in
  let enc1 := memcpy enc0 4 (firstn 4 (local_client_id global)) in
  let enc2 := memcpy enc1 8 (memintcopy_lt (connection_id global)) in
  memcpy enc2 12
    [ to_char out_size; to_char (Z.shiftr out_size 8);
      to_char rand_len; to_char (Z.shiftr rand_len 8) ].

(** The AES key: [bytes_to_key_with_size] over base64(user_key) followed by
    the salt, assembled in the zeroed 256-byte [encrypt_key_base64]. *)
Definition auth_enc_key (local : auth_simple_local_data) : list Z :=
  let encrypt_key_base64 :=
    memcpy (repeat 0 256) 0 (std_base64_encode (user_key_bytes local)) in
  let base64_len := (user_key_len local + 2) / 3 * 4 in
  let encrypt_key_base64 :=
    memcpy encrypt_key_base64 (Z.to_nat base64_len) (salt local) in
  let enc_key_len := base64_len + Z.of_nat (length (salt local)) in
  bytes_to_key_with_size (firstn (Z.to_nat enc_key_len) encrypt_key_base64) 16.

(** The HMAC key of the initial chunk: [iv] followed by the server key, cut
    to the [uint8_t] length the C code computes. *)
Definition auth_hmac_key (server : server_info_t) : list Z :=
  let key_len :=
    to_uint8 (Z.of_nat (length (si_iv server)) + Z.of_nat (length (si_key server))) in
  firstn (Z.to_nat key_len) (si_iv server ++ si_key server).

Definition auth_aes128_sha1_pack_auth_data (now : Z)
    (global : auth_simple_global_data) (server : server_info_t)
    (local : auth_simple_local_data) (data : list Z) (rnd : rand_state)
    : option auth_result :=
  let datalength := Z.of_nat (length data) in
  let '(x, rnd1) := xorshift128plus rnd in
  let rand_len := if datalength >? 400 then Z.land x 0x1FF else Z.land x 0x3FF in
  let data_offset := rand_len + 16 + 4 + 4 + 7 in
  let out_size := data_offset + datalength + 4 in
  let key := auth_hmac_key server in
  let out0 := repeat 0 (Z.to_nat out_size) in
  let '(rnd_data, rnd2) := rand_bytes rand_len rnd1 in
  let out1 := memcpy out0 (Z.to_nat (data_offset - rand_len)) rnd_data in
  let '(global', rnd3) := step_connection_id global rnd2 in
  let enc3 := auth_plain_block now global' out_size rand_len in
  match resolve_user_key server local rnd3 with
  | None => None
  | Some (local', rnd4) =>
    let enc_key := auth_enc_key local' in
    let encrypt_data := ss_aes_128_cbc (firstn 16 enc3) enc_key in
    let enc4 := memcpy enc3 4 encrypt_data in
    let enc5 := memcpy enc4 0 (uid local') in
    let enc6 := memcpy enc5 20 (firstn 4 (hmac (firstn 20 enc5) key)) in
    let '(b0, rnd5) := rand_bytes 1 rnd4 in
    let out2 := memcpy out1 0 b0 in
    let out3 := memcpy out2 1 (firstn 6 (hmac (firstn 1 out2) key)) in
    let out4 := memcpy out3 7 (firstn 24 enc6) in
    let out5 := memcpy out4 (Z.to_nat data_offset) data in
    let out6 := memcpy out5 (Z.to_nat (out_size - 4))
                  (firstn 4 (hmac (firstn (Z.to_nat (out_size - 4)) out5)
                                  (user_key_bytes local'))) in
    Some (mk_auth out_size out6 global' local' rnd5)
  end.

(** ** Client pre-encrypt *)

(** The [while (len > auth_simple_pack_unit_size)] loop.  Every round takes
    2000 bytes off [data], so [length data] rounds are more than enough. *)
Fixpoint pack_loop (fuel : nat) (data : list Z) (datalength : Z)
    (server : server_info_t) (local : auth_simple_local_data)
    (rnd : rand_state)
    : list (list Z) * list Z * auth_simple_local_data * rand_state :=
  match fuel with
  | O => ([], data, local, rnd)
  | S fuel' =>
    if Z.of_nat (length data) >? auth_simple_pack_unit_size then
      let r := auth_aes128_sha1_pack_data
                 (firstn (Z.to_nat auth_simple_pack_unit_size) data)
                 datalength server local rnd in
      let '(chunks, data', local', rnd') :=
        pack_loop fuel' (skipn (Z.to_nat auth_simple_pack_unit_size) data)
                  datalength server (pk_local r) (pk_rand r) in
      (outdata r :: chunks, data', local', rnd')
    else ([], data, local, rnd)
  end.

Record pre_result := mk_pre {
  pre_chunks : list (list Z);
  pre_global : auth_simple_global_data;
  pre_local  : auth_simple_local_data;
  pre_rand   : rand_state
}.

(** The chunks are written one after the other into [out_buffer]; the bytes
    handed back are their concatenation and the return value is its length. *)
Definition pre_output (r : pre_result) : list Z := concat (pre_chunks r).

Definition auth_aes128_sha1_client_pre_encrypt (now : Z)
    (global : auth_simple_global_data) (server : server_info_t)
    (local : auth_simple_local_data) (plaindata : list Z) (rnd : rand_state)
    : option pre_result :=
  let datalength := Z.of_nat (length plaindata) in
  let head :=
    if (datalength >? 0) && negb (has_sent_header local) then
      let head_size := if 1200 >? datalength then datalength else 1200 in
      match auth_aes128_sha1_pack_auth_data now global server local
              (firstn (Z.to_nat head_size) plaindata) rnd with
      | None => None
      | Some a =>
        Some ([au_data a], skipn (Z.to_nat head_size) plaindata,
              au_global a, set_sent_header (au_local a), au_rand a)
      end
    else Some ([], plaindata, global, local, rnd) in
  match head with
  | None => None
  | Some (c0, data, global1, local1, rnd1) =>
    let '(c1, data2, local2, rnd2) :=
      pack_loop (length data) data datalength server local1 rnd1 in
    let '(c2, local3, rnd3) :=
      if Z.of_nat (length data2) >? 0 then
        let r := auth_aes128_sha1_pack_data data2 datalength server local2 rnd2 in
        ([outdata r], pk_local r, pk_rand r)
      else ([], local2, rnd2) in
    Some (mk_pre (c0 ++ c1 ++ c2) global1
                 (set_last_data_len local3 datalength) rnd3)
  end.

(** ** Client post-decrypt *)

(** The [while (local->recv_buffer->len > 4)] loop over the valid bytes of
    [recv_buffer].  The result is the error flag, the bytes left in the
    buffer, [recv_id] and the plaintext gathered in [out_buffer].  A round
    that does not leave the loop drops at least 8 bytes, so [length buf]
    rounds are more than enough. *)
Fixpoint post_decrypt_loop (fuel : nat) (ukey : list Z) (buf : list Z)
    (id : Z) (out : list Z) : bool * list Z * Z * list Z :=
  match fuel with
  | O => (false, buf, id, out)
  | S fuel' =>
    if Z.of_nat (length buf) >? 4 then
      let key := ukey ++ memintcopy_lt id in
      if negb (bytes_eqb (firstn 2 (hmac (firstn 2 buf) key))
                         (firstn 2 (skipn 2 buf)))
      then (true, [], id, out)
      else
        let len := Z.shiftl (nth 1 buf 0) 8 + nth 0 buf 0 in
        if (len >=? 8192) || (len <? 8) then (true, [], id, out)
        else if len >? Z.of_nat (length buf) then (false, buf, id, out)
        else if negb (bytes_eqb
                        (firstn 4 (hmac (firstn (Z.to_nat (len - 4)) buf) key))
                        (firstn 4 (skipn (Z.to_nat (len - 4)) buf)))
        then (true, [], id, out)
        else
          let id' := to_uint32 (id + 1) in
          let pos := nth 4 buf 0 in
          let pos := if pos <? 255 then pos + 4
                     else Z.lor (Z.shiftl (nth 6 buf 0) 8) (nth 5 buf 0) + 4 in
          let data_size := len - pos - 4 in
          post_decrypt_loop fuel' ukey (skipn (Z.to_nat len) buf) id'
            (out ++ firstn (Z.to_nat data_size) (skipn (Z.to_nat pos) buf))
    else (false, buf, id, out)
  end.

(** The return value, the bytes behind [*pplaindata] afterwards, and the
    plugin data.  An error leaves the caller's buffer as it was. *)
Definition auth_aes128_sha1_client_post_decrypt
    (local : auth_simple_local_data) (plaindata : list Z)
    : Z * list Z * auth_simple_local_data :=
  let datalength := Z.of_nat (length plaindata) in
  if Z.of_nat (length (recv_buffer local)) + datalength >? 16384 then
    (-1, plaindata, local)
  else
    let buf := recv_buffer local ++ plaindata in
    let '(error, buf', id', out) :=
      post_decrypt_loop (length buf) (user_key_bytes local) buf
                        (recv_id local) [] in
    if error then (-1, plaindata, set_recv local buf' id')
    else (Z.of_nat (length out), out, set_recv local buf' id').

(** ** UDP post-decrypt *)

Definition auth_aes128_sha1_client_udp_post_decrypt (server : server_info_t)
    (plaindata : list Z) : Z * list Z :=
  let datalength := Z.of_nat (length plaindata) in
  if datalength <=? 4 then (0, plaindata)
  else
    let h := hmac (firstn (Z.to_nat (datalength - 4)) plaindata) (si_key server) in
    if negb (bytes_eqb (firstn 4 h)
                       (firstn 4 (skipn (Z.to_nat (datalength - 4)) plaindata)))
    then (0, plaindata)
    else (datalength - 4, plaindata).

Definition auth_aes128_sha1_get_overhead : Z := 9.

End AuthAes128.

(** ** Tunnel-cipher construction *)

(** A plugin instance ([struct obfs_t]): the server information stored by
    [set_server_info] and, for the auth plugins, the local data. *)
Record obfs_t := mk_obfs {
  ob_server : option server_info_t;
  ob_l_data : option auth_simple_local_data
}.

(** The entries of [struct obfs_manager] that the constructor calls. *)
Record obfs_manager := mk_manager {
  new_obfs        : obfs_t;
  get_overhead    : obfs_t -> Z;
  set_server_info : obfs_t -> server_info_t -> obfs_t
}.

Record cipher_env_t := mk_cipher_env {
  enc_key     : list Z;
  enc_key_len : Z;
  enc_iv_len  : Z;
  enc_method  : Z
}.

Record enc_ctx := mk_enc_ctx {
  ctx_init    : Z;
  ctx_counter : Z;
  ctx_iv      : list Z
}.

Record server_config := mk_config {
  remote_host    : list Z;
  remote_port    : Z;
  protocol_param : option (list Z);
  obfs_param     : option (list Z)
}.

Record server_env_t := mk_env {
  cipher          : cipher_env_t;
  config          : server_config;
  protocol_plugin : option obfs_manager;
  obfs_plugin     : option obfs_manager
}.

Record tunnel_cipher_ctx := mk_tc {
  e_ctx       : option enc_ctx;
  d_ctx       : option enc_ctx;
  tc_obfs     : option obfs_t;
  tc_protocol : option obfs_t
}.

Inductive plugin_role := role_obfs | role_protocol.

Section TunnelCipher.

(** Constants and helpers declared outside the sources at hand. *)
Variable SSR_BUFF_SIZE : Z.
Variable ss_cipher_table : Z.
Variable get_head_size : list Z -> Z -> Z -> Z.
Variable enc_ctx_new_instance : cipher_env_t -> bool -> enc_ctx.
Variable enc_ctx_get_iv : option enc_ctx -> list Z.

(** [tunnel_cipher_create], together with the calls of [set_server_info] it
    makes, in order, each with the structure it passes. *)
Definition tunnel_cipher_create (env : server_env_t) (init_pkg : list Z)
    : tunnel_cipher_ctx * list (plugin_role * server_info_t) :=
  let cfg := config env in
  let '(e, d) :=
    if enc_method (cipher env) >? ss_cipher_table
    then (Some (enc_ctx_new_instance (cipher env) true),
          Some (enc_ctx_new_instance (cipher env) false))
    else (None, None) in
  let iv_len := to_uint16 (enc_iv_len (cipher env)) in
  let key_len := to_uint16 (enc_key_len (cipher env)) in
  let info_obfs :=
    mk_server_info (remote_host cfg) (remote_port cfg)
      (firstn (Z.to_nat iv_len) (enc_ctx_get_iv e))
      (firstn (Z.to_nat key_len) (enc_key (cipher env)))
      (obfs_param cfg) g_obfs_global
      (get_head_size init_pkg (Z.of_nat (length init_pkg)) 30)
      1452 SSR_BUFF_SIZE 0 in
  let '(o, calls_o) :=
    match obfs_plugin env with
    | Some op =>
      (Some (set_server_info op (new_obfs op) info_obfs),
       [(role_obfs, info_obfs)])
    | None => (None, [])
    end in
  let info_param :=
    mk_server_info (si_host info_obfs) (si_port info_obfs) (si_iv info_obfs)
      (si_key info_obfs) (protocol_param cfg) g_protocol_global
      (si_head_len info_obfs) (si_tcp_mss info_obfs)
      (si_buffer_size info_obfs) (si_overhead info_obfs) in
  let '(p, calls_p) :=
    match protocol_plugin env with
    | Some pp =>
      let inst := new_obfs pp in
      let p_len := get_overhead pp inst in
      let o_len :=
        match obfs_plugin env, o with
        | Some op, Some oi => get_overhead op oi
        | _, _ => 0
        end in
      let info_protocol :=
        mk_server_info (si_host info_param) (si_port info_param)
          (si_iv info_param) (si_key info_param) (si_param info_param)
          (si_g_data info_param) (si_head_len info_param)
          (si_tcp_mss info_param) (si_buffer_size info_param)
          (to_uint16 (p_len + o_len)) in
      (Some (set_server_info pp inst info_protocol),
       [(role_protocol, info_protocol)])
    | None => (None, [])
    end in
  (mk_tc e d o p, calls_o ++ calls_p).

End TunnelCipher.

(** The [auth_aes128_sha1] entry of the plugin table, as far as the
    constructor sees it: a fresh instance carries the initial local data and
    the overhead is the constant of [auth_aes128_sha1_get_overhead].  The
    table's [set_server_info] (obfs.c) is outside the sources at hand; it is
    taken to store the structure in the instance. *)
Definition auth_aes128_sha1_manager : obfs_manager :=
  mk_manager (mk_obfs None (Some auth_aes128_sha1_new_obfs))
             (fun _ => auth_aes128_sha1_get_overhead)
             (fun o info => mk_obfs (Some info) (ob_l_data o)).

(** ** The tunnel state machine (tunnel.c) *)

Inductive session_state :=
  | session_handshake | session_handshake_auth | session_req_start
  | session_req_parse | session_req_udp_accoc | session_req_lookup
  | session_req_connect | session_ssr_auth_sent | session_proxy_start
  | session_proxy | session_kill | session_dead.

Inductive socket_state := socket_stop | socket_busy | socket_done | socket_dead.

Inductive sa_family_t := AF_INET | AF_INET6 | AF_UNSPEC.

(** libuv's status codes are the negated errno values (Linux numbers). *)
Definition UV_ECANCELED : Z := -125.
Definition UV_ECONNREFUSED : Z := -111.

Inductive ssr_error := ssr_ok | ssr_error_invalid_password.

Inductive endpoint := Incoming | Outgoing.

(** What the machine asks of the event loop, in order. *)
Inductive io_action :=
  | io_write (c : endpoint) (data : list Z)
  | io_read_start (c : endpoint)
  | io_timer_reset (c : endpoint)
  | io_tcp_connect
  | io_cancel_resolve
  | io_close_handle (c : endpoint)
  | io_close_timer (c : endpoint).

Record socket_ctx := mk_socket {
  rdstate   : socket_state;
  wrstate   : socket_state;
  result    : Z;
  sa_family : sa_family_t;
  sin_port  : Z
}.

Section Tunnel.

(** The cipher pipeline of a tunnel and its egress stage are kept abstract,
    and so are the access rule, the immediate outcome of [uv_tcp_connect] and
    the handlers of the states this development does not enter. *)
Variable cipher_t : Type.

Record tunnel_ctx := mk_tunnel {
  state     : session_state;
  incoming  : socket_ctx;
  outgoing  : socket_ctx;
  ref_count : Z;
  dport     : Z;
  init_pkg  : list Z;
  tcipher   : cipher_t;
  actions   : list io_action
}.

Variable tunnel_encrypt : cipher_t -> list Z -> ssr_error * list Z * cipher_t.
Variable can_access : tunnel_ctx -> bool.
Variable uv_tcp_connect : tunnel_ctx -> Z.
Variable other_states : tunnel_ctx -> option tunnel_ctx.

Definition with_state (t : tunnel_ctx) (s : session_state) :=
  mk_tunnel s (incoming t) (outgoing t) (ref_count t) (dport t) (init_pkg t)
            (tcipher t) (actions t).

Definition with_socket (t : tunnel_ctx) (c : endpoint) (k : socket_ctx) :=
  match c with
  | Incoming => mk_tunnel (state t) k (outgoing t) (ref_count t) (dport t)
                          (init_pkg t) (tcipher t) (actions t)
  | Outgoing => mk_tunnel (state t) (incoming t) k (ref_count t) (dport t)
                          (init_pkg t) (tcipher t) (actions t)
  end.

Definition socket_of (t : tunnel_ctx) (c : endpoint) : socket_ctx :=
  match c with Incoming => incoming t | Outgoing => outgoing t end.

Definition emit (t : tunnel_ctx) (a : list io_action) :=
  mk_tunnel (state t) (incoming t) (outgoing t) (ref_count t) (dport t)
            (init_pkg t) (tcipher t) (actions t ++ a).

Definition with_cipher (t : tunnel_ctx) (k : cipher_t) :=
  mk_tunnel (state t) (incoming t) (outgoing t) (ref_count t) (dport t)
            (init_pkg t) k (actions t).

Definition add_refs (t : tunnel_ctx) (n : Z) :=
  mk_tunnel (state t) (incoming t) (outgoing t) (ref_count t + n) (dport t)
            (init_pkg t) (tcipher t) (actions t).

Definition socket_state_eqb (a b : socket_state) : bool :=
  match a, b with
  | socket_stop, socket_stop | socket_busy, socket_busy
  | socket_done, socket_done | socket_dead, socket_dead => true
  | _, _ => false
  end.

Definition all_stopped (t : tunnel_ctx) : bool :=
  socket_state_eqb (rdstate (incoming t)) socket_stop
  && socket_state_eqb (wrstate (incoming t)) socket_stop
  && socket_state_eqb (rdstate (outgoing t)) socket_stop
  && socket_state_eqb (wrstate (outgoing t)) socket_stop.

Definition tunnel_is_dead (t : tunnel_ctx) : bool :=
  match state t with session_dead => true | _ => false end.

(** A failed [ASSERT], [CHECK] or [UNREACHABLE] aborts the process: [None]. *)

Definition socket_write (t : tunnel_ctx) (c : endpoint) (data : list Z)
    : option tunnel_ctx :=
  let k := socket_of t c in
  if socket_state_eqb (wrstate k) socket_stop
     || socket_state_eqb (wrstate k) socket_done
  then
    let k' := mk_socket (rdstate k) socket_busy (result k) (sa_family k)
                        (sin_port k) in
    Some (emit (with_socket t c k') [io_write c data; io_timer_reset c])
  else None.

Definition socket_close (t : tunnel_ctx) (c : endpoint) : option tunnel_ctx :=
  let k := socket_of t c in
  if socket_state_eqb (rdstate k) socket_dead
     || socket_state_eqb (wrstate k) socket_dead
  then None
  else
    let k' := mk_socket socket_dead socket_dead (result k) (sa_family k)
                        (sin_port k) in
    Some (emit (add_refs (with_socket t c k') 2)
               [io_close_handle c; io_close_timer c]).

Definition tunnel_shutdown (t : tunnel_ctx) : option tunnel_ctx :=
  if tunnel_is_dead t then None
  else
    let t1 := match state t with
              | session_req_lookup => emit t [io_cancel_resolve]
              | _ => t
              end in
    match socket_close t1 Incoming with
    | None => None
    | Some t2 =>
      match socket_close t2 Outgoing with
      | None => None
      | Some t3 => Some (with_state t3 session_dead)
      end
    end.

Definition socket_connect (t : tunnel_ctx) : option (Z * tunnel_ctx) :=
  match sa_family (outgoing t) with
  | AF_UNSPEC => None
  | _ => let t1 := emit t [io_timer_reset Outgoing; io_tcp_connect] in
         Some (uv_tcp_connect t, t1)
  end.

Definition do_req_connect_start (t : tunnel_ctx) : option tunnel_ctx :=
  if negb (all_stopped t) then None
  else if negb (can_access t) then
    match socket_write t Incoming [5; 2; 0; 1; 0; 0; 0; 0; 0; 0] with
    | None => None
    | Some t1 => Some (with_state t1 session_kill)
    end
  else
    match socket_connect t with
    | None => None
    | Some (err, t1) =>
      if negb (err =? 0) then tunnel_shutdown t1
      else Some (with_state t1 session_req_connect)
    end.

Definition do_req_lookup (t : tunnel_ctx) : option tunnel_ctx :=
  if negb (all_stopped t) then None
  else if result (outgoing t) <? 0 then
    match socket_write t Incoming [5; 4; 0; 1; 0; 0; 0; 0; 0; 0] with
    | None => None
    | Some t1 => Some (with_state t1 session_kill)
    end
  else
    let o := outgoing t in
    match sa_family o with
    | AF_UNSPEC => None
    | _ =>
      let o' := mk_socket (rdstate o) (wrstate o) (result o) (sa_family o)
                          (dport t) in
      do_req_connect_start (with_socket t Outgoing o')
    end.

Definition do_req_connect (t : tunnel_ctx) : option tunnel_ctx :=
  if negb (all_stopped t) then None
  else if result (outgoing t) =? 0 then
    match tunnel_encrypt (tcipher t) (init_pkg t) with
    | (ssr_ok, tmp, k) =>
      match socket_write (with_cipher t k) Outgoing tmp with
      | None => None
      | Some t1 => Some (with_state t1 session_ssr_auth_sent)
      end
    | (_, _, k) => tunnel_shutdown (with_cipher t k)
    end
  else
    match socket_write t Incoming [5; 5; 0; 1; 0; 0; 0; 0; 0; 0] with
    | None => None
    | Some t1 => Some (with_state t1 session_kill)
    end.

Definition do_next (t : tunnel_ctx) : option tunnel_ctx :=
  match state t with
  | session_req_lookup => do_req_lookup t
  | session_req_connect => do_req_connect t
  | session_kill => tunnel_shutdown t
  | session_dead => None
  | _ => other_states t
  end.

Definition with_result (t : tunnel_ctx) (c : endpoint) (status : Z) :=
  let k := socket_of t c in
  with_socket t c (mk_socket (rdstate k) (wrstate k) status (sa_family k)
                             (sin_port k)).

(** [ai] is the family of the first address of the answer. *)
Definition socket_getaddrinfo_done_cb (t : tunnel_ctx) (status : Z)
    (ai : sa_family_t) : option tunnel_ctx :=
  let t1 := with_result t Outgoing status in
  if tunnel_is_dead t1 then Some t1
  else if status =? 0 then
    match ai with
    | AF_UNSPEC => None
    | _ =>
      let o := outgoing t1 in
      do_next (with_socket t1 Outgoing
                 (mk_socket (rdstate o) (wrstate o) (result o) ai (sin_port o)))
    end
  else do_next t1.

Definition socket_connect_done_cb (t : tunnel_ctx) (status : Z)
    : option tunnel_ctx :=
  let t1 := with_result t Outgoing status in
  if tunnel_is_dead t1 then Some t1
  else if (status =? UV_ECANCELED) || (status =? UV_ECONNREFUSED)
  then tunnel_shutdown t1
  else do_next t1.

End Tunnel.

(** ** Wire layout of a data chunk, and drivers

    The layout the stores of [auth_aes128_sha1_pack_data] add up to, the
    stream a sequence of chunks forms, and the two plugin entry points run
    over a sequence of buffers.  These are the vocabulary of the statements
    below; the code is embedded above. *)

Definition pad_marker (rand_len : Z) : list Z :=
  if rand_len <? 128 then [to_char rand_len]
  else [0xFF; to_char rand_len; to_char (Z.shiftr rand_len 8)].

Definition chunk_layout {P : Primitives} (key : list Z) (rand_len : Z)
    (rnd_data data : list Z) : list Z :=
  let out_size := rand_len + Z.of_nat (length data) + 8 in
  let hdr := [to_char out_size; to_char (Z.shiftr out_size 8)] in
  let pad := pad_marker rand_len ++ skipn (length (pad_marker rand_len)) rnd_data in
  let body := hdr ++ firstn 2 (hmac hdr key) ++ pad ++ data in
  body ++ firstn 4 (hmac body key).

Definition pack_key (local : auth_simple_local_data) : list Z :=
  firstn (Z.to_nat (to_uint8 (user_key_len local + 4)))
         (user_key_bytes local ++ memintcopy_lt (pack_id local)).

Definition frame_spec : Type := Z * list Z * list Z.

Definition frame_ok (f : frame_spec) : Prop :=
  let '(rl, rd, d) := f in
  1 <= rl /\ length rd = Z.to_nat rl /\ rl + Z.of_nat (length d) + 8 < 8192.

Fixpoint frame_stream {P : Primitives} (ukey : list Z) (id : Z)
    (fs : list frame_spec) : list Z :=
  match fs with
  | [] => []
  | (rl, rd, d) :: fs' =>
    chunk_layout (ukey ++ memintcopy_lt id) rl rd d
    ++ frame_stream ukey (to_uint32 (id + 1)) fs'
  end.

Definition payloads (fs : list frame_spec) : list Z := concat (map snd fs).

Fixpoint post_decrypt_pieces {P : Primitives} (local : auth_simple_local_data)
    (pieces : list (list Z)) : option (list Z * auth_simple_local_data) :=
  match pieces with
  | [] => Some ([], local)
  | p :: ps =>
    let '(len, out, local') := auth_aes128_sha1_client_post_decrypt local p in
    if len <? 0 then None
    else match post_decrypt_pieces local' ps with
         | None => None
         | Some (outs, l) => Some (out ++ outs, l)
         end
  end.

Fixpoint pre_encrypt_pieces {P : Primitives} (now : Z)
    (global : auth_simple_global_data) (server : server_info_t)
    (local : auth_simple_local_data) (pieces : list (list Z))
    (rnd : rand_state)
    : option (list Z * auth_simple_global_data * auth_simple_local_data * rand_state) :=
  match pieces with
  | [] => Some ([], global, local, rnd)
  | p :: ps =>
    match auth_aes128_sha1_client_pre_encrypt now global server local p rnd with
    | None => None
    | Some r =>
      match pre_encrypt_pieces now (pre_global r) server (pre_local r) ps (pre_rand r) with
      | None => None
      | Some (out, g, l, rn) => Some (pre_output r ++ out, g, l, rn)
      end
    end
  end.

(** The bytes that go into the initial chunk: the first 1200 bytes, or all of
    them when there are fewer, of the first buffer that is not empty. *)
Fixpoint first_head (sent : list (list Z)) : list Z :=
  match sent with
  | [] => []
  | [] :: more => first_head more
  | s :: _ => firstn 1200 s
  end.

Definition param_fits (param : option (list Z)) : bool :=
  match param with
  | None => true
  | Some p =>
    match strchr p 58 with
    | None => true
    | Some d => (Z.of_nat d <=? 15)
                && (Z.of_nat (length p) - Z.of_nat d - 1 <=? 127)
    end
  end.

Definition auth_rand_len (n : Z) (rnd : rand_state) : Z :=
  let x := fst (xorshift128plus rnd) in
  if n >? 400 then Z.land x 0x1FF else Z.land x 0x3FF.

Definition packed_from {P : Primitives} (dl : Z) (server : server_info_t)
    (c d : list Z) : Prop :=
  exists local rnd, c = outdata (auth_aes128_sha1_pack_data d dl server local rnd).

Definition length_field_ok (c : list Z) : Prop :=
  read_le_u16 c = Z.of_nat (length c).

Definition byte_sum (l : list Z) : Z := fold_right Z.add 0 l mod 256.

(** Stand-ins for the primitives, to run the code on concrete inputs: the
    digest of a message is its byte sum repeated, AES and the key derivation
    pass the first bytes through. *)
Definition test_primitives : Primitives :=
  {| hmac := fun msg key => repeat (byte_sum (msg ++ key)) 20;
     hash := fun msg => repeat (byte_sum msg) 20;
     ss_aes_128_cbc := fun blk key => firstn 16 (blk ++ repeat 0 16);
     std_base64_encode := fun x => x;
     bytes_to_key_with_size :=
       fun pass n => firstn (Z.to_nat n) (pass ++ repeat 0 (Z.to_nat n)) |}.

Definition zero_rand : rand_state := mk_rand (fun _ => 0) 0 (fun _ => 0) 0.

Definition test_global : auth_simple_global_data := mk_global (repeat 0 8) 1.

Definition test_server : server_info_t :=
  mk_server_info [] 8388 (repeat 1 16) (repeat 2 16) None g_protocol_global
                 7 1452 2048 9.

(** The receiving side of the round trip: same user key as the sender has
    after the auth-data chunk, [recv_id] 1, nothing buffered. *)
Definition test_receiver : auth_simple_local_data :=
  set_user_key auth_aes128_sha1_new_obfs [0; 0; 0; 0] (si_key test_server).

(** A stand-in obfs plugin with an overhead of 5 bytes, and an environment
    that pairs it with the [auth_aes128_sha1] protocol. *)
Definition test_obfs_manager : obfs_manager :=
  mk_manager (mk_obfs None None) (fun _ => 5)
             (fun o info => mk_obfs (Some info) (ob_l_data o)).

Definition test_env : server_env_t :=
  mk_env (mk_cipher_env (repeat 2 16) 16 16 1)
         (mk_config [] 8388 None None)
         (Some auth_aes128_sha1_manager) (Some test_obfs_manager).

Definition test_create (env : server_env_t) (init_pkg : list Z) :=
  tunnel_cipher_create 2048 0 (fun _ _ d => d)
    (fun _ _ => mk_enc_ctx 0 0 (repeat 1 16))
    (fun e => match e with Some c => ctx_iv c | None => [] end)
    env init_pkg.

Definition plugin_overhead (m : option obfs_manager) (inst : option obfs_t) : Z :=
  match m, inst with
  | Some op, Some oi => get_overhead op oi
  | _, _ => 0
  end.

(** A tunnel waiting for the upstream connect to complete, over a unit
    cipher that always succeeds. *)
Definition idle_socket : socket_ctx := mk_socket socket_stop socket_stop 0 AF_INET 0.

Definition test_tunnel (s : session_state) : tunnel_ctx unit :=
  mk_tunnel unit s idle_socket idle_socket 0 80 [1; 1; 2; 3; 4; 0; 80] tt [].

Definition test_connect_done (t : tunnel_ctx unit) (status : Z) :=
  socket_connect_done_cb unit (fun k pkg => (ssr_ok, pkg, k)) (fun _ => true)
    (fun _ => 0) (fun _ => None) t status.

Definition test_getaddrinfo_done (t : tunnel_ctx unit) (status : Z) :=
  socket_getaddrinfo_done_cb unit (fun k pkg => (ssr_ok, pkg, k)) (fun _ => true)
    (fun _ => 0) (fun _ => None) t status AF_UNSPEC.

Definition host_unreachable : list Z := [5; 4; 0; 1; 0; 0; 0; 0; 0; 0].
Definition connection_refused : list Z := [5; 5; 0; 1; 0; 0; 0; 0; 0; 0].

(** The number a string of decimal digits denotes. *)
Definition decimal_value (d : list Z) : Z :=
  fold_left (fun acc c => 10 * acc + (c - 48)) d 0.

Definition seven_rand : rand_state := mk_rand (fun _ => 0) 0 (fun _ => 7) 0.

(** A server whose protocol parameter is "abc:def" and whose key is 32 bytes
    long. *)
Definition abc_server : server_info_t :=
  mk_server_info [] 8388 (repeat 1 16) (repeat 2 32)
                 (Some [97; 98; 99; 58; 100; 101; 102]) g_protocol_global
                 7 1452 2048 9.

(** A server whose protocol parameter is "42:secret". *)
Definition uid_server : server_info_t :=
  mk_server_info [] 8388 (repeat 1 16) (repeat 2 16)
                 (Some [52; 50; 58; 115; 101; 99; 114; 101; 116]) g_protocol_global
                 7 1452 2048 9.

(** [auth_simple_init_data]: the plugin-global block of a fresh environment. *)
Definition auth_simple_init_data (rnd : rand_state)
    : auth_simple_global_data * rand_state :=
  let '(lcid, rnd1) := rand_bytes 8 rnd in
  let '(c4, rnd2) := rand_bytes 4 rnd1 in
  (mk_global lcid (Z.land (le_u32 c4) 0xFFFFFF), rnd2).

(** ** UDP pre-encrypt

    Every byte of the [malloc]ed [out_buffer] is stored before it is read,
    so its initial contents do not matter; the key resolution is the one of
    the initial TCP chunk. *)
Definition auth_aes128_sha1_client_udp_pre_encrypt {P : Primitives}
    (server : server_info_t) (local : auth_simple_local_data)
    (plaindata : list Z) (rnd : rand_state)
    : option (Z * list Z * auth_simple_local_data * rand_state) :=
  match resolve_user_key server local rnd with
  | None => None
  | Some (local', rnd') =>
    let datalength := Z.of_nat (length plaindata) in
    let outlength := datalength + 8 in
    let out0 := repeat 0 (Z.to_nat outlength) in
    let out1 := memcpy out0 0 plaindata in
    let out2 := memcpy out1 (Z.to_nat datalength) (firstn 4 (uid local')) in
    let h := hmac (firstn (Z.to_nat (outlength - 4)) out2) (user_key_bytes local') in
    let out3 := memcpy out2 (Z.to_nat (outlength - 4)) (firstn 4 h) in
    Some (outlength, out3, local', rnd')
  end.

(** The plugin-global blocks a process can hold: the one [init_data] makes,
    and what an initial pack leaves behind. *)
Inductive global_reachable {P : Primitives} : auth_simple_global_data -> Prop :=
  | reach_init rnd : global_reachable (fst (auth_simple_init_data rnd))
  | reach_pack g now server local data rnd a :
      global_reachable g ->
      auth_aes128_sha1_pack_auth_data now g server local data rnd = Some a ->
      global_reachable (au_global a).

(** ** The rest of the session handlers (tunnel.c) *)

Definition UV_ETIMEDOUT : Z := -110.

(** Modelled from the spec: the SOCKS5 parser (s5.c) is not part of the
    sources at hand; its outcomes are "ok" (need more), "auth_select",
    "exec_cmd" or a specific error.  A handler sees the outcome of its one
    [s5_parse] call: the code, the count of bytes left unparsed, and the two
    method bits [s5_auth_methods] reports. *)
Inductive s5_err := s5_ok | s5_auth_select | s5_exec_cmd | s5_bad (code : Z).

Record s5_outcome := mk_outcome {
  s5_result       : s5_err;
  s5_left         : Z;
  auth_none_bit   : bool;
  auth_passwd_bit : bool
}.

Definition set_rdstate (k : socket_ctx) (s : socket_state) : socket_ctx :=
  mk_socket s (wrstate k) (result k) (sa_family k) (sin_port k).

Definition set_wrstate (k : socket_ctx) (s : socket_state) : socket_ctx :=
  mk_socket (rdstate k) s (result k) (sa_family k) (sin_port k).

(** What [tunnel_release] leaves: the tunnel with one reference less, or
    nothing once the count reaches zero (the cipher context, the initial
    package and the tunnel itself are freed). *)
Inductive released {T : Type} := tunnel_kept (t : T) | tunnel_freed.

Section Session.
Context {cipher_t : Type}.
Variable tunnel_encrypt : cipher_t -> list Z -> ssr_error * list Z * cipher_t.
Variable can_access : tunnel_ctx cipher_t -> bool.
Variable uv_tcp_connect : tunnel_ctx cipher_t -> Z.
Variable can_auth_none : tunnel_ctx cipher_t -> bool.
Variable can_auth_passwd : tunnel_ctx cipher_t -> bool.

#[local] Arguments incoming {cipher_t}.
#[local] Arguments outgoing {cipher_t}.
#[local] Arguments state {cipher_t}.
#[local] Arguments ref_count {cipher_t}.
#[local] Arguments init_pkg {cipher_t}.
#[local] Arguments actions {cipher_t}.
#[local] Arguments socket_of {cipher_t}.
#[local] Arguments with_socket {cipher_t}.
#[local] Arguments with_state {cipher_t}.
#[local] Arguments with_result {cipher_t}.
#[local] Arguments add_refs {cipher_t}.
#[local] Arguments emit {cipher_t}.
#[local] Arguments tunnel_is_dead {cipher_t}.
#[local] Arguments tunnel_shutdown {cipher_t}.
#[local] Arguments socket_write {cipher_t}.
#[local] Arguments socket_close {cipher_t}.

Definition tunnel_release (t : tunnel_ctx cipher_t) : @released (tunnel_ctx cipher_t) :=
  let t' := add_refs t (-1) in
  if ref_count t' =? 0 then tunnel_freed else tunnel_kept t'.

Definition socket_close_done_cb (t : tunnel_ctx cipher_t) : @released (tunnel_ctx cipher_t) :=
  tunnel_release t.

Definition socket_read (t : tunnel_ctx cipher_t) (c : endpoint) : option (tunnel_ctx cipher_t) :=
  let k := socket_of t c in
  if socket_state_eqb (rdstate k) socket_stop then
    Some (emit (with_socket t c (set_rdstate k socket_busy))
               [io_read_start c; io_timer_reset c])
  else None.

(** [p] is the outcome of the [s5_parse] call on the bytes just read. *)
Definition do_handshake (t : tunnel_ctx cipher_t) (p : s5_outcome) : option (tunnel_ctx cipher_t) :=
  let i := incoming t in
  if socket_state_eqb (rdstate i) socket_done
     && socket_state_eqb (wrstate i) socket_stop
  then
    let t1 := with_socket t Incoming (set_rdstate i socket_stop) in
    if result i <? 0 then tunnel_shutdown t1
    else
      match s5_result p with
      | s5_ok =>
        match socket_read t1 Incoming with
        | None => None
        | Some t2 => Some (with_state t2 session_handshake)
        end
      | err =>
        if negb (s5_left p =? 0) then tunnel_shutdown t1
        else
          match err with
          | s5_auth_select =>
            if auth_none_bit p && can_auth_none t1 then
              match socket_write t1 Incoming [5; 0] with
              | None => None
              | Some t2 => Some (with_state t2 session_req_start)
              end
            else if auth_passwd_bit p && can_auth_passwd t1 then
              tunnel_shutdown t1
            else
              match socket_write t1 Incoming [5; 255] with
              | None => None
              | Some t2 => Some (with_state t2 session_kill)
              end
          | _ => tunnel_shutdown t1
          end
      end
  else None.

(** [UNREACHABLE()]. *)
Definition do_handshake_auth (t : tunnel_ctx cipher_t) : option (tunnel_ctx cipher_t) := None.

Definition do_req_start (t : tunnel_ctx cipher_t) : option (tunnel_ctx cipher_t) :=
  let i := incoming t in
  if socket_state_eqb (rdstate i) socket_stop
     && socket_state_eqb (wrstate i) socket_done
  then
    let t1 := with_socket t Incoming (set_wrstate i socket_stop) in
    if result i <? 0 then tunnel_shutdown t1
    else
      match socket_read t1 Incoming with
      | None => None
      | Some t2 => Some (with_state t2 session_req_parse)
      end
  else None.

Definition do_ssr_auth_sent (t : tunnel_ctx cipher_t) : option (tunnel_ctx cipher_t) :=
  let i := incoming t in
  let o := outgoing t in
  if socket_state_eqb (rdstate i) socket_stop
     && socket_state_eqb (wrstate i) socket_stop
     && socket_state_eqb (rdstate o) socket_stop
     && socket_state_eqb (wrstate o) socket_done
  then
    let t1 := with_socket t Outgoing (set_wrstate o socket_stop) in
    if result o <? 0 then tunnel_shutdown t1
    else
      match socket_write t1 Incoming ([5; 0; 0] ++ init_pkg t1) with
      | None => None
      | Some t2 => Some (with_state t2 session_proxy_start)
      end
  else None.

Definition do_proxy_start (t : tunnel_ctx cipher_t) : option (tunnel_ctx cipher_t) :=
  let i := incoming t in
  let o := outgoing t in
  if socket_state_eqb (rdstate i) socket_stop
     && socket_state_eqb (wrstate i) socket_done
     && socket_state_eqb (rdstate o) socket_stop
     && socket_state_eqb (wrstate o) socket_stop
  then
    let t1 := with_socket t Incoming (set_wrstate i socket_stop) in
    if result i <? 0 then tunnel_shutdown t1
    else Some (emit t1 [io_read_start Outgoing; io_read_start Incoming])
  else None.

(** [bufs c] is the read buffer [t.buf] of socket [c]. *)
Definition socket_cycle (bufs : endpoint -> list Z) (t : tunnel_ctx cipher_t)
    (a b : endpoint) : option (Z * tunnel_ctx cipher_t) :=
  if result (socket_of t a) <? 0 then Some (-1, t)
  else if result (socket_of t b) <? 0 then Some (-1, t)
  else
    let t1 :=
      if socket_state_eqb (wrstate (socket_of t a)) socket_done
      then with_socket t a (set_wrstate (socket_of t a) socket_stop)
      else t in
    if socket_state_eqb (wrstate (socket_of t1 a)) socket_stop then
      if socket_state_eqb (rdstate (socket_of t1 b)) socket_stop then
        match socket_read t1 b with
        | None => None
        | Some t2 => Some (0, t2)
        end
      else if socket_state_eqb (rdstate (socket_of t1 b)) socket_done then
        match socket_write t1 a
                (firstn (Z.to_nat (result (socket_of t1 b))) (bufs b)) with
        | None => None
        | Some t2 =>
          Some (0, with_socket t2 b (set_rdstate (socket_of t2 b) socket_stop))
        end
      else Some (0, t1)
    else Some (0, t1).

Definition do_proxy (bufs : endpoint -> list Z) (t : tunnel_ctx cipher_t) : option (tunnel_ctx cipher_t) :=
  let t0 := with_state t session_proxy in
  match socket_cycle bufs t0 Incoming Outgoing with
  | None => None
  | Some (r1, t1) =>
    if negb (r1 =? 0) then tunnel_shutdown t1
    else
      match socket_cycle bufs t1 Outgoing Incoming with
      | None => None
      | Some (r2, t2) =>
        if negb (r2 =? 0) then tunnel_shutdown t2 else Some t2
      end
  end.

(** The handlers [do_next] dispatches to beside the three above.
    [do_req_parse] reaches into the parser, the resolver and the cipher
    constructor; it is taken as given. *)
Definition session_handlers (p : s5_outcome) (bufs : endpoint -> list Z)
    (do_req_parse : tunnel_ctx cipher_t -> option (tunnel_ctx cipher_t)) (t : tunnel_ctx cipher_t) : option (tunnel_ctx cipher_t) :=
  match state t with
  | session_handshake => do_handshake t p
  | session_handshake_auth => do_handshake_auth t
  | session_req_start => do_req_start t
  | session_req_parse => do_req_parse t
  | session_req_udp_accoc => socket_read t Incoming
  | session_ssr_auth_sent => do_ssr_auth_sent t
  | session_proxy_start => do_proxy_start t
  | session_proxy => do_proxy bufs t
  | _ => None
  end.

Variable other_states : tunnel_ctx cipher_t -> option (tunnel_ctx cipher_t).

Definition socket_timer_expire_cb (t : tunnel_ctx cipher_t) (c : endpoint) : option (tunnel_ctx cipher_t) :=
  let t1 := with_result t c UV_ETIMEDOUT in
  if tunnel_is_dead t1 then Some t1 else tunnel_shutdown t1.

Definition socket_write_done_cb (t : tunnel_ctx cipher_t) (c : endpoint) (status : Z)
    : option (tunnel_ctx cipher_t) :=
  if tunnel_is_dead t then Some t
  else if status =? UV_ECANCELED then tunnel_shutdown t
  else
    let k := socket_of t c in
    if socket_state_eqb (wrstate k) socket_busy then
      do_next cipher_t tunnel_encrypt can_access uv_tcp_connect other_states
        (with_socket t c
           (mk_socket (rdstate k) socket_done status (sa_family k)
                      (sin_port k)))
    else None.

End Session.

(** Vocabulary for the session invariants: no socket state is [dead], all
    four are, and the two agree with the session state. *)
Definition no_dead_socket {cipher_t : Type} (t : tunnel_ctx cipher_t) : bool :=
  negb (socket_state_eqb (rdstate (incoming cipher_t t)) socket_dead)
  && negb (socket_state_eqb (wrstate (incoming cipher_t t)) socket_dead)
  && negb (socket_state_eqb (rdstate (outgoing cipher_t t)) socket_dead)
  && negb (socket_state_eqb (wrstate (outgoing cipher_t t)) socket_dead).

Definition all_dead {cipher_t : Type} (t : tunnel_ctx cipher_t) : bool :=
  socket_state_eqb (rdstate (incoming cipher_t t)) socket_dead
  && socket_state_eqb (wrstate (incoming cipher_t t)) socket_dead
  && socket_state_eqb (rdstate (outgoing cipher_t t)) socket_dead
  && socket_state_eqb (wrstate (outgoing cipher_t t)) socket_dead.

Definition coherent {cipher_t : Type} (t : tunnel_ctx cipher_t) : bool :=
  if tunnel_is_dead cipher_t t then all_dead t else no_dead_socket t.

Definition close_requests : list io_action :=
  [io_close_handle Incoming; io_close_timer Incoming;
   io_close_handle Outgoing; io_close_timer Outgoing].

Definition cancel_request {cipher_t : Type} (t : tunnel_ctx cipher_t)
    : list io_action :=
  match state cipher_t t with
  | session_req_lookup => [io_cancel_resolve]
  | _ => []
  end.

(** ** The initial package (tunnel.c)

    Modelled from the spec: the parser context [s5_ctx] (s5.h) is not part of
    the sources at hand.  The request it holds has an address type, a raw
    address ([daddr], NUL-terminated when it is a host name) and a port; the
    address types carry their RFC 1928 numbers. *)
Record s5_ctx := mk_s5 {
  s5_atyp  : Z;
  s5_daddr : list Z;
  s5_dport : Z
}.

Definition s5_atyp_ipv4 : Z := 1.
Definition s5_atyp_host : Z := 3.
Definition s5_atyp_ipv6 : Z := 4.

(** [(char)x] read as the signed value a length of type [char] holds. *)
Definition to_signed_char (x : Z) : Z :=
  let m := x mod 256 in if m <? 128 then m else m - 256.

(** The two bytes [*(unsigned short * )iter = htons(port)] leaves in memory. *)
Definition htons_bytes (port : Z) : list Z :=
  [to_char (Z.shiftr port 8); to_char port].

(** [initial_package_create].  [strlen] of a [daddr] without NUL runs off the
    array, any other address type trips [assert(0)], and a host name whose
    length does not fit a signed [char] makes the [memcpy] length negative:
    these are outside the domain ([None]). *)
Definition initial_package_create (parser : s5_ctx) : option (list Z) :=
  let port := htons_bytes (to_uint16 (s5_dport parser)) in
  if s5_atyp parser =? s5_atyp_ipv4 then
    Some ([to_char (s5_atyp parser)] ++ firstn 4 (s5_daddr parser) ++ port)
  else if s5_atyp parser =? s5_atyp_ipv6 then
    Some ([to_char (s5_atyp parser)] ++ firstn 16 (s5_daddr parser) ++ port)
  else if s5_atyp parser =? s5_atyp_host then
    match strchr (s5_daddr parser) 0 with
    | None => None
    | Some n =>
      let len := to_signed_char (Z.of_nat n) in
      if len <? 0 then None
      else Some ([to_char (s5_atyp parser)] ++ [to_char len]
                 ++ firstn (Z.to_nat len) (s5_daddr parser) ++ port)
    end
  else None.

(** The bytes of [daddr] that make up the destination. *)
Definition destination (parser : s5_ctx) : list Z :=
  if s5_atyp parser =? s5_atyp_ipv4 then firstn 4 (s5_daddr parser)
  else if s5_atyp parser =? s5_atyp_ipv6 then firstn 16 (s5_daddr parser)
  else match strchr (s5_daddr parser) 0 with
       | Some n => firstn n (s5_daddr parser)
       | None => s5_daddr parser
       end.

(** A request for the host name "a.b", port 443, for running the package
    construction on an input. *)
Definition test_parser : s5_ctx :=
  mk_s5 s5_atyp_host ([97; 46; 98] ++ repeat 0 254) 443.

(** The same request in a buffer that holds other bytes behind the NUL. *)
Definition test_parser_dirty : s5_ctx :=
  mk_s5 s5_atyp_host ([97; 46; 98; 0] ++ repeat 9 253) 443.

(** A tunnel over the unit cipher in a given session state with given
    sockets, and the functions a session is run with on concrete inputs:
    the cipher passes the bytes through, access is granted, the connect call
    succeeds, and only "no authentication" is accepted. *)
Definition test_socket (rd wr : socket_state) (res : Z) : socket_ctx :=
  mk_socket rd wr res AF_INET 0.

Definition test_session (s : session_state) (i o : socket_ctx) : tunnel_ctx unit :=
  mk_tunnel unit s i o 0 80 [1; 1; 2; 3; 4; 0; 80] tt [].

Definition test_encrypt (k : unit) (pkg : list Z) : ssr_error * list Z * unit :=
  (ssr_ok, pkg, k).

Definition test_write_done (p : s5_outcome) (bufs : endpoint -> list Z)
    (t : tunnel_ctx unit) (c : endpoint) (status : Z) :=
  socket_write_done_cb test_encrypt (fun _ => true) (fun _ => 0)
    (session_handlers (fun _ => true) (fun _ => false) p bufs (fun _ => None))
    t c status.

(** * Properties *)

(** ** Buffers *)

Lemma memcpy_length (dst : list Z) (off : nat) (src : list Z) :
  (off + length src <= length dst)%nat ->
  length (memcpy dst off src) = length dst.
Proof.
  intros H. unfold memcpy.
  rewrite !length_app, length_firstn, length_skipn. lia.
Qed.

Lemma memcpy_nth (dst : list Z) (off : nat) (src : list Z) (i : nat) :
  (i < off <= length dst)%nat ->
  nth i (memcpy dst off src) 0 = nth i dst 0.
Proof.
  intros H. unfold memcpy.
  rewrite app_nth1 by (rewrite length_firstn; lia).
  apply nth_firstn_lt || (rewrite nth_firstn; destruct (Nat.ltb_spec i off); [reflexivity | lia]).
Qed.

(** Overwriting the middle of three segments. *)
Lemma memcpy_segment (a b c src : list Z) (off : nat) :
  off = length a -> length b = length src ->
  memcpy (a ++ b ++ c) off src = a ++ src ++ c.
Proof.
  intros -> Hb. unfold memcpy.
  rewrite firstn_app, Nat.sub_diag, firstn_all. simpl. rewrite app_nil_r.
  f_equal. f_equal.
  rewrite skipn_app, skipn_all2 by lia. simpl.
  replace (length a + length src - length a)%nat with (length b) by lia.
  rewrite skipn_app, skipn_all, Nat.sub_diag. reflexivity.
Qed.

Lemma rand_bytes_length (len : Z) (r : rand_state) :
  length (fst (rand_bytes len r)) = Z.to_nat len.
Proof. unfold rand_bytes. simpl. now rewrite length_map, length_seq. Qed.

Lemma to_char_range (x : Z) : 0 <= to_char x < 256.
Proof. unfold to_char. apply Z.mod_pos_bound. lia. Qed.

Lemma le_u16_split (v : Z) :
  0 <= v < 65536 ->
  le_u16 (to_char v) (to_char (Z.shiftr v 8)) = v.
Proof.
  intros H. unfold le_u16, to_char.
  rewrite Z.shiftr_div_pow2, Z.shiftl_mul_pow2 by lia.
  change (2 ^ 8) with 256.
  rewrite (Z.mod_small (v / 256)) by (split; [apply Z.div_pos; lia | apply Z.div_lt_upper_bound; lia]).
  pose proof (Z.div_mod v 256). lia.
Qed.

(** ** Padding lengths *)

Lemma land_ones_range (x k : Z) : 0 <= k -> 0 <= Z.land x (Z.ones k) < 2 ^ k.
Proof.
  intros Hk. rewrite Z.land_ones by assumption.
  apply Z.mod_pos_bound. apply Z.pow_pos_nonneg; lia.
Qed.

Lemma xorshift128plus_range (r : rand_state) :
  0 <= fst (xorshift128plus r) < 2 ^ 64.
Proof. unfold xorshift128plus. simpl. apply Z.mod_pos_bound. lia. Qed.

Lemma get_rand_len_range (n full : Z) local server rnd :
  let r := fst (get_rand_len n full local server rnd) in
  0 <= r /\
  (n > 1300 -> r = 0) /\ (n > 1100 -> r <= 127) /\ (n > 900 -> r <= 255) /\
  (n > 400 -> r <= 511) /\ r <= 1023.
Proof.
  unfold get_rand_len.
  pose proof (xorshift128plus_range rnd) as Hx.
  destruct (xorshift128plus rnd) as [x rnd'] eqn:E. simpl in Hx.
  pose proof (land_ones_range x 7) as H1.
  pose proof (land_ones_range x 8) as H2.
  pose proof (land_ones_range x 9) as H3.
  pose proof (land_ones_range x 10) as H4.
  change (Z.ones 7) with 0x7F in H1. change (Z.ones 8) with 0xFF in H2.
  change (Z.ones 9) with 0x1FF in H3. change (Z.ones 10) with 0x3FF in H4.
  change (2 ^ 7) with 128 in H1. change (2 ^ 8) with 256 in H2.
  change (2 ^ 9) with 512 in H3. change (2 ^ 10) with 1024 in H4.
  destruct (n >? 1300) eqn:E1; simpl;
    [ lia | destruct (last_data_len local >? 1300); simpl;
            [ lia | destruct (full >=? si_buffer_size server); simpl;
                    [ lia | ] ] ].
  destruct (n >? 1100) eqn:E2; [simpl; lia|].
  destruct (n >? 900) eqn:E3; [simpl; lia|].
  destruct (n >? 400) eqn:E4; simpl; lia.
Qed.

Lemma memcpy_head (b src : list Z) :
  memcpy b 0 src = src ++ skipn (length src) b.
Proof. reflexivity. Qed.

Lemma memcpy_front (b c src : list Z) :
  length b = length src -> memcpy (b ++ c) 0 src = src ++ c.
Proof. intros H. now apply (memcpy_segment [] b c src 0). Qed.

Lemma firstn_app_exact (a b : list Z) (n : nat) :
  n = length a -> firstn n (a ++ b) = a.
Proof.
  intros ->. rewrite firstn_app, Nat.sub_diag, firstn_all. apply app_nil_r.
Qed.

Lemma skipn_app_exact (a b : list Z) (n : nat) :
  n = length a -> skipn n (a ++ b) = b.
Proof.
  intros ->. rewrite skipn_app, skipn_all, Nat.sub_diag. reflexivity.
Qed.

Lemma firstn_le_length (n : nat) (l : list Z) : (length (firstn n l) <= n)%nat.
Proof. rewrite length_firstn. lia. Qed.

Ltac memcpy_len :=
  rewrite memcpy_length;
  [ lia
  | cbn [length];
    repeat match goal with
    | |- context [length (firstn ?n ?l)] =>
        let H := fresh in
        pose proof (firstn_le_length n l) as H; revert H;
        generalize (length (firstn n l)); intros
    end; lia ].

Section PackData.
Context {P : Primitives}.

Lemma pack_data_out_size data full server local rnd :
  out_size (auth_aes128_sha1_pack_data data full server local rnd)
  = fst (get_rand_len (Z.of_nat (length data)) full local server rnd) + 1
    + Z.of_nat (length data) + 8.
Proof.
  unfold auth_aes128_sha1_pack_data.
  destruct (get_rand_len _ _ _ _ _) as [r rnd1].
  destruct (rand_bytes _ _) as [rd rnd2]. reflexivity.
Qed.

Lemma pack_data_length data full server local rnd :
  Z.of_nat (length (outdata (auth_aes128_sha1_pack_data data full server local rnd)))
  = out_size (auth_aes128_sha1_pack_data data full server local rnd).
Proof.
  unfold auth_aes128_sha1_pack_data.
  pose proof (get_rand_len_range (Z.of_nat (length data)) full local server rnd) as Hr.
  destruct (get_rand_len _ _ _ _ _) as [r rnd1]. simpl in Hr.
  pose proof (rand_bytes_length (r + 1) rnd1) as Hl.
  destruct (rand_bytes _ _) as [rd rnd2]. simpl in Hl. cbn [out_size outdata].
  remember (r + 1 + Z.of_nat (length data) + 8) as sz eqn:Esz.
  set (key := firstn _ (user_key_bytes local ++ _)). clearbody key.
  set (out0 := repeat 0 (Z.to_nat sz)).
  assert (L0 : length out0 = Z.to_nat sz) by apply repeat_length.
  clearbody out0.
  set (out1 := memcpy out0 _ data).
  assert (L1 : length out1 = Z.to_nat sz) by (subst out1; memcpy_len).
  clearbody out1.
  set (out2 := memcpy out1 0 _).
  assert (L2 : length out2 = Z.to_nat sz) by (subst out2; memcpy_len).
  clearbody out2.
  set (out3 := memcpy out2 4 rd).
  assert (L3 : length out3 = Z.to_nat sz) by (subst out3; memcpy_len).
  clearbody out3.
  set (out4 := memcpy out3 2 _).
  assert (L4 : length out4 = Z.to_nat sz) by (subst out4; memcpy_len).
  clearbody out4.
  set (out5 := if r + 1 <? 128 then _ else _).
  assert (L5 : length out5 = Z.to_nat sz)
    by (subst out5; destruct (r + 1 <? 128); memcpy_len).
  clearbody out5.
  rewrite memcpy_length; [ lia | ].
  pose proof (firstn_le_length 4 (hmac (firstn (Z.to_nat (sz - 4)) out5) key)).
  lia.
Qed.

Lemma pad_marker_length (rl : Z) :
  1 <= rl -> (1 <= length (pad_marker rl) <= Z.to_nat rl)%nat.
Proof.
  intros H. unfold pad_marker.
  destruct (Z.ltb_spec rl 128); cbn [length]; lia.
Qed.

Lemma tag_length {OK : PrimitivesOk P} (k : nat) (msg key : list Z) :
  (k <= 6)%nat -> length (firstn k (hmac msg key)) = k.
Proof.
  intros H. rewrite length_firstn. pose proof (hmac_length msg key). lia.
Qed.

Lemma pack_data_layout {OK : PrimitivesOk P} data full server local rnd :
  let g := get_rand_len (Z.of_nat (length data)) full local server rnd in
  outdata (auth_aes128_sha1_pack_data data full server local rnd)
  = chunk_layout (pack_key local) (fst g + 1)
                 (fst (rand_bytes (fst g + 1) (snd g))) data.
Proof.
  unfold auth_aes128_sha1_pack_data, chunk_layout. fold (pack_key local).
  pose proof (get_rand_len_range (Z.of_nat (length data)) full local server rnd) as Hr.
  destruct (get_rand_len _ _ _ _ _) as [r rnd1]. cbn [fst snd] in *.
  pose proof (rand_bytes_length (r + 1) rnd1) as Hl.
  destruct (rand_bytes _ _) as [rd rnd2]. cbn [fst snd] in *. cbn [outdata].
  match goal with
  | |- context [if r + 1 <? 128 then memcpy ?x 4 ?a else memcpy ?x 4 ?b] =>
      replace (if r + 1 <? 128 then memcpy x 4 a else memcpy x 4 b)
        with (memcpy x 4 (pad_marker (r + 1)))
        by (unfold pad_marker; now destruct (r + 1 <? 128))
  end.
  pose proof (pad_marker_length (r + 1) ltac:(lia)) as Hm.
  remember (pad_marker (r + 1)) as mk eqn:Emk. clear Emk.
  remember (r + 1 + Z.of_nat (length data) + 8) as sz eqn:Esz.
  set (key := pack_key local). clearbody key.
  set (hdr := [to_char sz; to_char (Z.shiftr sz 8)]).
  assert (Lh : length hdr = 2%nat) by reflexivity. clearbody hdr.
  replace (Z.to_nat sz) with (2 + (2 + (length rd + (length data + 4))))%nat by lia.
  rewrite !repeat_app.
  set (z2 := repeat 0 2). set (zr := repeat 0 (length rd)).
  set (zn := repeat 0 (length data)). set (z4 := repeat 0 4).
  assert (L2 : length z2 = 2%nat) by apply repeat_length.
  assert (Lr : length zr = length rd) by apply repeat_length.
  assert (Ln : length zn = length data) by apply repeat_length.
  assert (L4 : length z4 = 4%nat) by apply repeat_length.
  clearbody z2 zr zn z4.
  (* data *)
  replace (z2 ++ z2 ++ zr ++ zn ++ z4) with ((z2 ++ z2 ++ zr) ++ zn ++ z4)
    by now rewrite <- !app_assoc.
  rewrite memcpy_segment by (rewrite ?length_app; lia).
  rewrite <- !app_assoc.
  (* size *)
  rewrite memcpy_front by lia.
  (* random bytes *)
  replace (hdr ++ z2 ++ zr ++ data ++ z4) with ((hdr ++ z2) ++ zr ++ data ++ z4)
    by now rewrite <- !app_assoc.
  rewrite memcpy_segment by (rewrite ?length_app; lia).
  rewrite <- !app_assoc.
  (* first tag *)
  rewrite (firstn_app_exact hdr) by lia.
  rewrite (memcpy_segment hdr z2) by (rewrite ?tag_length; lia).
  set (tag2 := firstn 2 (hmac hdr key)).
  assert (Lt : length tag2 = 2%nat) by (apply tag_length; lia). clearbody tag2.
  (* marker *)
  set (pad := skipn (length mk) rd).
  assert (Lp : (length mk + length pad = length rd)%nat)
    by (subst pad; rewrite length_skipn; lia).
  assert (E5 : memcpy (hdr ++ tag2 ++ rd ++ data ++ z4) 4 mk
               = (hdr ++ tag2 ++ (mk ++ pad) ++ data) ++ z4 ++ []).
  { rewrite <- (firstn_skipn (length mk) rd) at 1. fold pad.
    replace (hdr ++ tag2 ++ (firstn (length mk) rd ++ pad) ++ data ++ z4)
      with ((hdr ++ tag2) ++ firstn (length mk) rd ++ (pad ++ data ++ z4))
      by now rewrite <- !app_assoc.
    rewrite memcpy_segment by (rewrite ?length_app, ?length_firstn; lia).
    now rewrite <- !app_assoc, app_nil_r. }
  rewrite !E5. clearbody pad.
  (* final tag *)
  replace (Z.to_nat (sz - 4))
    with (length (hdr ++ tag2 ++ (mk ++ pad) ++ data))
    by (rewrite !length_app; lia).
  rewrite firstn_app_exact by reflexivity.
  rewrite memcpy_segment by (rewrite ?tag_length; cbn [length]; lia).
  now rewrite <- !app_assoc, app_nil_r.
Qed.

End PackData.

Lemma bytes_eqb_refl (a : list Z) : bytes_eqb a a = true.
Proof. unfold bytes_eqb. destruct (list_eq_dec Z.eq_dec a a); congruence. Qed.

Lemma lor_shiftl_low (h l : Z) :
  0 <= h -> 0 <= l < 256 -> Z.lor (Z.shiftl h 8) l = Z.shiftl h 8 + l.
Proof.
  intros Hh Hl.
  assert (D : Z.land (Z.shiftl h 8) l = 0).
  { apply Z.bits_inj'. intros n Hn.
    rewrite Z.land_spec, Z.bits_0.
    destruct (Z.ltb_spec n 8).
    - rewrite Z.shiftl_spec_low by lia. reflexivity.
    - destruct (Z.eq_dec l 0) as [->|Hz].
      + rewrite Z.bits_0. apply andb_false_r.
      + rewrite (Z.bits_above_log2 l n); [apply andb_false_r | lia |].
        apply Z.log2_lt_pow2; [lia|]. change (2 ^ 8) with 256 in *.
        assert (2 ^ 8 <= 2 ^ n) by (apply Z.pow_le_mono_r; lia).
        change (2 ^ 8) with 256 in *. lia. }
  rewrite <- Z.lxor_lor by assumption.
  symmetry. apply Z.add_nocarry_lxor. assumption.
Qed.

Lemma le_u16_lor (v : Z) :
  0 <= v < 65536 ->
  Z.lor (Z.shiftl (to_char (Z.shiftr v 8)) 8) (to_char v) + 4 = v + 4.
Proof.
  intros H. rewrite lor_shiftl_low.
  - pose proof (le_u16_split v H) as E. unfold le_u16 in E. lia.
  - apply to_char_range.
  - apply to_char_range.
Qed.

Section Decode.
Context {P : Primitives} {OK : PrimitivesOk P}.

Lemma chunk_layout_length key rl rd data :
  1 <= rl -> length rd = Z.to_nat rl ->
  Z.of_nat (length (chunk_layout key rl rd data)) = rl + Z.of_nat (length data) + 8.
Proof.
  intros H1 H2. unfold chunk_layout.
  pose proof (pad_marker_length rl H1).
  rewrite !length_app, !tag_length, length_skipn by lia. cbn [length]. lia.
Qed.

Lemma decode_chunk ukey id rl rd data rest f out :
  1 <= rl -> length rd = Z.to_nat rl ->
  rl + Z.of_nat (length data) + 8 < 8192 ->
  post_decrypt_loop (S f) ukey
    (chunk_layout (ukey ++ memintcopy_lt id) rl rd data ++ rest) id out
  = post_decrypt_loop f ukey rest (to_uint32 (id + 1)) (out ++ data).
Proof.
  intros H1 H2 H3.
  pose proof (chunk_layout_length (ukey ++ memintcopy_lt id) rl rd data H1 H2) as HL.
  unfold chunk_layout in *.
  set (key := ukey ++ memintcopy_lt id) in *.
  remember (rl + Z.of_nat (length data) + 8) as sz eqn:Esz.
  pose proof (le_u16_split sz ltac:(lia)) as Hsz. unfold le_u16 in Hsz.
  set (b0 := to_char sz) in *. set (b1 := to_char (Z.shiftr sz 8)) in *.
  pose proof (tag_length 2 [b0; b1] key ltac:(lia)) as Lt.
  destruct (firstn 2 (hmac [b0; b1] key)) as [|t0 [|t1 [|]]] eqn:Et; try discriminate.
  clear Lt.
  pose proof (pad_marker_length rl H1) as Lm.
  set (pad := pad_marker rl ++ skipn (length (pad_marker rl)) rd) in *.
  assert (Lp : length pad = Z.to_nat rl)
    by (subst pad; rewrite length_app, length_skipn; lia).
  set (body := [b0; b1] ++ [t0; t1] ++ pad ++ data) in *.
  assert (Lb : length body = Z.to_nat (sz - 4))
    by (subst body; rewrite !length_app; cbn [length]; lia).
  pose proof (tag_length 4 body key ltac:(lia)) as L4.
  set (tag4 := firstn 4 (hmac body key)) in *.
  cbn [post_decrypt_loop].
  rewrite <- app_assoc.
  destruct (Z.gtb_spec (Z.of_nat (length (body ++ tag4 ++ rest))) 4);
    [ | rewrite !length_app in *; lia ].
  replace (firstn 2 (body ++ tag4 ++ rest)) with [b0; b1] by reflexivity.
  replace (firstn 2 (skipn 2 (body ++ tag4 ++ rest))) with [t0; t1] by reflexivity.
  fold key. rewrite Et, bytes_eqb_refl. cbn [negb].
  replace (nth 1 (body ++ tag4 ++ rest) 0) with b1 by reflexivity.
  replace (nth 0 (body ++ tag4 ++ rest) 0) with b0 by reflexivity.
  rewrite Hsz.
  destruct (Z.geb_spec sz 8192); [lia|].
  destruct (Z.ltb_spec sz 8); [lia|].
  destruct (Z.gtb_spec sz (Z.of_nat (length (body ++ tag4 ++ rest))));
    [ rewrite !length_app in *; lia | ].
  cbn [orb].
  rewrite (firstn_app_exact body) by lia.
  rewrite <- Lb, skipn_app, skipn_all, Nat.sub_diag. cbn [app skipn].
  rewrite (firstn_app_exact tag4) by lia.
  fold tag4. rewrite bytes_eqb_refl. cbn [negb].
  (* the payload *)
  assert (Hpos : (let pos := nth 4 (body ++ tag4 ++ rest) 0 in
                  if pos <? 255 then pos + 4
                  else Z.lor (Z.shiftl (nth 6 (body ++ tag4 ++ rest) 0) 8)
                             (nth 5 (body ++ tag4 ++ rest) 0) + 4) = rl + 4).
  { subst body pad. unfold pad_marker in *.
    destruct (Z.ltb_spec rl 128) as [Hs|Hs].
    - cbn. unfold to_char. rewrite Z.mod_small by lia.
      destruct (Z.ltb_spec rl 255); lia.
    - cbn. apply le_u16_lor. lia. }
  cbn zeta in Hpos. rewrite Hpos.
  replace (skipn (Z.to_nat sz) (body ++ tag4 ++ rest)) with rest.
  2:{ rewrite app_assoc, skipn_app_exact; [reflexivity | rewrite length_app; lia]. }
  replace (skipn (Z.to_nat (rl + 4)) (body ++ tag4 ++ rest))
    with (data ++ tag4 ++ rest).
  2:{ subst body.
      replace (([b0; b1] ++ [t0; t1] ++ pad ++ data) ++ tag4 ++ rest)
        with (([b0; b1] ++ [t0; t1] ++ pad) ++ data ++ tag4 ++ rest)
        by now rewrite <- !app_assoc.
      rewrite skipn_app_exact; [reflexivity | rewrite !length_app; cbn [length]; lia]. }
  rewrite firstn_app_exact by lia. reflexivity.
Qed.

Lemma decode_partial ukey id rl rd data buf tail fuel out :
  1 <= rl -> length rd = Z.to_nat rl ->
  rl + Z.of_nat (length data) + 8 < 8192 ->
  buf ++ tail = chunk_layout (ukey ++ memintcopy_lt id) rl rd data ->
  tail <> [] ->
  post_decrypt_loop fuel ukey buf id out = (false, buf, id, out).
Proof.
  intros H1 H2 H3 E Ht.
  destruct fuel as [|f]; [reflexivity|].
  cbn [post_decrypt_loop].
  destruct (Z.gtb_spec (Z.of_nat (length buf)) 4) as [Hlen|]; [|reflexivity].
  pose proof (chunk_layout_length (ukey ++ memintcopy_lt id) rl rd data H1 H2) as HL.
  rewrite <- E in HL.
  assert (Htl : (0 < length tail)%nat) by (destruct tail; [congruence | cbn; lia]).
  rewrite length_app in HL.
  unfold chunk_layout in E.
  set (key := ukey ++ memintcopy_lt id) in *.
  remember (rl + Z.of_nat (length data) + 8) as sz eqn:Esz.
  pose proof (le_u16_split sz ltac:(lia)) as Hsz. unfold le_u16 in Hsz.
  set (b0 := to_char sz) in *. set (b1 := to_char (Z.shiftr sz 8)) in *.
  clearbody b0 b1.
  pose proof (tag_length 2 [b0; b1] key ltac:(lia)) as Lt.
  destruct (firstn 2 (hmac [b0; b1] key)) as [|t0 [|t1 [|]]] eqn:Et; try discriminate.
  destruct buf as [|x0 [|x1 [|x2 [|x3 [|x4 buf']]]]]; cbn [length] in Hlen; try lia.
  cbn [app] in E. injection E as -> -> -> -> E.
  set (buf := b0 :: b1 :: t0 :: t1 :: x4 :: buf') in *.
  replace (firstn 2 buf) with [b0; b1] by reflexivity.
  replace (firstn 2 (skipn 2 buf)) with [t0; t1] by reflexivity.
  fold key. rewrite Et, bytes_eqb_refl. cbn [negb].
  replace (nth 1 buf 0) with b1 by reflexivity.
  replace (nth 0 buf 0) with b0 by reflexivity.
  rewrite Hsz.
  destruct (Z.geb_spec sz 8192); [lia|].
  destruct (Z.ltb_spec sz 8); [lia|]. cbn [orb].
  destruct (Z.gtb_spec sz (Z.of_nat (length buf))); [reflexivity | lia].
Qed.

End Decode.

Section Stream.
Context {P : Primitives} {OK : PrimitivesOk P}.

Lemma loop_stream ukey fs :
  Forall frame_ok fs ->
  forall id buf rest out fuel,
  buf ++ rest = frame_stream ukey id fs ->
  (length buf <= fuel)%nat ->
  exists got left id' fs',
    post_decrypt_loop fuel ukey buf id out = (false, left, id', out ++ got)
    /\ left ++ rest = frame_stream ukey id' fs'
    /\ Forall frame_ok fs'
    /\ payloads fs = got ++ payloads fs'
    /\ Z.of_nat (length left) < 8192
    /\ (rest = [] -> left = [] /\ fs' = []).
Proof.
  induction 1 as [|[[rl rd] d] fs1 Hok Hfs IH]; intros id buf rest out fuel E Hfuel.
  - cbn in E. apply app_eq_nil in E as [-> ->].
    exists [], [], id, []. rewrite app_nil_r.
    repeat split; try constructor; cbn; try lia.
    destruct fuel; reflexivity.
  - cbn [frame_stream] in E. destruct Hok as (H1 & H2 & H3).
    set (F := chunk_layout (ukey ++ memintcopy_lt id) rl rd d) in *.
    pose proof (chunk_layout_length (ukey ++ memintcopy_lt id) rl rd d H1 H2) as HL.
    fold F in HL.
    apply app_eq_app in E as [l [[E1 E2] | [E1 E2]]].
    + (* the buffer holds the whole frame *)
      subst buf. rewrite length_app in Hfuel.
      destruct fuel as [|f]; [lia|].
      unfold F. rewrite decode_chunk by assumption.
      destruct (IH (to_uint32 (id + 1)) l rest (out ++ d) f (eq_sym E2) ltac:(lia))
        as (got & left & id' & fs' & Hrun & Hleft & Hok' & Hpay & Hlen & Hend).
      exists (d ++ got), left, id', fs'. rewrite Hrun, <- app_assoc.
      refine (conj eq_refl (conj _ (conj _ (conj _ (conj _ _))))); try assumption.
      unfold payloads in *. cbn. rewrite Hpay, <- app_assoc. reflexivity.
    + (* the buffer stops inside the frame *)
      destruct l as [|x l].
      * rewrite app_nil_r in E1. subst buf. cbn [app] in E2. subst rest.
        destruct fuel as [|f]; [lia|].
        replace F with (F ++ []) by apply app_nil_r.
        unfold F. rewrite decode_chunk by assumption.
        destruct (IH (to_uint32 (id + 1)) [] (frame_stream ukey (to_uint32 (id + 1)) fs1)
                     (out ++ d) f eq_refl ltac:(cbn; lia))
          as (got & left & id' & fs' & Hrun & Hleft & Hok' & Hpay & Hlen & Hend).
        exists (d ++ got), left, id', fs'. rewrite Hrun, <- app_assoc.
        refine (conj eq_refl (conj _ (conj _ (conj _ (conj _ _))))); try assumption.
        unfold payloads in *. cbn. rewrite Hpay, <- app_assoc. reflexivity.
      * exists [], buf, id, ((rl, rd, d) :: fs1).
        rewrite app_nil_r.
        rewrite (decode_partial ukey id rl rd d buf (x :: l)); try assumption;
          [ | now symmetry | discriminate ].
        assert (Hb : (length buf < length F)%nat)
          by (rewrite E1, length_app; cbn; lia).
        refine (conj eq_refl (conj _ (conj _ (conj eq_refl (conj _ _))))).
        -- cbn [frame_stream]. fold F. rewrite E1, E2, <- app_assoc. reflexivity.
        -- constructor; [now repeat split | assumption].
        -- lia.
        -- subst rest. discriminate.
Qed.

End Stream.

Section Receiver.
Context {P : Primitives} {OK : PrimitivesOk P}.

Lemma frame_stream_nil ukey id fs :
  Forall frame_ok fs -> frame_stream ukey id fs = [] -> fs = [].
Proof.
  intros Hok E. destruct fs as [|[[rl rd] d] fs]; [reflexivity|].
  inversion Hok as [|? ? Hf _]; subst. destruct Hf as (H1 & H2 & H3).
  cbn [frame_stream] in E. apply app_eq_nil in E as [E _].
  pose proof (chunk_layout_length (ukey ++ memintcopy_lt id) rl rd d H1 H2) as HL.
  rewrite E in HL. cbn in HL. lia.
Qed.

Lemma post_decrypt_step local piece rest fs :
  recv_buffer local ++ piece ++ rest
    = frame_stream (user_key_bytes local) (recv_id local) fs ->
  Forall frame_ok fs ->
  Z.of_nat (length (recv_buffer local)) < 8192 ->
  Z.of_nat (length piece) <= 8192 ->
  exists got local' fs',
    auth_aes128_sha1_client_post_decrypt local piece
      = (Z.of_nat (length got), got, local')
    /\ recv_buffer local' ++ rest
       = frame_stream (user_key_bytes local') (recv_id local') fs'
    /\ Forall frame_ok fs'
    /\ Z.of_nat (length (recv_buffer local')) < 8192
    /\ payloads fs = got ++ payloads fs'
    /\ (rest = [] -> recv_buffer local' = [] /\ fs' = []).
Proof.
  intros E Hok Hb Hp.
  unfold auth_aes128_sha1_client_post_decrypt.
  destruct (Z.gtb_spec (Z.of_nat (length (recv_buffer local))
                        + Z.of_nat (length piece)) 16384); [lia|].
  rewrite app_assoc in E.
  destruct (loop_stream (user_key_bytes local) fs Hok (recv_id local)
              (recv_buffer local ++ piece) rest []
              (length (recv_buffer local ++ piece)) E (Nat.le_refl _))
    as (got & left & id' & fs' & Hrun & Hleft & Hok' & Hpay & Hlen & Hend).
  rewrite Hrun. cbn [app].
  exists got, (set_recv local left id'), fs'.
  refine (conj eq_refl (conj _ (conj _ (conj _ (conj _ _))))); try assumption.
Qed.

Lemma post_decrypt_pieces_stream pieces :
  forall local fs,
  recv_buffer local ++ concat pieces
    = frame_stream (user_key_bytes local) (recv_id local) fs ->
  Forall frame_ok fs ->
  Z.of_nat (length (recv_buffer local)) < 8192 ->
  (concat pieces = [] -> recv_buffer local = []) ->
  Forall (fun p => Z.of_nat (length p) <= 8192) pieces ->
  exists local',
    post_decrypt_pieces local pieces = Some (payloads fs, local')
    /\ recv_buffer local' = [].
Proof.
  induction pieces as [|p ps IH]; intros local fs E Hok Hb Hnil Hps.
  - cbn in *. rewrite (Hnil eq_refl) in *. cbn in E.
    rewrite (frame_stream_nil _ _ _ Hok (eq_sym E)).
    exists local. split; [reflexivity | now apply Hnil].
  - cbn [concat] in E. inversion Hps as [|? ? Hp Hps']; subst.
    destruct (post_decrypt_step local p (concat ps) fs E Hok Hb Hp)
      as (got & local' & fs' & Hrun & E' & Hok' & Hb' & Hpay & Hend).
    cbn [post_decrypt_pieces]. rewrite Hrun.
    destruct (Z.ltb_spec (Z.of_nat (length got)) 0); [lia|].
    destruct (IH local' fs' E' Hok' Hb' (fun H => proj1 (Hend H)) Hps')
      as (local'' & Hrest & Hempty).
    rewrite Hrest. exists local''. rewrite Hpay. split; [reflexivity | assumption].
Qed.

End Receiver.

Section Sender.
Context {P : Primitives} {OK : PrimitivesOk P}.

Lemma memintcopy_lt_length (v : Z) : length (memintcopy_lt v) = 4%nat.
Proof. reflexivity. Qed.

Lemma pack_key_full local :
  user_key_len local + 4 < 256 ->
  pack_key local = user_key_bytes local ++ memintcopy_lt (pack_id local).
Proof.
  intros Hl. unfold pack_key. unfold user_key_len in *.
  unfold to_uint8. rewrite Z.mod_small by (change (2 ^ 8) with 256; lia).
  apply firstn_all2. rewrite length_app, memintcopy_lt_length. lia.
Qed.

Lemma pack_data_local data full server local rnd :
  pk_local (auth_aes128_sha1_pack_data data full server local rnd)
  = set_pack_id local (to_uint32 (pack_id local + 1)).
Proof.
  unfold auth_aes128_sha1_pack_data.
  destruct (get_rand_len _ _ _ _ _) as [r rnd1].
  destruct (rand_bytes _ _) as [rd rnd2]. reflexivity.
Qed.

Lemma pack_data_frame data full server local rnd uk :
  user_key_bytes local = uk -> Z.of_nat (length uk) + 4 < 256 ->
  Z.of_nat (length data) <= 2000 ->
  exists rl rd,
    outdata (auth_aes128_sha1_pack_data data full server local rnd)
      = chunk_layout (uk ++ memintcopy_lt (pack_id local)) rl rd data
    /\ frame_ok (rl, rd, data).
Proof.
  intros Hk Hl Hn. subst uk.
  pose proof (pack_data_layout data full server local rnd) as E. cbn zeta in E.
  rewrite (pack_key_full local Hl) in E.
  pose proof (get_rand_len_range (Z.of_nat (length data)) full local server rnd) as Hr.
  cbn zeta in Hr.
  eexists _, _. split; [exact E|].
  unfold frame_ok. rewrite rand_bytes_length. lia.
Qed.

Lemma pack_loop_stream uk dl server fuel :
  forall data local rnd,
  user_key_bytes local = uk -> Z.of_nat (length uk) + 4 < 256 ->
  (length data <= fuel)%nat ->
  exists chunks data' local' rnd' fs,
    pack_loop fuel data dl server local rnd = (chunks, data', local', rnd')
    /\ (forall tail, concat chunks ++ frame_stream uk (pack_id local') tail
                     = frame_stream uk (pack_id local) (fs ++ tail))
    /\ Forall frame_ok fs
    /\ data = payloads fs ++ data'
    /\ Z.of_nat (length data') <= 2000
    /\ user_key_bytes local' = uk.
Proof.
  induction fuel as [|fuel IH]; intros data local rnd Hk Hl Hf.
  - destruct data; [|cbn in Hf; lia].
    exists [], [], local, rnd, []. cbn. repeat split; try assumption; try constructor; lia.
  - cbn [pack_loop]. unfold auth_simple_pack_unit_size.
    destruct (Z.gtb_spec (Z.of_nat (length data)) 2000) as [Hgt|Hle].
    + set (r := auth_aes128_sha1_pack_data (firstn (Z.to_nat 2000) data) dl server local rnd).
      assert (Hn : length (firstn (Z.to_nat 2000) data) = 2000%nat)
        by (rewrite length_firstn; lia).
      destruct (pack_data_frame (firstn (Z.to_nat 2000) data) dl server local rnd uk Hk Hl
                  ltac:(lia)) as (rl & rd & Ec & Hok). fold r in Ec.
      pose proof (pack_data_local (firstn (Z.to_nat 2000) data) dl server local rnd) as El.
      fold r in El.
      destruct (IH (skipn (Z.to_nat 2000) data) (pk_local r) (pk_rand r))
        as (chunks & data' & local' & rnd' & fs & Erun & Estream & Hfs & Hdata & Hlen & Hk').
      { rewrite El. exact Hk. }
      { assumption. }
      { rewrite length_skipn. lia. }
      rewrite Erun.
      exists (outdata r :: chunks), data', local', rnd', ((rl, rd, firstn (Z.to_nat 2000) data) :: fs).
      refine (conj eq_refl (conj _ (conj _ (conj _ (conj _ _))))); try assumption.
      * intros tail. cbn [concat app frame_stream]. rewrite <- app_assoc, Estream, Ec, El.
        reflexivity.
      * constructor; assumption.
      * unfold payloads in *. cbn [map snd concat]. rewrite <- app_assoc, <- Hdata.
        symmetry. apply firstn_skipn.
    + exists [], data, local, rnd, [].
      refine (conj eq_refl (conj _ (conj _ (conj _ (conj _ _))))); try assumption;
        try constructor; try reflexivity.
Qed.

End Sender.

Section RoundTrip.
Context {P : Primitives} {OK : PrimitivesOk P}.

Lemma payloads_app (a b : list frame_spec) :
  payloads (a ++ b) = payloads a ++ payloads b.
Proof. unfold payloads. now rewrite map_app, concat_app. Qed.

Lemma pack_loop_sent_header fuel :
  forall data dl server local rnd chunks data' local' rnd',
  pack_loop fuel data dl server local rnd = (chunks, data', local', rnd') ->
  has_sent_header local' = has_sent_header local
  /\ user_key local' = user_key local.
Proof.
  induction fuel as [|fuel IH]; intros data dl server local rnd chunks data' local' rnd' E.
  - cbn in E. now inversion E.
  - cbn [pack_loop] in E.
    destruct (Z.of_nat (length data) >? auth_simple_pack_unit_size).
    + destruct (pack_loop fuel _ _ _ _ _) as [[[c d] l] r] eqn:E'.
      inversion E; subst. apply IH in E' as [E1 E2].
      rewrite E1, E2, pack_data_local. split; reflexivity.
    + now inversion E.
Qed.

Lemma pre_encrypt_stream now global server local s rnd uk :
  has_sent_header local = true ->
  user_key_bytes local = uk -> Z.of_nat (length uk) + 4 < 256 ->
  exists r fs,
    auth_aes128_sha1_client_pre_encrypt now global server local s rnd = Some r
    /\ (forall tail, pre_output r ++ frame_stream uk (pack_id (pre_local r)) tail
                     = frame_stream uk (pack_id local) (fs ++ tail))
    /\ Forall frame_ok fs
    /\ payloads fs = s
    /\ has_sent_header (pre_local r) = true
    /\ user_key_bytes (pre_local r) = uk.
Proof.
  intros Hh Hk Hl. unfold auth_aes128_sha1_client_pre_encrypt.
  rewrite Hh. rewrite andb_false_r.
  destruct (pack_loop_stream uk (Z.of_nat (length s)) server (length s) s local rnd
              Hk Hl (Nat.le_refl _))
    as (chunks & data' & local' & rnd' & fs & Erun & Estream & Hfs & Hdata & Hlen & Hk').
  rewrite Erun.
  pose proof (pack_loop_sent_header _ _ _ _ _ _ _ _ _ _ Erun) as [Hh' _].
  destruct (Z.gtb_spec (Z.of_nat (length data')) 0) as [Hpos|Hzero].
  - set (r := auth_aes128_sha1_pack_data data' (Z.of_nat (length s)) server local' rnd').
    destruct (pack_data_frame data' (Z.of_nat (length s)) server local' rnd' uk Hk' Hl Hlen)
      as (rl & rd & Ec & Hok). fold r in Ec.
    pose proof (pack_data_local data' (Z.of_nat (length s)) server local' rnd') as El.
    fold r in El.
    eexists _, (fs ++ [(rl, rd, data')]).
    refine (conj eq_refl (conj _ (conj _ (conj _ (conj _ _))))).
    + intros tail. unfold pre_output. cbn [pre_chunks pre_local app].
      rewrite concat_app. cbn [concat]. rewrite app_nil_r, <- !app_assoc.
      rewrite <- Estream. f_equal. cbn [app frame_stream].
      rewrite Ec, El. reflexivity.
    + apply Forall_app. split; [assumption | constructor; [assumption | constructor]].
    + rewrite payloads_app. unfold payloads at 2. cbn. rewrite app_nil_r.
      now symmetry.
    + cbn. rewrite El. cbn. rewrite Hh'. assumption.
    + cbn. rewrite El. exact Hk'.
  - destruct data'; [|cbn in Hzero; lia].
    eexists _, fs.
    refine (conj eq_refl (conj _ (conj _ (conj _ (conj _ _))))); try assumption.
    + intros tail. unfold pre_output. cbn [pre_chunks pre_local app].
      rewrite app_nil_r. apply Estream.
    + rewrite app_nil_r in Hdata. now symmetry.
    + cbn. rewrite Hh'. assumption.
Qed.

Lemma pre_encrypt_pieces_stream now server uk pieces :
  forall global local rnd,
  has_sent_header local = true ->
  user_key_bytes local = uk -> Z.of_nat (length uk) + 4 < 256 ->
  exists out g l rn fs,
    pre_encrypt_pieces now global server local pieces rnd = Some (out, g, l, rn)
    /\ out = frame_stream uk (pack_id local) fs
    /\ Forall frame_ok fs
    /\ payloads fs = concat pieces.
Proof.
  induction pieces as [|p ps IH]; intros global local rnd Hh Hk Hl.
  - exists [], global, local, rnd, []. repeat split; constructor.
  - destruct (pre_encrypt_stream now global server local p rnd uk Hh Hk Hl)
      as (r & fs & Erun & Estream & Hfs & Hpay & Hh' & Hk').
    destruct (IH (pre_global r) (pre_local r) (pre_rand r) Hh' Hk' Hl)
      as (out & g & l & rn & fs' & Erun' & Eout & Hfs' & Hpay').
    cbn [pre_encrypt_pieces]. rewrite Erun, Erun'.
    exists (pre_output r ++ out), g, l, rn, (fs ++ fs').
    refine (conj eq_refl (conj _ (conj _ _))).
    + rewrite Eout. apply Estream.
    + apply Forall_app. now split.
    + rewrite payloads_app, Hpay, Hpay'. reflexivity.
Qed.

End RoundTrip.

Lemma memcpy_firstn (dst : list Z) (off : nat) (src : list Z) (k : nat) :
  (k <= off <= length dst)%nat ->
  firstn k (memcpy dst off src) = firstn k dst.
Proof.
  intros H. unfold memcpy.
  rewrite firstn_app, length_firstn.
  replace (k - Nat.min off (length dst))%nat with 0%nat by lia.
  cbn [firstn]. rewrite app_nil_r, firstn_firstn. f_equal. lia.
Qed.

Lemma memcpy_skipn (dst : list Z) (off : nat) (src : list Z) (k : nat) :
  (off + length src <= k)%nat -> (off <= length dst)%nat ->
  skipn k (memcpy dst off src) = skipn k dst.
Proof.
  intros H Hd. unfold memcpy.
  rewrite skipn_app, length_firstn.
  rewrite (skipn_all2 (firstn off dst)) by (rewrite length_firstn; lia).
  cbn [app]. rewrite skipn_app.
  rewrite (skipn_all2 src) by lia. cbn [app].
  rewrite skipn_skipn. f_equal. lia.
Qed.

Lemma memcpy_at (dst : list Z) (off : nat) (src : list Z) :
  (off <= length dst)%nat ->
  skipn off (memcpy dst off src) = src ++ skipn (off + length src) dst.
Proof.
  intros H. unfold memcpy.
  rewrite skipn_app, length_firstn.
  rewrite (skipn_all2 (firstn off dst)) by (rewrite length_firstn; lia).
  replace (off - Nat.min off (length dst))%nat with 0%nat by lia.
  reflexivity.
Qed.

Section DataChunkBounds.
Context {P : Primitives}.

Lemma pack_data_header data full server local rnd :
  let r := auth_aes128_sha1_pack_data data full server local rnd in
  nth 0 (outdata r) 0 = to_char (out_size r)
  /\ nth 1 (outdata r) 0 = to_char (Z.shiftr (out_size r) 8).
Proof.
  unfold auth_aes128_sha1_pack_data.
  pose proof (get_rand_len_range (Z.of_nat (length data)) full local server rnd) as Hr.
  destruct (get_rand_len _ _ _ _ _) as [r rnd1]. simpl in Hr.
  pose proof (rand_bytes_length (r + 1) rnd1) as Hl.
  destruct (rand_bytes _ _) as [rd rnd2]. simpl in Hl. cbn [out_size outdata].
  remember (r + 1 + Z.of_nat (length data) + 8) as sz eqn:Esz.
  set (key := firstn _ (user_key_bytes local ++ _)). clearbody key.
  set (out0 := repeat 0 (Z.to_nat sz)).
  assert (L0 : length out0 = Z.to_nat sz) by apply repeat_length.
  clearbody out0.
  set (out1 := memcpy out0 _ data).
  assert (L1 : length out1 = Z.to_nat sz) by (subst out1; memcpy_len).
  clearbody out1.
  set (h0 := to_char sz). set (h1 := to_char (Z.shiftr sz 8)).
  set (out2 := memcpy out1 0 _).
  assert (L2 : length out2 = Z.to_nat sz) by (subst out2; memcpy_len).
  assert (N2 : nth 0 out2 0 = h0 /\ nth 1 out2 0 = h1) by (split; reflexivity).
  clearbody out2.
  set (out3 := memcpy out2 4 rd).
  assert (L3 : length out3 = Z.to_nat sz) by (subst out3; memcpy_len).
  assert (N3 : nth 0 out3 0 = h0 /\ nth 1 out3 0 = h1)
    by (subst out3; rewrite !memcpy_nth by lia; exact N2).
  clearbody out3.
  set (out4 := memcpy out3 2 _).
  assert (L4 : length out4 = Z.to_nat sz) by (subst out4; memcpy_len).
  assert (N4 : nth 0 out4 0 = h0 /\ nth 1 out4 0 = h1)
    by (subst out4; rewrite !memcpy_nth by lia; exact N3).
  clearbody out4.
  set (out5 := if r + 1 <? 128 then _ else _).
  assert (L5 : length out5 = Z.to_nat sz)
    by (subst out5; destruct (r + 1 <? 128); memcpy_len).
  assert (N5 : nth 0 out5 0 = h0 /\ nth 1 out5 0 = h1)
    by (subst out5; destruct (r + 1 <? 128); rewrite !memcpy_nth by lia; exact N4).
  clearbody out5.
  rewrite !memcpy_nth by lia. exact N5.
Qed.

Lemma pack_data_length_field data full server local rnd :
  let r := auth_aes128_sha1_pack_data data full server local rnd in
  0 <= out_size r < 65536 -> read_le_u16 (outdata r) = out_size r.
Proof.
  intros r Hsz.
  pose proof (pack_data_header data full server local rnd) as [H0 H1].
  fold r in H0, H1. unfold read_le_u16. rewrite H0, H1.
  apply le_u16_split. assumption.
Qed.

(** The padding region of a data chunk: the [rand_len] bytes at offset 4.
    The length marker is stored over the first random bytes; the random
    bytes behind it stay. *)
Lemma pack_data_padding data full server local rnd :
  let g := get_rand_len (Z.of_nat (length data)) full local server rnd in
  let rand_len := fst g + 1 in
  let rnd_data := fst (rand_bytes rand_len (snd g)) in
  firstn (Z.to_nat rand_len)
         (skipn 4 (outdata (auth_aes128_sha1_pack_data data full server local rnd)))
  = pad_marker rand_len ++ skipn (length (pad_marker rand_len)) rnd_data.
Proof.
  cbn zeta. unfold auth_aes128_sha1_pack_data.
  pose proof (get_rand_len_range (Z.of_nat (length data)) full local server rnd) as Hr.
  destruct (get_rand_len _ _ _ _ _) as [r rnd1]. cbn [fst snd] in *.
  pose proof (rand_bytes_length (r + 1) rnd1) as Hl.
  destruct (rand_bytes _ _) as [rd rnd2]. cbn [fst snd] in *. cbn [outdata].
  match goal with
  | |- context [if r + 1 <? 128 then memcpy ?x 4 ?a else memcpy ?x 4 ?b] =>
      replace (if r + 1 <? 128 then memcpy x 4 a else memcpy x 4 b)
        with (memcpy x 4 (pad_marker (r + 1)))
        by (unfold pad_marker; now destruct (r + 1 <? 128))
  end.
  pose proof (pad_marker_length (r + 1) ltac:(lia)) as Hm.
  remember (pad_marker (r + 1)) as mk eqn:Emk. clear Emk.
  remember (r + 1 + Z.of_nat (length data) + 8) as sz eqn:Esz.
  set (key := firstn _ (user_key_bytes local ++ _)). clearbody key.
  set (out0 := repeat 0 (Z.to_nat sz)).
  assert (L0 : length out0 = Z.to_nat sz) by apply repeat_length.
  clearbody out0.
  set (out1 := memcpy out0 _ data).
  assert (L1 : length out1 = Z.to_nat sz) by (subst out1; memcpy_len).
  clearbody out1.
  set (out2 := memcpy out1 0 _).
  assert (L2 : length out2 = Z.to_nat sz) by (subst out2; memcpy_len).
  clearbody out2.
  set (out3 := memcpy out2 4 rd).
  assert (L3 : length out3 = Z.to_nat sz) by (subst out3; memcpy_len).
  assert (R3 : skipn 4 out3 = rd ++ skipn (4 + length rd) out2)
    by (subst out3; apply memcpy_at; lia).
  clearbody out3.
  set (tag2 := firstn 2 (hmac (firstn 2 out3) key)).
  assert (Lt : (length tag2 <= 2)%nat) by (subst tag2; apply firstn_le_length).
  clearbody tag2.
  set (out4 := memcpy out3 2 tag2).
  assert (L4 : length out4 = Z.to_nat sz) by (subst out4; rewrite memcpy_length; lia).
  assert (R4 : skipn (4 + length mk) out4 = skipn (length mk) rd ++ skipn (4 + length rd) out2).
  { subst out4. rewrite memcpy_skipn by lia.
    replace (4 + length mk)%nat with (length mk + 4)%nat by lia.
    rewrite <- skipn_skipn, R3.
    rewrite skipn_app. replace (length mk - length rd)%nat with 0%nat by lia.
    reflexivity. }
  clearbody out4.
  set (out5 := memcpy out4 4 mk).
  assert (L5 : length out5 = Z.to_nat sz) by (subst out5; rewrite memcpy_length; lia).
  assert (R5 : skipn 4 out5 = mk ++ skipn (length mk) rd ++ skipn (4 + length rd) out2)
    by (subst out5; rewrite memcpy_at by lia; now rewrite R4).
  clearbody out5.
  set (tag4 := firstn 4 _).
  assert (Lt4 : (length tag4 <= 4)%nat) by (subst tag4; apply firstn_le_length).
  clearbody tag4.
  rewrite firstn_skipn_comm.
  rewrite memcpy_firstn by lia.
  rewrite <- firstn_skipn_comm, R5.
  rewrite app_assoc.
  apply firstn_app_exact. rewrite length_app, length_skipn. lia.
Qed.

(** C9, as the code has it: every data chunk has a padding region of
    [rand_len = get_rand_len + 1 >= 1] bytes at offset 4 and is
    [rand_len + n + 8] bytes long.  The region opens with the marker of its
    own length, stored over the first random bytes (one byte below 128,
    three from 128 on), so only [rand_len - 1] or [rand_len - 3] of its bytes
    are random: none when [rand_len] is 1, which is the case for every
    payload above 1300 bytes.  For payloads of 1 to 2000 bytes the chunk
    length, which is also its little-endian length field, lies in
    [10, 8192). *)
Theorem pack_data_chunk_padding data full server local rnd :
  let n := Z.of_nat (length data) in
  let g := get_rand_len n full local server rnd in
  let rand_len := fst g + 1 in
  let rnd_data := fst (rand_bytes rand_len (snd g)) in
  let r := auth_aes128_sha1_pack_data data full server local rnd in
  let padding := firstn (Z.to_nat rand_len) (skipn 4 (outdata r)) in
  let random_part := skipn (length (pad_marker rand_len)) rnd_data in
  1 <= rand_len
  /\ out_size r = rand_len + n + 8
  /\ Z.of_nat (length (outdata r)) = out_size r
  /\ padding = pad_marker rand_len ++ random_part
  /\ Z.of_nat (length random_part)
     = (if rand_len <? 128 then rand_len - 1 else rand_len - 3)
  /\ (1300 < n \/ 1300 < last_data_len local \/ si_buffer_size server <= full ->
      rand_len = 1 /\ padding = [1])
  /\ (1 <= n <= 2000 ->
      10 <= out_size r < 8192 /\ read_le_u16 (outdata r) = out_size r).
Proof.
  intros n g rand_len rnd_data r padding random_part.
  pose proof (get_rand_len_range n full local server rnd) as Hr. cbn zeta in Hr.
  pose proof (pack_data_out_size data full server local rnd) as Hs.
  pose proof (pack_data_length data full server local rnd) as Hl.
  pose proof (pack_data_padding data full server local rnd) as Hp. cbn zeta in Hp.
  fold r in Hs, Hl, Hp. fold n in Hs, Hp, Hr. fold g in Hs, Hp, Hr.
  fold rand_len in Hs, Hp. fold rnd_data in Hp. fold padding random_part in Hp.
  assert (Hpad : 1 <= rand_len) by (subst rand_len; lia).
  assert (Hrnd : length rnd_data = Z.to_nat rand_len)
    by (subst rnd_data; apply rand_bytes_length).
  assert (Hcount : Z.of_nat (length random_part)
                   = (if rand_len <? 128 then rand_len - 1 else rand_len - 3)).
  { subst random_part. rewrite length_skipn, Hrnd. unfold pad_marker.
    destruct (Z.ltb_spec rand_len 128); cbn [length]; lia. }
  refine (conj Hpad (conj Hs (conj Hl (conj Hp (conj Hcount (conj _ _)))))).
  - intros Hbig.
    assert (Hone : rand_len = 1).
    { subst rand_len g. unfold get_rand_len.
      destruct (Z.gtb_spec n 1300); cbn [orb fst]; [lia|].
      destruct (Z.gtb_spec (last_data_len local) 1300); cbn [orb fst]; [lia|].
      destruct (Z.geb_spec full (si_buffer_size server)); cbn [orb fst]; lia. }
    split; [exact Hone|].
    rewrite Hp. rewrite Hone in Hcount. cbn in Hcount.
    destruct random_part; [|cbn [length] in Hcount; lia].
    rewrite Hone. reflexivity.
  - intros Hn.
    assert (Hb : 10 <= out_size r < 8192) by (subst rand_len; lia).
    split; [exact Hb|].
    apply pack_data_length_field. fold r. lia.
Qed.

(** C10: the UDP post-decrypt never returns a negative value and never
    writes to the buffer; it returns 0 for inputs of at most 4 bytes and on a
    tag mismatch, and the length minus 4 otherwise. *)
Theorem udp_post_decrypt_result server data :
  let n := Z.of_nat (length data) in
  let r := auth_aes128_sha1_client_udp_post_decrypt server data in
  let tag_ok :=
    bytes_eqb (firstn 4 (hmac (firstn (Z.to_nat (n - 4)) data) (si_key server)))
              (firstn 4 (skipn (Z.to_nat (n - 4)) data)) in
  snd r = data
  /\ 0 <= fst r
  /\ (n <= 4 -> fst r = 0)
  /\ (tag_ok = false -> fst r = 0)
  /\ (4 < n -> tag_ok = true -> fst r = n - 4).
Proof.
  intros n r tag_ok. subst r. unfold auth_aes128_sha1_client_udp_post_decrypt.
  fold n. fold tag_ok.
  destruct (Z.leb_spec n 4); cbn [fst snd].
  - repeat split; try reflexivity; lia.
  - destruct tag_ok; cbn [negb fst snd]; repeat split; try reflexivity; try lia;
      discriminate.
Qed.

End DataChunkBounds.

Lemma strchr_spec (s : list Z) (c : Z) (d : nat) :
  strchr s c = Some d ->
  (d < length s)%nat /\ s = firstn d s ++ c :: skipn (S d) s
  /\ strchr (firstn d s) c = None.
Proof.
  revert d. induction s as [|x s IH]; intros d H; [discriminate|].
  cbn [strchr] in H. destruct (Z.eqb_spec x c) as [->|Hne].
  - inversion H; subst. cbn. repeat split; lia.
  - destruct (strchr s c) as [i|] eqn:E; [|discriminate].
    inversion H; subst. destruct (IH i eq_refl) as (H1 & H2 & H3).
    cbn [length firstn skipn app strchr]. repeat split; [lia | f_equal; exact H2 |].
    destruct (Z.eqb_spec x c); [contradiction|]. now rewrite H3.
Qed.

Lemma strchr_app (a b : list Z) (c : Z) :
  strchr a c = None -> strchr (a ++ c :: b) c = Some (length a).
Proof.
  induction a as [|x a IH]; intros H; cbn [app strchr length].
  - now rewrite Z.eqb_refl.
  - cbn [strchr] in H. destruct (x =? c); [discriminate|].
    destruct (strchr a c); [discriminate|]. now rewrite IH.
Qed.

Section AuthData.
Context {P : Primitives}.

Lemma resolve_user_key_total server local rnd :
  param_fits (si_param server) = true ->
  exists local' rnd', resolve_user_key server local rnd = Some (local', rnd').
Proof.
  intros Hfit. unfold resolve_user_key.
  destruct (user_key local); [eauto|].
  destruct (rand_bytes 4 rnd) as [u rnd'].
  unfold param_fits in Hfit.
  destruct (si_param server) as [[|c p]|]; [eauto | | eauto].
  destruct (strchr (c :: p) 58) as [d|] eqn:E; [|eauto].
  destruct (strchr_spec _ _ _ E) as (Hd & _ & _).
  apply andb_true_iff in Hfit as [H1 H2].
  apply Z.leb_le in H1, H2.
  rewrite length_firstn, length_skipn.
  destruct (Z.ltb_spec 15 (Z.of_nat (Nat.min d (length (c :: p))))); [lia|].
  destruct (Z.ltb_spec 127 (Z.of_nat (length (c :: p) - S d))); [lia|].
  cbn [orb]. eauto.
Qed.

Lemma resolve_user_key_uid server local rnd local' rnd' :
  resolve_user_key server local rnd = Some (local', rnd') ->
  user_key local = None ->
  length (uid local') = 4%nat /\ user_key local' <> None.
Proof.
  unfold resolve_user_key. intros H Hn. rewrite Hn in H.
  pose proof (rand_bytes_length 4 rnd) as Hl.
  destruct (rand_bytes 4 rnd) as [u r]. cbn [fst] in Hl.
  assert (Hfb : Some (set_user_key local u (si_key server), r) = Some (local', rnd') ->
                length (uid local') = 4%nat /\ user_key local' <> None).
  { intros E. inversion E; subst. cbn. split; [assumption | discriminate]. }
  destruct (si_param server) as [[|c p]|]; auto.
  destruct (strchr (c :: p) 58); auto.
  destruct (_ || _); [discriminate|].
  inversion H; subst. cbn. split; [reflexivity | discriminate].
Qed.

Lemma auth_plain_block_length now global sz rl :
  length (auth_plain_block now global sz rl) = 24%nat.
Proof.
  unfold auth_plain_block.
  set (e0 := repeat 0 24).
  assert (L : length e0 = 24%nat) by reflexivity. clearbody e0.
  set (e1 := memcpy e0 0 _).
  assert (L1 : length e1 = 24%nat) by (subst e1; rewrite memcpy_length; rewrite ?memintcopy_lt_length; lia).
  clearbody e1.
  set (e2 := memcpy e1 4 _).
  assert (L2 : length e2 = 24%nat).
  { subst e2. rewrite memcpy_length; [lia|].
    pose proof (firstn_le_length 4 (local_client_id global)). lia. }
  clearbody e2.
  set (e3 := memcpy e2 8 _).
  assert (L3 : length e3 = 24%nat) by (subst e3; rewrite memcpy_length; rewrite ?memintcopy_lt_length; lia).
  clearbody e3.
  rewrite memcpy_length; cbn [length]; lia.
Qed.

End AuthData.

Section AuthDataShape.
Context {P : Primitives}.

Lemma auth_rand_len_range n rnd :
  0 <= auth_rand_len n rnd <= 1023
  /\ (n > 400 -> auth_rand_len n rnd <= 511).
Proof.
  unfold auth_rand_len.
  pose proof (land_ones_range (fst (xorshift128plus rnd)) 9) as H3.
  pose proof (land_ones_range (fst (xorshift128plus rnd)) 10) as H4.
  change (Z.ones 9) with 0x1FF in H3. change (Z.ones 10) with 0x3FF in H4.
  change (2 ^ 9) with 512 in H3. change (2 ^ 10) with 1024 in H4.
  destruct (Z.gtb_spec n 400); lia.
Qed.

(** The state in which the key is resolved: after the padding length, the
    padding bytes and the connection counter have drawn from the oracle. *)
Lemma pack_auth_data_shape now global server local data rnd :
  let n := Z.of_nat (length data) in
  let rl := auth_rand_len n rnd in
  let rnd2 := snd (rand_bytes rl (snd (xorshift128plus rnd))) in
  let g := step_connection_id global rnd2 in
  forall local' rnd4,
  resolve_user_key server local (snd g) = Some (local', rnd4) ->
  exists a,
    auth_aes128_sha1_pack_auth_data now global server local data rnd = Some a
    /\ au_size a = rl + 31 + n + 4
    /\ Z.of_nat (length (au_data a)) = au_size a
    /\ au_global a = fst g
    /\ au_local a = local'
    /\ au_rand a = snd (rand_bytes 1 rnd4)
    /\ nth 0 (au_data a) 0 = nth 0 (fst (rand_bytes 1 rnd4)) 0
    /\ nth 1 (au_data a) 0
       = nth 0 (hmac (fst (rand_bytes 1 rnd4)) (auth_hmac_key server)) 0.
Proof.
  intros n rl rnd2 g local' rnd4 Hres.
  unfold auth_aes128_sha1_pack_auth_data.
  pose proof (auth_rand_len_range n rnd) as [Hrl _].
  subst g rnd2 rl. unfold auth_rand_len in *. fold n.
  destruct (xorshift128plus rnd) as [x rnd1]. cbn [fst snd] in *.
  set (rl := if n >? 400 then Z.land x 511 else Z.land x 1023) in *.
  pose proof (rand_bytes_length rl rnd1) as Hl.
  destruct (rand_bytes rl rnd1) as [rd rnd2]. cbn [fst snd] in *.
  destruct (step_connection_id global rnd2) as [global' rnd3]. cbn [fst snd] in *.
  rewrite Hres.
  pose proof (rand_bytes_length 1 rnd4) as Hb.
  destruct (rand_bytes 1 rnd4) as [b0 rnd5]. cbn [fst snd] in *.
  eexists. split; [reflexivity|]. cbn [au_size au_data au_global au_local au_rand].
  remember (rl + 16 + 4 + 4 + 7 + n + 4) as sz eqn:Esz.
  set (key := auth_hmac_key server). clearbody key.
  set (enc := firstn 24 _). 
  assert (Le : (length enc <= 24)%nat) by (subst enc; apply firstn_le_length).
  clearbody enc.
  set (out0 := repeat 0 (Z.to_nat sz)).
  assert (L0 : length out0 = Z.to_nat sz) by apply repeat_length.
  assert (Z0 : nth 1 out0 0 = 0) by (subst out0; apply nth_repeat).
  clearbody out0.
  set (out1 := memcpy out0 _ rd).
  assert (L1 : length out1 = Z.to_nat sz) by (subst out1; memcpy_len).
  assert (Z1 : nth 1 out1 0 = 0) by (subst out1; rewrite memcpy_nth by lia; exact Z0).
  clearbody out1.
  destruct b0 as [|c0 [|]]; try discriminate. clear Hb.
  set (out2 := memcpy out1 0 [c0]).
  assert (L2 : length out2 = Z.to_nat sz) by (subst out2; memcpy_len).
  assert (N2 : nth 0 out2 0 = c0) by reflexivity.
  assert (F2 : firstn 1 out2 = [c0]) by reflexivity.
  assert (Z2 : nth 1 out2 0 = 0).
  { subst out2. rewrite memcpy_head. cbn [length app nth].
    destruct out1 as [|y0 [|y1 out1]]; cbn in L1; try lia. exact Z1. }
  clearbody out2.
  rewrite F2.
  set (out3 := memcpy out2 1 _).
  assert (L3 : length out3 = Z.to_nat sz) by (subst out3; memcpy_len).
  assert (N3 : nth 0 out3 0 = c0) by (subst out3; rewrite memcpy_nth by lia; exact N2).
  assert (M3 : nth 1 out3 0 = nth 0 (hmac [c0] key) 0).
  { subst out3. unfold memcpy.
    destruct out2 as [|y0 [|y1 out2]]; cbn in L2; try lia.
    cbn [nth] in Z2. subst y1.
    destruct (hmac [c0] key) as [|h0 hs]; reflexivity. }
  clearbody out3.
  set (out4 := memcpy out3 7 enc).
  assert (L4 : length out4 = Z.to_nat sz) by (subst out4; rewrite memcpy_length; lia).
  assert (N4 : nth 0 out4 0 = c0 /\ nth 1 out4 0 = nth 0 (hmac [c0] key) 0)
    by (subst out4; rewrite !memcpy_nth by lia; split; assumption).
  clearbody out4.
  set (out5 := memcpy out4 _ data).
  assert (L5 : length out5 = Z.to_nat sz) by (subst out5; rewrite memcpy_length; lia).
  assert (N5 : nth 0 out5 0 = c0 /\ nth 1 out5 0 = nth 0 (hmac [c0] key) 0)
    by (subst out5; rewrite !memcpy_nth by lia; exact N4).
  clearbody out5.
  refine (conj _ (conj _ (conj eq_refl (conj eq_refl (conj eq_refl _))))).
  - lia.
  - rewrite memcpy_length; [lia|].
    match goal with |- context [firstn 4 ?l] => pose proof (firstn_le_length 4 l) end.
    lia.
  - rewrite !memcpy_nth by lia. exact N5.
Qed.

End AuthDataShape.

Section AuthDataLayout.
Context {P : Primitives} {OK : PrimitivesOk P}.

(** The 24-byte block copied to offset 7 of the initial chunk. *)
Lemma auth_block_layout (blk uid E key : list Z) :
  length blk = 24%nat -> length uid = 4%nat -> length E = 16%nat ->
  let enc4 := memcpy blk 4 E in
  let enc5 := memcpy enc4 0 uid in
  firstn 24 (memcpy enc5 20 (firstn 4 (hmac (firstn 20 enc5) key)))
  = uid ++ E ++ firstn 4 (hmac (uid ++ E) key).
Proof.
  intros Lb Lu Le. cbn zeta.
  assert (E4 : memcpy blk 4 E = firstn 4 blk ++ E ++ skipn 20 blk).
  { unfold memcpy. rewrite Le. reflexivity. }
  rewrite E4.
  rewrite memcpy_front by (rewrite length_firstn; lia).
  set (q := skipn 20 blk).
  assert (Lq : length q = 4%nat) by (subst q; rewrite length_skipn; lia).
  clearbody q.
  replace (uid ++ E ++ q) with ((uid ++ E) ++ q ++ []) by now rewrite <- app_assoc, app_nil_r.
  rewrite (firstn_app_exact (uid ++ E)) by (rewrite length_app; lia).
  rewrite memcpy_segment by (rewrite ?length_app, ?tag_length; lia).
  rewrite app_nil_r, <- app_assoc.
  apply firstn_all2. rewrite !length_app, tag_length; lia.
Qed.

Lemma pack_auth_data_layout now global server local data rnd :
  let n := Z.of_nat (length data) in
  let rl := auth_rand_len n rnd in
  let rnd2 := snd (rand_bytes rl (snd (xorshift128plus rnd))) in
  let g := step_connection_id global rnd2 in
  forall local' rnd4,
  resolve_user_key server local (snd g) = Some (local', rnd4) ->
  length (uid local') = 4%nat ->
  exists a,
    auth_aes128_sha1_pack_auth_data now global server local data rnd = Some a
    /\ let E := ss_aes_128_cbc
                  (firstn 16 (auth_plain_block now (fst g) (au_size a) rl))
                  (auth_enc_key local') in
       firstn 24 (skipn 7 (au_data a))
       = uid local' ++ E
         ++ firstn 4 (hmac (uid local' ++ E) (auth_hmac_key server))
       /\ firstn (length data) (skipn (Z.to_nat (rl + 31)) (au_data a)) = data
       /\ skipn (Z.to_nat (au_size a - 4)) (au_data a)
          = firstn 4 (hmac (firstn (Z.to_nat (au_size a - 4)) (au_data a))
                           (user_key_bytes local')).
Proof.
  intros n rl rnd2 g local' rnd4 Hres Hu.
  unfold auth_aes128_sha1_pack_auth_data.
  pose proof (auth_rand_len_range n rnd) as [Hrl _].
  subst g rnd2 rl. unfold auth_rand_len in *. fold n.
  destruct (xorshift128plus rnd) as [x rnd1]. cbn [fst snd] in *.
  set (rl := if n >? 400 then Z.land x 511 else Z.land x 1023) in *.
  pose proof (rand_bytes_length rl rnd1) as Hl.
  destruct (rand_bytes rl rnd1) as [rd rnd2]. cbn [fst snd] in *.
  destruct (step_connection_id global rnd2) as [global' rnd3]. cbn [fst snd] in *.
  rewrite Hres.
  pose proof (rand_bytes_length 1 rnd4) as Hb.
  destruct (rand_bytes 1 rnd4) as [b0 rnd5]. cbn [fst snd] in *.
  eexists. split; [reflexivity|]. cbn [au_size au_data].
  remember (rl + 16 + 4 + 4 + 7 + n + 4) as sz eqn:Esz.
  set (key := auth_hmac_key server). clearbody key.
  set (blk := auth_plain_block now global' sz rl).
  assert (Lblk : length blk = 24%nat) by apply auth_plain_block_length.
  clearbody blk.
  set (E := ss_aes_128_cbc (firstn 16 blk) (auth_enc_key local')).
  assert (LE : length E = 16%nat) by apply aes_length.
  clearbody E.
  rewrite (auth_block_layout blk (uid local') E key Lblk Hu LE).
  set (block := uid local' ++ E ++ firstn 4 (hmac (uid local' ++ E) key)).
  assert (Lk : length block = 24%nat)
    by (subst block; rewrite !length_app, tag_length; lia).
  clearbody block.
  replace (Z.to_nat sz) with (1 + (6 + (24 + (length rd + (length data + 4)))))%nat by lia.
  rewrite !repeat_app.
  set (z1 := repeat 0 1). set (z6 := repeat 0 6). set (z24 := repeat 0 24).
  set (zr := repeat 0 (length rd)). set (zn := repeat 0 (length data)).
  set (z4 := repeat 0 4).
  assert (L1 : length z1 = 1%nat) by apply repeat_length.
  assert (L6 : length z6 = 6%nat) by apply repeat_length.
  assert (L24 : length z24 = 24%nat) by apply repeat_length.
  assert (Lr : length zr = length rd) by apply repeat_length.
  assert (Ln : length zn = length data) by apply repeat_length.
  assert (L4 : length z4 = 4%nat) by apply repeat_length.
  clearbody z1 z6 z24 zr zn z4.
  (* padding *)
  replace (z1 ++ z6 ++ z24 ++ zr ++ zn ++ z4)
    with ((z1 ++ z6 ++ z24) ++ zr ++ zn ++ z4) by now rewrite <- !app_assoc.
  rewrite memcpy_segment by (rewrite ?length_app; lia).
  rewrite <- !app_assoc.
  (* first byte and its tag *)
  rewrite memcpy_front by lia.
  rewrite (firstn_app_exact b0) by lia.
  rewrite (memcpy_segment b0 z6) by (rewrite ?tag_length; lia).
  set (tag6 := firstn 6 (hmac b0 key)).
  assert (Lt : length tag6 = 6%nat) by (apply tag_length; lia). clearbody tag6.
  (* the block *)
  replace (b0 ++ tag6 ++ z24 ++ rd ++ zn ++ z4)
    with ((b0 ++ tag6) ++ z24 ++ rd ++ zn ++ z4) by now rewrite <- !app_assoc.
  rewrite memcpy_segment by (rewrite ?length_app; lia).
  (* payload *)
  replace ((b0 ++ tag6) ++ block ++ rd ++ zn ++ z4)
    with ((b0 ++ tag6 ++ block ++ rd) ++ zn ++ z4) by now rewrite <- !app_assoc.
  rewrite memcpy_segment by (rewrite ?length_app; lia).
  (* final tag *)
  replace ((b0 ++ tag6 ++ block ++ rd) ++ data ++ z4)
    with ((b0 ++ tag6 ++ block ++ rd ++ data) ++ z4 ++ [])
    by now rewrite <- !app_assoc, app_nil_r.
  set (body := b0 ++ tag6 ++ block ++ rd ++ data).
  assert (Lbody : length body = Z.to_nat (sz - 4))
    by (subst body; rewrite !length_app; lia).
  rewrite <- Lbody.
  rewrite (firstn_app_exact body) by reflexivity.
  rewrite memcpy_segment by (rewrite ?tag_length; lia).
  rewrite app_nil_r.
  set (tag4 := firstn 4 (hmac body (user_key_bytes local'))).
  refine (conj _ (conj _ _)).
  - subst body.
    replace ((b0 ++ tag6 ++ block ++ rd ++ data) ++ tag4)
      with ((b0 ++ tag6) ++ block ++ (rd ++ data ++ tag4))
      by now rewrite <- !app_assoc.
    rewrite skipn_app_exact by (rewrite length_app; lia).
    apply firstn_app_exact. lia.
  - subst body.
    replace ((b0 ++ tag6 ++ block ++ rd ++ data) ++ tag4)
      with ((b0 ++ tag6 ++ block ++ rd) ++ data ++ tag4)
      by now rewrite <- !app_assoc.
    rewrite skipn_app_exact by (rewrite !length_app; lia).
    apply firstn_app_exact. reflexivity.
  - rewrite skipn_app_exact by reflexivity.
    rewrite firstn_app_exact by reflexivity. reflexivity.
Qed.

End AuthDataLayout.

Section Chunks.
Context {P : Primitives}.

Lemma packed_from_length_field dl server c d :
  packed_from dl server c d -> 1 <= Z.of_nat (length d) <= 2000 ->
  length_field_ok c.
Proof.
  intros (local & rnd & ->) Hn. unfold length_field_ok.
  pose proof (get_rand_len_range (Z.of_nat (length d)) dl local server rnd) as Hr.
  cbn zeta in Hr.
  pose proof (pack_data_out_size d dl server local rnd) as Hs.
  rewrite pack_data_length. apply pack_data_length_field. lia.
Qed.

Lemma pack_loop_slices dl server fuel :
  forall data local rnd,
  (length data <= fuel)%nat ->
  exists chunks data' local' rnd' fulls,
    pack_loop fuel data dl server local rnd = (chunks, data', local', rnd')
    /\ Forall2 (packed_from dl server) chunks fulls
    /\ Forall (fun d => length d = 2000%nat) fulls
    /\ data = concat fulls ++ data'
    /\ (length data' <= 2000)%nat
    /\ (0 < length data -> 0 < length data')%nat
    /\ has_sent_header local' = has_sent_header local.
Proof.
  induction fuel as [|fuel IH]; intros data local rnd Hf.
  - destruct data; [|cbn in Hf; lia].
    exists [], [], local, rnd, []. cbn. repeat split; try constructor; lia.
  - cbn [pack_loop]. unfold auth_simple_pack_unit_size.
    destruct (Z.gtb_spec (Z.of_nat (length data)) 2000) as [Hgt|Hle].
    + set (r := auth_aes128_sha1_pack_data (firstn (Z.to_nat 2000) data) dl server local rnd).
      destruct (IH (skipn (Z.to_nat 2000) data) (pk_local r) (pk_rand r))
        as (chunks & data' & local' & rnd' & fulls & Erun & Hpk & Hfull & Hdata & Hlen & Hpos & Hh).
      { rewrite length_skipn. lia. }
      rewrite Erun.
      exists (outdata r :: chunks), data', local', rnd', (firstn (Z.to_nat 2000) data :: fulls).
      refine (conj eq_refl (conj _ (conj _ (conj _ (conj _ (conj _ _)))))); try assumption.
      * constructor; [|assumption]. now exists local, rnd.
      * constructor; [|assumption]. rewrite length_firstn. lia.
      * cbn [concat]. rewrite <- app_assoc, <- Hdata. symmetry. apply firstn_skipn.
      * intros _. apply Hpos. rewrite length_skipn. lia.
      * rewrite Hh. unfold r. now rewrite pack_data_local.
    + exists [], data, local, rnd, [].
      refine (conj eq_refl (conj _ (conj _ (conj eq_refl (conj _ (conj _ eq_refl)))))).
      * constructor.
      * constructor.
      * lia.
      * auto.
Qed.

End Chunks.

Section PreEncrypt.
Context {P : Primitives}.

Lemma pack_auth_data_total now global server local data rnd :
  param_fits (si_param server) = true ->
  exists a,
    auth_aes128_sha1_pack_auth_data now global server local data rnd = Some a
    /\ au_size a = auth_rand_len (Z.of_nat (length data)) rnd + 31
                   + Z.of_nat (length data) + 4
    /\ Z.of_nat (length (au_data a)) = au_size a
    /\ has_sent_header (au_local a) = has_sent_header local.
Proof.
  intros Hfit.
  set (g := step_connection_id global
              (snd (rand_bytes (auth_rand_len (Z.of_nat (length data)) rnd)
                               (snd (xorshift128plus rnd))))).
  destruct (resolve_user_key_total server local (snd g) Hfit) as (local' & rnd4 & Hres).
  destruct (pack_auth_data_shape now global server local data rnd local' rnd4 Hres)
    as (a & Ha & Hs & Hl & _ & Hloc & _).
  exists a. repeat split; try assumption.
  rewrite Hloc. clear - Hres. unfold resolve_user_key in Hres.
  destruct (user_key local); [now inversion Hres|].
  destruct (rand_bytes 4 (snd g)) as [u r].
  destruct (si_param server) as [[|c p]|]; try now inversion Hres.
  destruct (strchr (c :: p) 58); [|now inversion Hres].
  destruct (_ || _); [discriminate | now inversion Hres].
Qed.

Lemma concat_units_length (fulls : list (list Z)) :
  Forall (fun d => length d = 2000%nat) fulls ->
  Z.of_nat (length (concat fulls)) = 2000 * Z.of_nat (length fulls).
Proof.
  induction 1 as [|d l Hd _ IH]; [reflexivity|].
  cbn [concat length]. rewrite length_app. lia.
Qed.

(** The number of data chunks behind a payload cut into full units and at
    most one shorter final unit. *)
Lemma data_chunk_count {A : Type} (R : A -> list Z -> Prop) (rest : list A)
    (fulls final : list (list Z)) (m : Z) :
  Forall2 R rest (fulls ++ final) ->
  Forall (fun d => length d = 2000%nat) fulls ->
  Z.of_nat (length (concat (fulls ++ final))) = m ->
  (final = [] \/ exists d, final = [d] /\ (1 <= length d <= 2000)%nat) ->
  Z.of_nat (length rest) = (m + 1999) / 2000.
Proof.
  intros Hpk Hfull Hm Hfin.
  apply Forall2_length in Hpk. rewrite Hpk, length_app.
  rewrite concat_app, length_app, Nat2Z.inj_add,
    (concat_units_length fulls Hfull) in Hm.
  destruct Hfin as [-> | (d & -> & Hd)]; cbn [concat length app] in *.
  - replace (m + 1999) with (1999 + Z.of_nat (length fulls) * 2000) by lia.
    rewrite Z.div_add by lia. change (1999 / 2000) with 0. lia.
  - rewrite app_nil_r in Hm.
    replace (m + 1999)
      with (Z.of_nat (length d) + 1999 + Z.of_nat (length fulls) * 2000) by lia.
    rewrite Z.div_add by lia.
    replace ((Z.of_nat (length d) + 1999) / 2000) with 1; [lia|].
    apply Z.div_unique with (r := Z.of_nat (length d) - 1); lia.
Qed.

Lemma pre_encrypt_first_call_shape now global server local s rnd :
  s <> [] -> has_sent_header local = false ->
  param_fits (si_param server) = true ->
  let n := Z.of_nat (length s) in
  let head_size := Z.min 1200 n in
  exists r a rest fulls final,
    auth_aes128_sha1_client_pre_encrypt now global server local s rnd = Some r
    /\ auth_aes128_sha1_pack_auth_data now global server local
         (firstn (Z.to_nat head_size) s) rnd = Some a
    /\ pre_chunks r = au_data a :: rest
    /\ Forall2 (packed_from n server) rest (fulls ++ final)
    /\ concat (fulls ++ final) = skipn (Z.to_nat head_size) s
    /\ Forall (fun d => length d = 2000%nat) fulls
    /\ (final = [] /\ n = head_size
        \/ exists d, final = [d] /\ (1 <= length d <= 2000)%nat)
    /\ last_data_len (pre_local r) = n
    /\ has_sent_header (pre_local r) = true.
Proof.
  intros Hs Hh Hfit n head_size.
  assert (Hn : 0 < n) by (destruct s; [congruence | subst n; cbn [length]; lia]).
  unfold auth_aes128_sha1_client_pre_encrypt. fold n. rewrite Hh.
  destruct (Z.gtb_spec n 0); [|lia]. cbn [negb andb].
  replace (if 1200 >? n then n else 1200) with head_size
    by (subst head_size; destruct (Z.gtb_spec 1200 n); lia).
  destruct (pack_auth_data_total now global server local
              (firstn (Z.to_nat head_size) s) rnd Hfit) as (a & Ha & _).
  rewrite Ha.
  set (data := skipn (Z.to_nat head_size) s).
  assert (Ld : Z.of_nat (length data) = n - head_size)
    by (subst data; rewrite length_skipn; subst n head_size; lia).
  destruct (pack_loop_slices n server (length data) data
              (set_sent_header (au_local a)) (au_rand a) (Nat.le_refl _))
    as (chunks & data' & local' & rnd' & fulls & Erun & Hpk & Hfull & Hdata & Hlen & Hpos & Hh').
  rewrite Erun.
  pose proof (concat_units_length fulls Hfull) as Lf.
  destruct (Z.gtb_spec (Z.of_nat (length data')) 0) as [Hgt|Hz].
  - set (p := auth_aes128_sha1_pack_data data' n server local' rnd').
    exists (mk_pre ([au_data a] ++ chunks ++ [outdata p]) (au_global a)
                   (set_last_data_len (pk_local p) n) (pk_rand p)),
           a, (chunks ++ [outdata p]), fulls, [data'].
    refine (conj eq_refl (conj eq_refl (conj eq_refl (conj _ (conj _ (conj Hfull (conj _ (conj eq_refl _)))))))).
    + apply Forall2_app; [assumption|]. constructor; [|constructor].
      now exists local', rnd'.
    + rewrite concat_app. cbn [concat]. rewrite app_nil_r. now symmetry.
    + right. exists data'. split; [reflexivity | lia].
    + cbn [pre_local has_sent_header set_last_data_len]. unfold p.
      rewrite pack_data_local. cbn. exact Hh'.
  - destruct data' as [|]; [|cbn [length] in Hz; lia].
    assert (Hnil : data = []) by (destruct data; [reflexivity | cbn in Hpos; lia]).
    assert (Ef : fulls = []).
    { pose proof (f_equal (@length Z) Hdata) as Hx.
      rewrite Hnil, length_app in Hx. cbn [length] in Hx.
      destruct fulls; [reflexivity | cbn [length] in *; lia]. }
    subst fulls. inversion Hpk; subst.
    exists (mk_pre ([au_data a] ++ [] ++ []) (au_global a)
                   (set_last_data_len local' n) rnd'),
           a, [], [], [].
    refine (conj eq_refl (conj eq_refl (conj eq_refl (conj _ (conj _ (conj Hfull (conj _ (conj eq_refl _)))))))).
    + constructor.
    + cbn. fold data. now rewrite Hnil.
    + left. split; [reflexivity|]. rewrite Hnil in Ld. cbn in Ld. lia.
    + cbn. exact Hh'.
Qed.

(** C4: on the first non-empty call the first min(1200, |s|) bytes go into the
    auth-data chunk, the rest into units of exactly 2000 bytes and a final
    chunk of 1 to 2000 bytes; the number of chunks is
    1 + ceil((|s| - head_size) / 2000), and [last_data_len] becomes |s|. *)
Theorem pre_encrypt_first_call now global server local s rnd :
  s <> [] -> has_sent_header local = false ->
  param_fits (si_param server) = true ->
  let n := Z.of_nat (length s) in
  let head_size := Z.min 1200 n in
  exists r a rest fulls final,
    auth_aes128_sha1_client_pre_encrypt now global server local s rnd = Some r
    /\ auth_aes128_sha1_pack_auth_data now global server local
         (firstn (Z.to_nat head_size) s) rnd = Some a
    /\ pre_chunks r = au_data a :: rest
    /\ Forall2 (packed_from n server) rest (fulls ++ final)
    /\ concat (fulls ++ final) = skipn (Z.to_nat head_size) s
    /\ Forall (fun d => length d = 2000%nat) fulls
    /\ (final = [] /\ n = head_size
        \/ exists d, final = [d] /\ (1 <= length d <= 2000)%nat)
    /\ Z.of_nat (length (pre_chunks r)) = 1 + (n - head_size + 1999) / 2000
    /\ last_data_len (pre_local r) = n
    /\ has_sent_header (pre_local r) = true.
Proof.
  intros Hs Hh Hfit n head_size.
  destruct (pre_encrypt_first_call_shape now global server local s rnd Hs Hh Hfit)
    as (r & a & rest & fulls & final & Hr & Ha & Hc & Hpk & Hcat & Hfull & Hfin
        & Hlast & Hsent).
  fold n head_size in Ha, Hpk, Hcat, Hfin, Hlast.
  exists r, a, rest, fulls, final.
  refine (conj Hr (conj Ha (conj Hc (conj Hpk (conj Hcat (conj Hfull
           (conj Hfin (conj _ (conj Hlast Hsent))))))))).
  rewrite Hc. cbn [length]. rewrite Nat2Z.inj_succ.
  rewrite (data_chunk_count (packed_from n server) rest fulls final
             (n - head_size) Hpk Hfull).
  - lia.
  - rewrite Hcat, length_skipn. subst n head_size. lia.
  - destruct Hfin as [[Hf _] | Hf]; [left | right]; assumption.
Qed.

End PreEncrypt.

Section LengthField.
Context {P : Primitives}.

Lemma packed_slices_length_field dl server rest slices :
  Forall2 (packed_from dl server) rest slices ->
  Forall (fun d => (1 <= length d <= 2000)%nat) slices ->
  Forall length_field_ok rest.
Proof.
  induction 1 as [|c d rest slices Hc _ IH]; intros Hs; [constructor|].
  inversion Hs; subst. constructor; [|auto].
  eapply packed_from_length_field; [eassumption | lia].
Qed.

(** C2, as the code has it: every data chunk of [client_pre_encrypt] opens
    with its own length as a little-endian u16; the chunk left out is the
    auth-data chunk that a first call puts in front. *)
Theorem data_chunks_length_field now global server local s rnd :
  param_fits (si_param server) = true ->
  exists r,
    auth_aes128_sha1_client_pre_encrypt now global server local s rnd = Some r
    /\ Forall length_field_ok
         (if (Z.of_nat (length s) >? 0) && negb (has_sent_header local)
          then tl (pre_chunks r) else pre_chunks r).
Proof.
  intros Hfit.
  destruct ((Z.of_nat (length s) >? 0) && negb (has_sent_header local)) eqn:Hfirst.
  - apply andb_true_iff in Hfirst as [Hn Hh].
    apply Z.gtb_lt in Hn. apply negb_true_iff in Hh.
    assert (Hs : s <> []) by (destruct s; [cbn in Hn; lia | discriminate]).
    destruct (pre_encrypt_first_call_shape now global server local s rnd Hs Hh Hfit)
      as (r & a & rest & fulls & final & Hr & _ & Hc & Hpk & _ & Hfull & Hfin & _).
    exists r. split; [assumption|]. rewrite Hc. cbn [tl].
    eapply packed_slices_length_field; [eassumption|].
    apply Forall_app. split.
    + eapply Forall_impl; [|exact Hfull]. cbn. intros d Hd. lia.
    + destruct Hfin as [[-> _] | (d & -> & Hd)];
        [constructor | constructor; [lia | constructor]].
  - unfold auth_aes128_sha1_client_pre_encrypt. rewrite Hfirst.
    destruct (pack_loop_slices (Z.of_nat (length s)) server (length s) s local rnd
                (Nat.le_refl _))
      as (chunks & data' & local' & rnd' & fulls & Erun & Hpk & Hfull & Hdata & Hlen & Hpos & _).
    rewrite Erun.
    assert (Hch : Forall length_field_ok chunks).
    { eapply packed_slices_length_field; [eassumption|].
      eapply Forall_impl; [|exact Hfull]. cbn. intros d Hd. lia. }
    destruct (Z.gtb_spec (Z.of_nat (length data')) 0) as [Hgt|Hz].
    + eexists. split; [reflexivity|]. cbn [pre_chunks app].
      apply Forall_app. split; [assumption|]. constructor; [|constructor].
      eapply packed_from_length_field; [eexists _, _; reflexivity | lia].
    + eexists. split; [reflexivity|]. cbn [pre_chunks app].
      rewrite app_nil_r. assumption.
Qed.

End LengthField.

Lemma test_primitives_ok : PrimitivesOk test_primitives.
Proof.
  split.
  - intros msg key. cbn. lia.
  - intros blk key. cbn [ss_aes_128_cbc test_primitives].
    rewrite length_firstn, length_app, repeat_length. lia.
Qed.

Section PostDecryptFacts.
Context {P : Primitives}.

Lemma post_decrypt_loop_zero_first_byte ukey B id fuel :
  (4 < length B < 256)%nat -> nth 0 B 0 = 0 ->
  let r := post_decrypt_loop (S fuel) ukey B id [] in
  fst (fst (fst r)) = true \/ snd r = [].
Proof.
  intros Hl H0. cbn [post_decrypt_loop].
  destruct (Z.gtb_spec (Z.of_nat (length B)) 4); [|lia].
  match goal with
  | |- context [bytes_eqb (firstn 2 ?h) (firstn 2 ?t)] =>
      destruct (bytes_eqb (firstn 2 h) (firstn 2 t))
  end; cbn [negb]; [|left; reflexivity].
  rewrite H0.
  set (len := Z.shiftl (nth 1 B 0) 8 + 0).
  assert (Hlen : len = nth 1 B 0 * 256)
    by (subst len; rewrite Z.shiftl_mul_pow2 by lia; change (2 ^ 8) with 256; lia).
  destruct ((len >=? 8192) || (len <? 8)) eqn:Hrange; [left; reflexivity|].
  apply orb_false_iff in Hrange as [Hhi Hlo].
  apply Z.ltb_ge in Hlo.
  destruct (Z.gtb_spec len (Z.of_nat (length B))); [right; reflexivity|].
  lia.
Qed.

Lemma post_decrypt_zero_first_byte local B :
  recv_buffer local = [] ->
  (4 < length B < 256)%nat -> nth 0 B 0 = 0 ->
  let r := auth_aes128_sha1_client_post_decrypt local B in
  fst (fst r) = -1 \/ snd (fst r) = [].
Proof.
  intros Hb Hl H0. cbn zeta. unfold auth_aes128_sha1_client_post_decrypt.
  rewrite Hb. cbn [app length].
  destruct (Z.gtb_spec (Z.of_nat 0 + Z.of_nat (length B)) 16384); [lia|].
  destruct (length B) as [|f] eqn:EL; [lia|]. rewrite <- EL in Hl.
  pose proof (post_decrypt_loop_zero_first_byte (user_key_bytes local) B
                (recv_id local) f Hl H0) as Hloop. cbn zeta in Hloop.
  destruct (post_decrypt_loop (S f) (user_key_bytes local) B (recv_id local) [])
    as [[[err buf] id'] out].
  cbn [fst snd] in Hloop. destruct Hloop as [-> | ->].
  - left. reflexivity.
  - destruct err; [left | right]; reflexivity.
Qed.

End PostDecryptFacts.

(** C2, as stated, fails on the auth-data chunk: with a zero oracle the chunk
    of a one-byte first call is 36 bytes long and opens with the random byte
    0 followed by an HMAC byte, and no multiple of 256 is 36, whatever the
    HMAC. *)
Lemma auth_chunk_length_field_differs :
  (exists r c,
     auth_aes128_sha1_client_pre_encrypt (P := test_primitives) 0 test_global
       test_server auth_aes128_sha1_new_obfs [65] zero_rand = Some r
     /\ pre_chunks r = [c]
     /\ length c = 36%nat /\ read_le_u16 c = 12288)
  /\ ~ exists (P : Primitives) r,
         auth_aes128_sha1_client_pre_encrypt 0 test_global test_server
           auth_aes128_sha1_new_obfs [65] zero_rand = Some r
         /\ Forall length_field_ok (pre_chunks r).
Proof.
  split.
  { eexists _, _. split; [vm_compute; reflexivity|].
    split; [reflexivity|]. split; vm_compute; reflexivity. }
  intros (P & r & Hr & Hall).
  destruct (pre_encrypt_first_call_shape 0 test_global test_server
              auth_aes128_sha1_new_obfs [65] zero_rand
              ltac:(discriminate) eq_refl eq_refl)
    as (r' & a & rest & _ & _ & Hr' & Ha & Hc & _).
  rewrite Hr in Hr'. inversion Hr'; subst r'. rewrite Hc in Hall.
  inversion Hall as [|? ? Hhead _]; subst.
  destruct (pack_auth_data_shape 0 test_global test_server
              auth_aes128_sha1_new_obfs [65] zero_rand _ _ eq_refl)
    as (a' & Ha' & Hs & Hl & _ & _ & _ & H0 & H1).
  change (auth_aes128_sha1_pack_auth_data 0 test_global test_server
            auth_aes128_sha1_new_obfs [65] zero_rand = Some a) in Ha.
  rewrite Ha in Ha'. inversion Ha'; subst a'.
  unfold length_field_ok, read_le_u16, le_u16 in Hhead.
  rewrite Hl, Hs, H0, H1 in Hhead.
  change (auth_rand_len (Z.of_nat (length [65])) zero_rand) with 0 in Hhead.
  change (nth 0 (fst (rand_bytes 1 _)) 0) with 0 in Hhead.
  rewrite Z.shiftl_mul_pow2 in Hhead by lia.
  change (2 ^ 8) with 256 in Hhead. cbn [length Z.of_nat] in Hhead. lia.
Qed.

Section FirstCall.
Context {P : Primitives} {OK : PrimitivesOk P}.

(** Once the header is out a call always returns, and keeps the key. *)
Lemma pre_encrypt_sent_total now global server local s rnd :
  has_sent_header local = true ->
  exists r,
    auth_aes128_sha1_client_pre_encrypt now global server local s rnd = Some r
    /\ has_sent_header (pre_local r) = true
    /\ user_key (pre_local r) = user_key local.
Proof.
  intros Hh. unfold auth_aes128_sha1_client_pre_encrypt.
  rewrite Hh, andb_false_r.
  destruct (pack_loop _ _ _ _ _ _) as [[[c1 d2] l2] r2] eqn:Erun.
  apply pack_loop_sent_header in Erun as [E1 E2].
  destruct (Z.of_nat (length d2) >? 0); eexists; (split; [reflexivity|]);
    cbn [pre_local]; rewrite ?pack_data_local; cbn; split; congruence.
Qed.

Lemma pre_encrypt_pieces_sent_total now server pieces :
  forall global local rnd,
  has_sent_header local = true ->
  exists out g l rn,
    pre_encrypt_pieces now global server local pieces rnd = Some (out, g, l, rn)
    /\ user_key l = user_key local.
Proof.
  induction pieces as [|p ps IH]; intros global local rnd Hh.
  - exists [], global, local, rnd. split; reflexivity.
  - destruct (pre_encrypt_sent_total now global server local p rnd Hh)
      as (r & Er & Hh' & Hk').
    destruct (IH (pre_global r) (pre_local r) (pre_rand r) Hh')
      as (out & g & l & rn & Erun & Hk'').
    cbn [pre_encrypt_pieces]. rewrite Er, Erun.
    exists (pre_output r ++ out), g, l, rn. split; [reflexivity | congruence].
Qed.

(** A call without data, before the header is out, packs nothing. *)
Lemma pre_encrypt_blank now global server local rnd :
  auth_aes128_sha1_client_pre_encrypt now global server local [] rnd
  = Some (mk_pre [] global (set_last_data_len local 0) rnd).
Proof. reflexivity. Qed.

Lemma resolve_user_key_last_data_len server local rnd n :
  resolve_user_key server (set_last_data_len local n) rnd
  = match resolve_user_key server local rnd with
    | Some (l, r) => Some (set_last_data_len l n, r)
    | None => None
    end.
Proof.
  unfold resolve_user_key. cbn [user_key set_last_data_len].
  destruct (user_key local); [reflexivity|].
  destruct (rand_bytes 4 rnd) as [u r].
  destruct (si_param server) as [[|c p]|]; try reflexivity.
  destruct (strchr (c :: p) 58); [|reflexivity].
  destruct (_ || _); reflexivity.
Qed.

(** The initial chunk does not depend on [last_data_len]. *)
Lemma pack_auth_data_last_data_len now global server local data rnd n :
  auth_aes128_sha1_pack_auth_data now global server (set_last_data_len local n) data rnd
  = match auth_aes128_sha1_pack_auth_data now global server local data rnd with
    | Some a => Some (mk_auth (au_size a) (au_data a) (au_global a)
                              (set_last_data_len (au_local a) n) (au_rand a))
    | None => None
    end.
Proof.
  unfold auth_aes128_sha1_pack_auth_data.
  destruct (xorshift128plus rnd) as [x rnd1].
  destruct (rand_bytes _ rnd1) as [rd rnd2].
  destruct (step_connection_id global rnd2) as [g' rnd3].
  rewrite resolve_user_key_last_data_len.
  destruct (resolve_user_key server local rnd3) as [[l' rnd4]|]; [|reflexivity].
  destruct (rand_bytes 1 rnd4) as [b0 rnd5]. reflexivity.
Qed.

Lemma resolve_user_key_fits server local rnd :
  (user_key local = None -> param_fits (si_param server) = true) ->
  exists local' rnd',
    resolve_user_key server local rnd = Some (local', rnd')
    /\ pack_id local' = pack_id local
    /\ has_sent_header local' = has_sent_header local.
Proof.
  intros Hfit.
  destruct (user_key local) as [k|] eqn:Ek.
  - exists local, rnd. unfold resolve_user_key. rewrite Ek. repeat split.
  - destruct (resolve_user_key_total server local rnd (Hfit eq_refl))
      as (local' & rnd' & Hres).
    exists local', rnd'. split; [exact Hres|].
    unfold resolve_user_key in Hres. rewrite Ek in Hres.
    destruct (rand_bytes 4 rnd) as [u r].
    destruct (si_param server) as [[|c p]|]; try (inversion Hres; subst; split; reflexivity).
    destruct (strchr (c :: p) 58); [|inversion Hres; subst; split; reflexivity].
    destruct (_ || _); [discriminate | inversion Hres; subst; split; reflexivity].
Qed.

Lemma head_firstn (s : list Z) :
  let n := Z.of_nat (length s) in
  firstn (Z.to_nat (if 1200 >? n then n else 1200)) s = firstn 1200 s
  /\ skipn (Z.to_nat (if 1200 >? n then n else 1200)) s = skipn 1200 s.
Proof.
  cbn zeta. destruct (Z.gtb_spec 1200 (Z.of_nat (length s))) as [H|H].
  - rewrite Nat2Z.id. rewrite firstn_all, skipn_all.
    rewrite firstn_all2, skipn_all2 by lia. split; reflexivity.
  - change (Z.to_nat 1200) with 1200%nat. split; reflexivity.
Qed.

Lemma pre_encrypt_first_total now global server local s rnd :
  has_sent_header local = false -> s <> [] ->
  (user_key local = None -> param_fits (si_param server) = true) ->
  exists a r,
    auth_aes128_sha1_pack_auth_data now global server local (firstn 1200 s) rnd
    = Some a
    /\ auth_aes128_sha1_client_pre_encrypt now global server local s rnd = Some r
    /\ has_sent_header (pre_local r) = true
    /\ user_key (pre_local r) = user_key (au_local a)
    /\ pack_id (au_local a) = pack_id local.
Proof.
  intros Hh Hs Hfit.
  assert (Hn : 0 < Z.of_nat (length s)) by (destruct s; [congruence | cbn [length]; lia]).
  set (g := step_connection_id global
              (snd (rand_bytes (auth_rand_len (Z.of_nat (length (firstn 1200 s))) rnd)
                               (snd (xorshift128plus rnd))))).
  destruct (resolve_user_key_fits server local (snd g) Hfit)
    as (local' & rnd4 & Hres & Hid & Hh').
  destruct (pack_auth_data_shape now global server local (firstn 1200 s) rnd
              local' rnd4 Hres) as (a & Ha & _ & _ & _ & Hloc & _).
  exists a.
  unfold auth_aes128_sha1_client_pre_encrypt. rewrite Hh.
  destruct (Z.gtb_spec (Z.of_nat (length s)) 0); [|lia]. cbn [negb andb].
  destruct (head_firstn s) as [-> ->]. rewrite Ha.
  destruct (pack_loop _ _ _ _ _ _) as [[[c1 d2] l2] r2] eqn:Erun.
  apply pack_loop_sent_header in Erun as [E1 E2].
  destruct (Z.of_nat (length d2) >? 0); eexists; (split; [reflexivity|]);
    (split; [reflexivity|]); cbn [pre_local]; rewrite ?pack_data_local; cbn;
    rewrite E1, E2; cbn; repeat split; congruence.
Qed.

Lemma pre_encrypt_first_stream now global server local s rnd a uk :
  has_sent_header local = false -> s <> [] ->
  auth_aes128_sha1_pack_auth_data now global server local (firstn 1200 s) rnd
  = Some a ->
  user_key_bytes (au_local a) = uk -> Z.of_nat (length uk) + 4 < 256 ->
  exists r fs,
    auth_aes128_sha1_client_pre_encrypt now global server local s rnd = Some r
    /\ (forall tail, pre_output r ++ frame_stream uk (pack_id (pre_local r)) tail
                     = au_data a ++ frame_stream uk (pack_id (au_local a)) (fs ++ tail))
    /\ Forall frame_ok fs
    /\ payloads fs = skipn 1200 s.
Proof.
  intros Hh Hs Ha Hk Hl.
  assert (Hn : 0 < Z.of_nat (length s)) by (destruct s; [congruence | cbn [length]; lia]).
  unfold auth_aes128_sha1_client_pre_encrypt. rewrite Hh.
  destruct (Z.gtb_spec (Z.of_nat (length s)) 0); [|lia]. cbn [negb andb].
  destruct (head_firstn s) as [-> ->]. rewrite Ha.
  set (local1 := set_sent_header (au_local a)).
  destruct (pack_loop_stream uk (Z.of_nat (length s)) server (length (skipn 1200 s))
              (skipn 1200 s) local1 (au_rand a) Hk Hl (Nat.le_refl _))
    as (chunks & data' & local' & rnd' & fs & Erun & Estream & Hfs & Hdata & Hlen & Hk').
  rewrite Erun.
  destruct (Z.gtb_spec (Z.of_nat (length data')) 0) as [Hpos|Hzero].
  - set (r := auth_aes128_sha1_pack_data data' (Z.of_nat (length s)) server local' rnd').
    destruct (pack_data_frame data' (Z.of_nat (length s)) server local' rnd' uk Hk' Hl Hlen)
      as (rl & rd & Ec & Hok). fold r in Ec.
    pose proof (pack_data_local data' (Z.of_nat (length s)) server local' rnd') as El.
    fold r in El.
    eexists _, (fs ++ [(rl, rd, data')]).
    refine (conj eq_refl (conj _ (conj _ _))).
    + intros tail. unfold pre_output. cbn [pre_chunks pre_local app concat].
      rewrite concat_app. cbn [concat]. rewrite app_nil_r, <- !app_assoc.
      f_equal. change (pack_id (au_local a)) with (pack_id local1).
      rewrite <- Estream. f_equal. cbn [app frame_stream].
      rewrite Ec, El. reflexivity.
    + apply Forall_app. split; [assumption | constructor; [assumption | constructor]].
    + rewrite payloads_app. unfold payloads at 2. cbn. rewrite app_nil_r.
      now symmetry.
  - destruct data'; [|cbn in Hzero; lia].
    eexists _, fs.
    refine (conj eq_refl (conj _ (conj _ _))); try assumption.
    + intros tail. unfold pre_output. cbn [pre_chunks pre_local app concat].
      rewrite app_nil_r, <- app_assoc. f_equal.
      change (pack_id (au_local a)) with (pack_id local1). apply Estream.
    + rewrite app_nil_r in Hdata. now symmetry.
Qed.

Lemma skipn_head_app (k : nat) (s t : list Z) :
  skipn (length (firstn k s)) (s ++ t) = skipn k s ++ t.
Proof.
  rewrite skipn_app, length_firstn.
  destruct (Nat.le_ge_cases k (length s)) as [H|H].
  - rewrite Nat.min_l by lia.
    replace (k - length s)%nat with 0%nat by lia. reflexivity.
  - rewrite Nat.min_r by lia. rewrite Nat.sub_diag, skipn_all.
    rewrite (skipn_all2 s) by lia. reflexivity.
Qed.

(** The stream of a sequence of calls on an instance that has yet to send
    its header: the initial chunk of the first buffer that is not empty,
    then data frames for everything behind the head. *)
Lemma pre_encrypt_pieces_fresh now server sent :
  forall global local rnd,
  has_sent_header local = false ->
  (user_key local = None -> param_fits (si_param server) = true) ->
  exists auth wire g l rn,
    pre_encrypt_pieces now global server local sent rnd
    = Some (auth ++ wire, g, l, rn)
    /\ (first_head sent = [] -> auth = [] /\ user_key l = user_key local)
    /\ (first_head sent <> [] ->
        exists a,
          auth_aes128_sha1_pack_auth_data now global server local
            (first_head sent) rnd = Some a
          /\ auth = au_data a /\ user_key l = user_key (au_local a))
    /\ (Z.of_nat (length (user_key_bytes l)) + 4 < 256 ->
        exists fs,
          wire = frame_stream (user_key_bytes l) (pack_id local) fs
          /\ Forall frame_ok fs
          /\ payloads fs = skipn (length (first_head sent)) (concat sent)).
Proof.
  induction sent as [|s more IH]; intros global local rnd Hh Hfit.
  - exists [], [], global, local, rnd. cbn.
    refine (conj eq_refl (conj (fun _ => conj eq_refl eq_refl) (conj _ _))).
    + intros H. now contradiction H.
    + intros _. exists []. repeat split. constructor.
  - destruct s as [|x s'].
    + cbn [pre_encrypt_pieces first_head]. rewrite pre_encrypt_blank.
      cbn [pre_global pre_local pre_rand pre_output pre_chunks concat app].
      destruct (IH global (set_last_data_len local 0) rnd Hh Hfit)
        as (auth & wire & g & l & rn & Erun & Hnil & Hauth & Hwire).
      rewrite Erun. exists auth, wire, g, l, rn.
      refine (conj eq_refl (conj Hnil (conj _ Hwire))).
      intros Hne. destruct (Hauth Hne) as (a & Ha & Eauth & Ek).
      rewrite pack_auth_data_last_data_len in Ha.
      destruct (auth_aes128_sha1_pack_auth_data now global server local
                  (first_head more) rnd) as [a'|]; [|discriminate].
      exists a'. inversion Ha; subst a. cbn in *. repeat split; assumption.
    + set (s := x :: s') in *.
      assert (Hs : s <> []) by discriminate.
      assert (Hhead : first_head (s :: more) = firstn 1200 s) by reflexivity.
      rewrite Hhead.
      destruct (pre_encrypt_first_total now global server local s rnd Hh Hs Hfit)
        as (a & r & Ha & Er & Hh' & Hk' & Hid).
      destruct (pre_encrypt_pieces_sent_total now server more (pre_global r)
                  (pre_local r) (pre_rand r) Hh')
        as (out & g & l & rn & Erun & Hkl).
      assert (Hsplit : exists rest, pre_output r = au_data a ++ rest).
      { clear - Ha Er Hh Hs.
        assert (Hn : 0 < Z.of_nat (length s))
          by (destruct s; [congruence | cbn [length]; lia]).
        unfold auth_aes128_sha1_client_pre_encrypt in Er. rewrite Hh in Er.
        destruct (Z.gtb_spec (Z.of_nat (length s)) 0); [|lia]. cbn [negb andb] in Er.
        destruct (head_firstn s) as [E1 E2]. rewrite E1, E2, Ha in Er.
        destruct (pack_loop _ _ _ _ _ _) as [[[c1 d2] l2] r2].
        destruct (Z.of_nat (length d2) >? 0); inversion Er; subst r;
          unfold pre_output; cbn [pre_chunks app concat]; eauto. }
      destruct Hsplit as (rest & Hrest).
      cbn [pre_encrypt_pieces]. rewrite Er, Erun, Hrest, <- app_assoc.
      exists (au_data a), (rest ++ out), g, l, rn.
      refine (conj eq_refl (conj _ (conj _ _))).
      * intros Hnil. exfalso. subst s. discriminate Hnil.
      * intros _. exists a. repeat split; [assumption | congruence].
      * intros Hl.
        assert (Ekey : user_key_bytes l = user_key_bytes (au_local a))
          by (unfold user_key_bytes; rewrite Hkl, Hk'; reflexivity).
        assert (Ekey' : user_key_bytes (pre_local r) = user_key_bytes l)
          by (unfold user_key_bytes; rewrite Hkl; reflexivity).
        destruct (pre_encrypt_first_stream now global server local s rnd a
                    (user_key_bytes l) Hh Hs Ha (eq_sym Ekey) Hl)
          as (r' & fs1 & Er' & Estream & Hfs1 & Hpay1).
        rewrite Er in Er'. inversion Er'; subst r'. clear Er'.
        destruct (pre_encrypt_pieces_stream now server (user_key_bytes l) more
                    (pre_global r) (pre_local r) (pre_rand r) Hh' Ekey' Hl)
          as (out' & g' & l' & rn' & fs2 & Erun' & Eout & Hfs2 & Hpay2).
        rewrite Erun in Erun'. injection Erun' as E1 _ _ _.
        rewrite <- E1 in Eout. clear E1.
        exists (fs1 ++ fs2).
        refine (conj _ (conj _ _)).
        -- apply (app_inv_head (au_data a)).
           rewrite app_assoc, <- Hrest, Eout, Estream, Hid. reflexivity.
        -- apply Forall_app. now split.
        -- rewrite payloads_app, Hpay1, Hpay2. cbn [concat].
           symmetry. apply skipn_head_app.
Qed.

(** C1, as the code has it: whatever a sender packs in any number of calls,
    on a fresh instance or later, is decoded to exactly the bytes sent, once
    the initial chunk and the head it carries are left out.  The output is
    the initial chunk (none if the header is out already) followed by data
    frames; these frames, cut again at arbitrary boundaries into pieces of at
    most 8192 bytes, give back everything behind the head, provided the
    receiver holds the key the sender ends up with and [recv_id] starts where
    [pack_id] does. *)
Theorem data_chunks_round_trip now global server sender rnd
    (sent : list (list Z)) :
  (has_sent_header sender = false -> user_key sender = None ->
   param_fits (si_param server) = true) ->
  let head := if has_sent_header sender then [] else first_head sent in
  exists auth wire g l rn,
    pre_encrypt_pieces now global server sender sent rnd
    = Some (auth ++ wire, g, l, rn)
    /\ (head = [] -> auth = [] /\ user_key l = user_key sender)
    /\ (head <> [] ->
        exists a,
          auth_aes128_sha1_pack_auth_data now global server sender head rnd
          = Some a
          /\ auth = au_data a /\ user_key l = user_key (au_local a))
    /\ forall receiver received,
         user_key_bytes receiver = user_key_bytes l ->
         Z.of_nat (length (user_key_bytes l)) + 4 < 256 ->
         recv_id receiver = pack_id sender ->
         recv_buffer receiver = [] ->
         concat received = wire ->
         Forall (fun p => Z.of_nat (length p) <= 8192) received ->
         exists receiver',
           post_decrypt_pieces receiver received
           = Some (skipn (length head) (concat sent), receiver')
           /\ recv_buffer receiver' = [].
Proof.
  intros Hfit head.
  assert (Hstream : exists auth wire g l rn,
    pre_encrypt_pieces now global server sender sent rnd
    = Some (auth ++ wire, g, l, rn)
    /\ (head = [] -> auth = [] /\ user_key l = user_key sender)
    /\ (head <> [] ->
        exists a,
          auth_aes128_sha1_pack_auth_data now global server sender head rnd
          = Some a
          /\ auth = au_data a /\ user_key l = user_key (au_local a))
    /\ (Z.of_nat (length (user_key_bytes l)) + 4 < 256 ->
        exists fs,
          wire = frame_stream (user_key_bytes l) (pack_id sender) fs
          /\ Forall frame_ok fs
          /\ payloads fs = skipn (length head) (concat sent))).
  { subst head. destruct (has_sent_header sender) eqn:Hh.
    - destruct (pre_encrypt_pieces_sent_total now server sent global sender rnd Hh)
        as (out & g & l & rn & Erun & Hk).
      exists [], out, g, l, rn.
      refine (conj Erun (conj (fun _ => conj eq_refl Hk) (conj _ _))).
      + intros H. now contradiction H.
      + intros Hl.
        assert (Ekey : user_key_bytes sender = user_key_bytes l)
          by (unfold user_key_bytes; rewrite Hk; reflexivity).
        destruct (pre_encrypt_pieces_stream now server (user_key_bytes l) sent
                    global sender rnd Hh Ekey Hl)
          as (out' & g' & l' & rn' & fs & Erun' & Eout & Hfs & Hpay).
        rewrite Erun in Erun'. injection Erun' as E1 _ _ _.
        rewrite <- E1 in Eout. clear E1.
        exists fs. repeat split; assumption.
    - apply pre_encrypt_pieces_fresh; [exact Hh | exact (Hfit eq_refl)]. }
  destruct Hstream as (auth & wire & g & l & rn & Erun & Hnil & Hauth & Hwire).
  exists auth, wire, g, l, rn.
  refine (conj Erun (conj Hnil (conj Hauth _))).
  intros receiver received Hk Hl Hid Hbuf Hcat Hsizes.
  destruct (Hwire Hl) as (fs & Ewire & Hfs & Hpay).
  rewrite <- Hpay.
  apply post_decrypt_pieces_stream; try assumption.
  - rewrite Hbuf, Hid, Hk. cbn [app]. rewrite Hcat. assumption.
  - rewrite Hbuf. cbn. lia.
  - intros _. assumption.
Qed.

End FirstCall.

(** C1, as stated, fails on the auth-data chunk: [client_post_decrypt] reads
    it as a data frame whose length field is a multiple of 256, so it either
    reports an error or waits for more bytes, whatever the HMAC. *)
Lemma auth_chunk_round_trip_fails :
  (exists r,
     auth_aes128_sha1_client_pre_encrypt (P := test_primitives) 0 test_global
       test_server auth_aes128_sha1_new_obfs [65] zero_rand = Some r
     /\ user_key (pre_local r) = user_key test_receiver
     /\ pack_id (pre_local r) = recv_id test_receiver
     /\ post_decrypt_pieces (P := test_primitives) test_receiver [pre_output r]
        = None)
  /\ ~ exists (P : Primitives) r receiver',
         auth_aes128_sha1_client_pre_encrypt 0 test_global test_server
           auth_aes128_sha1_new_obfs [65] zero_rand = Some r
         /\ post_decrypt_pieces test_receiver [pre_output r]
            = Some ([65], receiver').
Proof.
  split.
  { eexists. split; [vm_compute; reflexivity|].
    repeat split; vm_compute; reflexivity. }
  intros (P & r & receiver' & Hr & Hrun).
  destruct (pre_encrypt_first_call_shape 0 test_global test_server
              auth_aes128_sha1_new_obfs [65] zero_rand
              ltac:(discriminate) eq_refl eq_refl)
    as (r' & a & rest & fulls & final & Hr' & Ha & Hc & Hpk & Hcat & Hfull & Hfin & _).
  rewrite Hr in Hr'. inversion Hr'; subst r'.
  assert (Hcount : Z.of_nat (length rest) = (0 + 1999) / 2000).
  { apply (data_chunk_count _ rest fulls final 0 Hpk Hfull).
    - rewrite Hcat. reflexivity.
    - destruct Hfin as [[Hf _] | Hf]; [left | right]; assumption. }
  change ((0 + 1999) / 2000) with 0 in Hcount.
  destruct rest; [|cbn [length] in Hcount; lia].
  destruct (pack_auth_data_shape 0 test_global test_server
              auth_aes128_sha1_new_obfs [65] zero_rand _ _ eq_refl)
    as (a' & Ha' & Hs & Hl & _ & _ & _ & H0 & _).
  change (auth_aes128_sha1_pack_auth_data 0 test_global test_server
            auth_aes128_sha1_new_obfs [65] zero_rand = Some a) in Ha.
  rewrite Ha in Ha'. inversion Ha'; subst a'.
  change (auth_rand_len (Z.of_nat (length [65])) zero_rand) with 0 in Hs.
  change (nth 0 (fst (rand_bytes 1 _)) 0) with 0 in H0.
  cbn [length Z.of_nat] in Hs.
  unfold pre_output in Hrun. rewrite Hc in Hrun. cbn [concat] in Hrun.
  rewrite app_nil_r in Hrun. cbn [post_decrypt_pieces] in Hrun.
  pose proof (post_decrypt_zero_first_byte test_receiver (au_data a) eq_refl
                ltac:(lia) H0) as Hpd. cbn zeta in Hpd.
  destruct (auth_aes128_sha1_client_post_decrypt test_receiver (au_data a))
    as [[len out] local'].
  cbn [fst snd] in Hpd. destruct Hpd as [-> | ->].
  - discriminate.
  - destruct (len <? 0); discriminate.
Qed.

(** C1, as the code has it: a witness on a fresh instance, with a first call
    of 1205 bytes and a second of two.  The initial chunk takes the first
    1200 bytes; the seven bytes behind them come back. *)
Lemma data_chunks_round_trip_witness :
  let sender := auth_aes128_sha1_new_obfs in
  let sent := [repeat 65 1200 ++ [1; 2; 3; 4; 5]; [6; 7]] in
  let head := if has_sent_header sender then [] else first_head sent in
  skipn (length head) (concat sent) = [1; 2; 3; 4; 5; 6; 7]
  /\ exists auth wire g l rn,
       pre_encrypt_pieces (P := test_primitives) 0 test_global test_server
         sender sent zero_rand
       = Some (auth ++ wire, g, l, rn)
       /\ (head = [] -> auth = [] /\ user_key l = user_key sender)
       /\ (head <> [] ->
           exists a,
             auth_aes128_sha1_pack_auth_data (P := test_primitives) 0
               test_global test_server sender head zero_rand
             = Some a
             /\ auth = au_data a /\ user_key l = user_key (au_local a))
       /\ forall receiver received,
            user_key_bytes receiver = user_key_bytes l ->
            Z.of_nat (length (user_key_bytes l)) + 4 < 256 ->
            recv_id receiver = pack_id sender ->
            recv_buffer receiver = [] ->
            concat received = wire ->
            Forall (fun p => Z.of_nat (length p) <= 8192) received ->
            exists receiver',
              post_decrypt_pieces (P := test_primitives) receiver received
              = Some (skipn (length head) (concat sent), receiver')
              /\ recv_buffer receiver' = [].
Proof.
  cbv zeta. split; [reflexivity|].
  apply (data_chunks_round_trip (P := test_primitives) (OK := test_primitives_ok)
           0 test_global test_server auth_aes128_sha1_new_obfs zero_rand
           [repeat 65 1200 ++ [1; 2; 3; 4; 5]; [6; 7]]).
  intros _ _. reflexivity.
Defined.

(** A run of the code on a fresh instance (with [last_data_len] 0): a first
    call of 1205 bytes gives the initial chunk of 1235 bytes and one data
    frame of 14 bytes, and the receiver decodes that frame to the five bytes
    behind the head. *)
Lemma first_call_tail_decodes :
  exists r c0 c1 receiver',
    auth_aes128_sha1_client_pre_encrypt (P := test_primitives) 0 test_global
      test_server auth_aes128_sha1_new_obfs
      (repeat 65 1200 ++ [1; 2; 3; 4; 5]) zero_rand = Some r
    /\ pre_chunks r = [c0; c1]
    /\ length c0 = 1235%nat /\ length c1 = 14%nat
    /\ post_decrypt_pieces (P := test_primitives) test_receiver [c1]
       = Some ([1; 2; 3; 4; 5], receiver')
    /\ recv_id receiver' = 2.
Proof.
  eexists _, _, _, _. split; [vm_compute; reflexivity|].
  split; [reflexivity|].
  split; [vm_compute; reflexivity|].
  split; [vm_compute; reflexivity|].
  split; vm_compute; reflexivity.
Qed.

(** C9, as stated, fails on every full unit: a 2000-byte payload gets a
    [rand_len] of 1, the one byte drawn from the oracle (7 here) is
    overwritten by the length marker 1, and the payload follows at once; the
    chunk is the same whatever the oracle delivers. *)
Lemma full_unit_carries_no_random_byte :
  let data := repeat 65 2000 in
  let chunk rnd :=
    outdata (auth_aes128_sha1_pack_data (P := test_primitives) data 2000
               test_server (set_sent_header test_receiver) rnd) in
  fst (rand_bytes 1 seven_rand) = [7]
  /\ length (chunk seven_rand) = 2009%nat
  /\ firstn 1 (skipn 4 (chunk seven_rand)) = [1]
  /\ skipn 5 (firstn 2005 (chunk seven_rand)) = data
  /\ forall rnd, chunk rnd = chunk zero_rand.
Proof.
  cbv zeta.
  split; [reflexivity|].
  split; [vm_compute; reflexivity|].
  split; [vm_compute; reflexivity|].
  split; [vm_compute; reflexivity|].
  intros rnd.
  rewrite !(pack_data_layout (P := test_primitives) (OK := test_primitives_ok)).
  rewrite !repeat_length.
  change (get_rand_len (Z.of_nat 2000) 2000 (set_sent_header test_receiver) test_server rnd)
    with (0, rnd).
  change (get_rand_len (Z.of_nat 2000) 2000 (set_sent_header test_receiver) test_server zero_rand)
    with (0, zero_rand).
  cbn [fst snd]. unfold chunk_layout.
  change (skipn (length (pad_marker (0 + 1))) (fst (rand_bytes (0 + 1) rnd)))
    with (@nil Z).
  reflexivity.
Qed.

Section GlobalCounter.
Context {P : Primitives}.

Lemma step_connection_id_spec global rnd :
  let cid := to_uint32 (connection_id global + 1) in
  let g := fst (step_connection_id global rnd) in
  (cid <= 0xFF000000 ->
     connection_id g = cid /\ local_client_id g = local_client_id global)
  /\ (0xFF000000 < cid ->
        0 <= connection_id g <= 0xFFFFFF
        /\ local_client_id g = fst (rand_bytes 8 rnd)
        /\ connection_id g
           = Z.land (le_u32 (fst (rand_bytes 4 (snd (rand_bytes 8 rnd))))) 0xFFFFFF).
Proof.
  cbn zeta. unfold step_connection_id.
  destruct (Z.gtb_spec (to_uint32 (connection_id global + 1)) 0xFF000000) as [Hgt|Hle].
  - split; [lia|]. intros _.
    destruct (rand_bytes 8 rnd) as [lcid rnd1] eqn:E8. cbn [fst snd].
    destruct (rand_bytes 4 rnd1) as [c4 rnd2] eqn:E4. cbn [fst snd connection_id local_client_id].
    pose proof (land_ones_range (le_u32 c4) 24 ltac:(lia)) as Hr.
    change (Z.ones 24) with 0xFFFFFF in Hr. change (2 ^ 24) with 16777216 in Hr.
    repeat split; try lia.
  - split; [|lia]. intros _. cbn. split; reflexivity.
Qed.

Lemma pre_encrypt_keeps_global now global server local s rnd :
  has_sent_header local = true ->
  exists r,
    auth_aes128_sha1_client_pre_encrypt now global server local s rnd = Some r
    /\ pre_global r = global.
Proof.
  intros Hh. unfold auth_aes128_sha1_client_pre_encrypt.
  rewrite Hh, andb_false_r.
  destruct (pack_loop _ _ _ _ _ _) as [[[c1 d2] l2] r2].
  destruct (Z.of_nat (length d2) >? 0); eexists; split; reflexivity.
Qed.

(** C5, as the code has it: an initial pack steps [connection_id] once; when
    the stepped value exceeds 0xFF000000 both [local_client_id] and
    [connection_id] are drawn afresh and the latter is masked to 24 bits;
    later calls on the same tunnel leave the global data alone. *)
Theorem connection_id_stepping now global server local data rnd :
  param_fits (si_param server) = true ->
  let rnd2 := snd (rand_bytes (auth_rand_len (Z.of_nat (length data)) rnd)
                              (snd (xorshift128plus rnd))) in
  let cid := to_uint32 (connection_id global + 1) in
  exists a,
    auth_aes128_sha1_pack_auth_data now global server local data rnd = Some a
    /\ (cid <= 0xFF000000 ->
          connection_id (au_global a) = cid
          /\ local_client_id (au_global a) = local_client_id global)
    /\ (0xFF000000 < cid ->
          0 <= connection_id (au_global a) <= 0xFFFFFF
          /\ local_client_id (au_global a) = fst (rand_bytes 8 rnd2)
          /\ connection_id (au_global a)
             = Z.land (le_u32 (fst (rand_bytes 4 (snd (rand_bytes 8 rnd2)))))
                      0xFFFFFF)
    /\ (forall local' s rnd',
          has_sent_header local' = true ->
          exists r,
            auth_aes128_sha1_client_pre_encrypt now (au_global a) server
              local' s rnd' = Some r
            /\ pre_global r = au_global a).
Proof.
  intros Hfit rnd2 cid.
  set (g := step_connection_id global rnd2).
  destruct (resolve_user_key_total server local (snd g) Hfit) as (local' & rnd4 & Hres).
  destruct (pack_auth_data_shape now global server local data rnd local' rnd4 Hres)
    as (a & Ha & _ & _ & Hg & _).
  exists a. split; [assumption|]. rewrite Hg.
  pose proof (step_connection_id_spec global rnd2) as [H1 H2].
  refine (conj H1 (conj H2 _)).
  intros l s r Hh. apply pre_encrypt_keeps_global. assumption.
Qed.

End GlobalCounter.

(** C5, as stated, fails at the boundary: stepping 0xFEFFFFFF reaches
    0xFF000000, and nothing is re-seeded. *)
Lemma connection_id_reaching_limit_not_reseeded :
  step_connection_id (mk_global (repeat 7 8) 0xFEFFFFFF) zero_rand
  = (mk_global (repeat 7 8) 0xFF000000, zero_rand)
  /\ ~ exists (P : Primitives) a,
         auth_aes128_sha1_pack_auth_data 0 (mk_global (repeat 7 8) 0xFEFFFFFF)
           test_server auth_aes128_sha1_new_obfs [65] zero_rand = Some a
         /\ (connection_id (au_global a) <= 0xFFFFFF
             \/ local_client_id (au_global a) <> repeat 7 8).
Proof.
  split; [reflexivity|].
  intros (P & a & Ha & Hbad).
  destruct (pack_auth_data_shape 0 (mk_global (repeat 7 8) 0xFEFFFFFF) test_server
              auth_aes128_sha1_new_obfs [65] zero_rand _ _ eq_refl)
    as (a' & Ha' & _ & _ & Hg & _).
  rewrite Ha in Ha'. inversion Ha'; subst a'.
  rewrite Hg in Hbad. cbn in Hbad. destruct Hbad as [H | H]; [lia | congruence].
Qed.

Section PostDecryptErrors.
Context {P : Primitives}.





End PostDecryptErrors.


Section CipherCreate.
Variable SSR_BUFF_SIZE : Z.
Variable ss_cipher_table : Z.
Variable get_head_size : list Z -> Z -> Z -> Z.
Variable enc_ctx_new_instance : cipher_env_t -> bool -> enc_ctx.
Variable enc_ctx_get_iv : option enc_ctx -> list Z.

(** C8, as the code has it: both plugins are handed [tcp_mss] 1452 and
    [buffer_size] SSR_BUFF_SIZE; the protocol instance is handed the sum of
    the two overheads (as a u16), the obfs instance, served first, is handed
    an overhead of 0. *)
Theorem tunnel_cipher_create_server_info env init_pkg :
  let r := tunnel_cipher_create SSR_BUFF_SIZE ss_cipher_table get_head_size
             enc_ctx_new_instance enc_ctx_get_iv env init_pkg in
  let calls := snd r in
  map fst calls
    = match obfs_plugin env with Some _ => [role_obfs] | None => [] end
      ++ match protocol_plugin env with Some _ => [role_protocol] | None => [] end
  /\ Forall (fun c => si_tcp_mss (snd c) = 1452
                      /\ si_buffer_size (snd c) = SSR_BUFF_SIZE) calls
  /\ (forall info, In (role_obfs, info) calls -> si_overhead info = 0)
  /\ (forall info, In (role_protocol, info) calls ->
        exists pp, protocol_plugin env = Some pp
          /\ si_overhead info
             = to_uint16 (get_overhead pp (new_obfs pp)
                          + plugin_overhead (obfs_plugin env) (tc_obfs (fst r)))).
Proof.
  cbn zeta. unfold tunnel_cipher_create.
  destruct (enc_method (cipher env) >? ss_cipher_table);
    destruct (obfs_plugin env) as [op|]; destruct (protocol_plugin env) as [pp|];
    cbn [fst snd map app tc_obfs plugin_overhead];
    (split; [reflexivity|]);
    (split; [repeat first [apply Forall_nil | apply Forall_cons; [split; reflexivity|]]|]);
    (split; intros info H;
     repeat match goal with
     | H : In _ (_ :: _) |- _ => destruct H as [H|H]
     | H : In _ [] |- _ => destruct H
     end; try discriminate; inversion H; subst;
     first [reflexivity | eexists; split; reflexivity]).
Qed.

End CipherCreate.

(** C8, as stated, fails for the obfs instance: with overheads 9 and 5 the
    protocol instance is handed 14 and the obfs instance 0. *)
Lemma obfs_instance_overhead_is_zero :
  map (fun c => (fst c, si_overhead (snd c))) (snd (test_create test_env [1; 1; 2; 3; 4; 0; 80]))
  = [(role_obfs, 0); (role_protocol, 14)]
  /\ get_overhead auth_aes128_sha1_manager (new_obfs auth_aes128_sha1_manager)
     + get_overhead test_obfs_manager (new_obfs test_obfs_manager) = 14.
Proof. split; reflexivity. Qed.

Lemma tunnel_cipher_create_server_info_witness :
  map fst (snd (test_create test_env [1; 1; 2; 3; 4; 0; 80]))
  = [role_obfs; role_protocol].
Proof.
  exact (proj1 (tunnel_cipher_create_server_info 2048 0 (fun _ _ d => d)
                  (fun _ _ => mk_enc_ctx 0 0 (repeat 1 16))
                  (fun e => match e with Some c => ctx_iv c | None => [] end)
                  test_env [1; 1; 2; 3; 4; 0; 80])).
Defined.

Section TunnelFacts.
Variable cipher_t : Type.
Variable tunnel_encrypt : cipher_t -> list Z -> ssr_error * list Z * cipher_t.
Variable can_access : tunnel_ctx cipher_t -> bool.
Variable uv_tcp_connect : tunnel_ctx cipher_t -> Z.
Variable other_states : tunnel_ctx cipher_t -> option (tunnel_ctx cipher_t).

(** C7, as the code has it: a failed lookup answers 05 04 ... and goes to
    kill; a connect completion with a failure status answers 05 05 ... and
    goes to kill, unless the status is UV_ECANCELED or UV_ECONNREFUSED, for
    which the callback shuts the tunnel down without an answer. *)
Theorem resolve_and_connect_failures (t : tunnel_ctx cipher_t) (status : Z)
    (ai : sa_family_t) :
  all_stopped cipher_t t = true ->
  (state cipher_t t = session_req_lookup -> status < 0 ->
     exists t', socket_getaddrinfo_done_cb cipher_t tunnel_encrypt can_access
                 uv_tcp_connect other_states t status ai = Some t'
       /\ state cipher_t t' = session_kill
       /\ actions cipher_t t'
          = actions cipher_t t
            ++ [io_write Incoming host_unreachable; io_timer_reset Incoming])
  /\ (state cipher_t t = session_req_connect -> status <> 0 ->
      status <> UV_ECANCELED -> status <> UV_ECONNREFUSED ->
      exists t', socket_connect_done_cb cipher_t tunnel_encrypt can_access
                 uv_tcp_connect other_states t status = Some t'
        /\ state cipher_t t' = session_kill
        /\ actions cipher_t t'
           = actions cipher_t t
             ++ [io_write Incoming connection_refused; io_timer_reset Incoming])
  /\ (state cipher_t t = session_req_connect ->
      status = UV_ECANCELED \/ status = UV_ECONNREFUSED ->
      exists t', socket_connect_done_cb cipher_t tunnel_encrypt can_access
                 uv_tcp_connect other_states t status = Some t'
        /\ state cipher_t t' = session_dead
        /\ actions cipher_t t'
           = actions cipher_t t
             ++ [io_close_handle Incoming; io_close_timer Incoming;
                 io_close_handle Outgoing; io_close_timer Outgoing]).
Proof.
  intros Hstop.
  destruct t as [st [ird iwr ires ifam iport] [ord owr ores ofam oport] rc dp pkg k acts].
  unfold all_stopped in Hstop. cbn in Hstop.
  destruct ird, iwr, ord, owr; try discriminate. clear Hstop.
  refine (conj _ (conj _ _)); cbn [state]; intros ->.
  - intros Hneg. unfold socket_getaddrinfo_done_cb. cbn.
    destruct (Z.eqb_spec status 0); [lia|].
    cbn. destruct (Z.ltb_spec status 0); [|lia].
    eexists. split; [reflexivity | split; reflexivity].
  - intros Hnz Hnc Hnr. unfold socket_connect_done_cb. cbn.
    destruct (Z.eqb_spec status UV_ECANCELED); [contradiction|].
    destruct (Z.eqb_spec status UV_ECONNREFUSED); [contradiction|].
    cbn. destruct (Z.eqb_spec status 0); [contradiction|].
    eexists. split; [reflexivity | split; reflexivity].
  - intros [-> | ->]; cbn; eexists;
      (split; [reflexivity | split; [reflexivity | cbn; now rewrite <- app_assoc]]).
Qed.

End TunnelFacts.

(** C7, as stated, fails for a refused connection: the completion callback
    shuts the tunnel down and nothing is written to the client. *)
Lemma refused_connect_sends_no_reply :
  exists t',
    test_connect_done (test_tunnel session_req_connect) UV_ECONNREFUSED = Some t'
    /\ state unit t' = session_dead
    /\ actions unit t'
       = [io_close_handle Incoming; io_close_timer Incoming;
          io_close_handle Outgoing; io_close_timer Outgoing].
Proof. eexists. repeat split. Qed.

Lemma resolve_and_connect_failures_witness :
  all_stopped unit (test_tunnel session_req_lookup) = true
  /\ exists t',
       test_getaddrinfo_done (test_tunnel session_req_lookup) (-3008) = Some t'
       /\ state unit t' = session_kill
       /\ actions unit t'
          = [io_write Incoming host_unreachable; io_timer_reset Incoming].
Proof.
  split; [reflexivity|].
  apply (proj1 (resolve_and_connect_failures unit (fun k pkg => (ssr_ok, pkg, k))
                  (fun _ => true) (fun _ => 0) (fun _ => None)
                  (test_tunnel session_req_lookup) (-3008) AF_UNSPEC eq_refl));
    [reflexivity | lia].
Defined.

Lemma digits_value_fold (d : list Z) :
  Forall (fun c => is_digit c = true) d ->
  forall acc, digits_value acc d
              = fold_left (fun a c => 10 * a + (c - 48)) d acc.
Proof.
  induction 1 as [|c d Hc _ IH]; intros acc; [reflexivity|].
  cbn [digits_value fold_left]. rewrite Hc. apply IH.
Qed.

Lemma decimal_fold_bound (d : list Z) :
  Forall (fun c => is_digit c = true) d ->
  forall acc, 0 <= acc ->
  0 <= fold_left (fun a c => 10 * a + (c - 48)) d acc
    < (acc + 1) * 10 ^ Z.of_nat (length d).
Proof.
  induction 1 as [|c d Hc _ IH]; intros acc Hacc.
  - cbn. lia.
  - cbn [fold_left length]. unfold is_digit in Hc.
    apply andb_true_iff in Hc as [H1 H2]. apply Z.leb_le in H1, H2.
    specialize (IH (10 * acc + (c - 48)) ltac:(lia)).
    rewrite Nat2Z.inj_succ, Z.pow_succ_r by lia.
    assert (0 < 10 ^ Z.of_nat (length d)) by (apply Z.pow_pos_nonneg; lia).
    nia.
Qed.

Lemma strtol10_decimal (d : list Z) :
  Forall (fun c => is_digit c = true) d -> (length d <= 15)%nat ->
  strtol10 d = decimal_value d /\ 0 <= decimal_value d < 10 ^ 15.
Proof.
  intros Hd Hl.
  pose proof (decimal_fold_bound d Hd 0 ltac:(lia)) as Hb. fold (decimal_value d) in Hb.
  assert (Hp : 10 ^ Z.of_nat (length d) <= 10 ^ 15)
    by (apply Z.pow_le_mono_r; lia).
  split; [|lia].
  unfold strtol10. destruct d as [|c d]; [reflexivity|].
  inversion Hd as [|? ? Hc Hd']; subst.
  assert (Hc' := Hc). unfold is_digit in Hc'.
  apply andb_true_iff in Hc' as [H1 H2]. apply Z.leb_le in H1, H2.
  cbn [skip_space]. unfold is_space.
  destruct (Z.eqb_spec c 32); [lia|].
  destruct (Z.leb_spec 9 c); [|lia]. destruct (Z.leb_spec c 13); [lia|]. cbn [andb orb].
  destruct (Z.eqb_spec c 45); [lia|]. destruct (Z.eqb_spec c 43); [lia|].
  rewrite (digits_value_fold (c :: d) Hd 0). fold (decimal_value (c :: d)).
  unfold LONG_MAX. change (10 ^ 15) with 1000000000000000 in *.
  change (2 ^ 63 - 1) with 9223372036854775807. lia.
Qed.

Section KeyResolution.
Context {P : Primitives}.

Lemma resolve_user_key_param server local rnd d k :
  user_key local = None ->
  si_param server = Some (d ++ 58 :: k) -> strchr d 58 = None ->
  param_fits (si_param server) = true ->
  resolve_user_key server local rnd
  = Some (set_user_key local (memintcopy_lt (to_uint32 (strtol10 d)))
                       (firstn (Z.to_nat (hash_len local)) (hash k)), rnd).
Proof.
  intros Hn Hp Hd Hfit. unfold resolve_user_key. rewrite Hn.
  destruct (rand_bytes 4 rnd) as [u r].
  unfold param_fits in Hfit. rewrite Hp in *.
  rewrite (strchr_app d k 58 Hd) in *.
  apply andb_true_iff in Hfit as [H1 H2]. apply Z.leb_le in H1, H2.
  rewrite length_app in H2. cbn [length] in H2.
  destruct (d ++ 58 :: k) as [|c p] eqn:E; [destruct d; discriminate|].
  rewrite <- E.
  rewrite firstn_app_exact by reflexivity.
  replace (skipn (S (length d)) (d ++ 58 :: k)) with k
    by (change (58 :: k) with ([58] ++ k); rewrite app_assoc, skipn_app_exact;
        [reflexivity | rewrite length_app; cbn; lia]).
  destruct (Z.ltb_spec 15 (Z.of_nat (length d))); [lia|].
  destruct (Z.ltb_spec 127 (Z.of_nat (length k))); [lia|].
  reflexivity.
Qed.

Lemma resolve_user_key_fallback server local rnd :
  user_key local = None ->
  (forall p, si_param server = Some p -> strchr p 58 = None) ->
  resolve_user_key server local rnd
  = Some (set_user_key local (fst (rand_bytes 4 rnd)) (si_key server),
          snd (rand_bytes 4 rnd)).
Proof.
  intros Hn Hp. unfold resolve_user_key. rewrite Hn.
  destruct (rand_bytes 4 rnd) as [u r]. cbn [fst snd].
  destruct (si_param server) as [[|c p]|]; try reflexivity.
  rewrite (Hp (c :: p) eq_refl). reflexivity.
Qed.

Lemma auth_hmac_key_full server :
  Z.of_nat (length (si_iv server)) + Z.of_nat (length (si_key server)) < 256 ->
  auth_hmac_key server = si_iv server ++ si_key server.
Proof.
  intros H. unfold auth_hmac_key, to_uint8.
  rewrite Z.mod_small by (change (2 ^ 8) with 256; lia).
  apply firstn_all2. rewrite length_app. lia.
Qed.

End KeyResolution.

Section AuthChunk.
Context {P : Primitives} {OK : PrimitivesOk P}.

(** C3, as the code has it: sizes and offsets of the initial chunk, the
    24-byte block at offset 7, and the user key.  A parameter that contains a
    colon always takes the first branch, with [uid] the [strtol] reading of
    what precedes the colon (its decimal value when that is a number);
    the fallback is taken when the parameter is NULL, empty or has no colon. *)
Theorem auth_data_chunk_layout now global server local data rnd :
  user_key local = None ->
  param_fits (si_param server) = true ->
  Z.of_nat (length (si_iv server)) + Z.of_nat (length (si_key server)) < 256 ->
  let n := Z.of_nat (length data) in
  let x := fst (xorshift128plus rnd) in
  let rand_len := if n >? 400 then Z.land x 0x1FF else Z.land x 0x3FF in
  let data_offset := rand_len + 31 in
  let rnd2 := snd (rand_bytes rand_len (snd (xorshift128plus rnd))) in
  let g := step_connection_id global rnd2 in
  exists a,
    auth_aes128_sha1_pack_auth_data now global server local data rnd = Some a
    /\ au_size a = data_offset + n + 4
    /\ Z.of_nat (length (au_data a)) = au_size a
    /\ firstn (length data) (skipn (Z.to_nat data_offset) (au_data a)) = data
    /\ (let u := uid (au_local a) in
        let E := ss_aes_128_cbc
                   (firstn 16 (auth_plain_block now (fst g) (au_size a) rand_len))
                   (auth_enc_key (au_local a)) in
        length u = 4%nat /\ length E = 16%nat
        /\ firstn 24 (skipn 7 (au_data a))
           = u ++ E ++ firstn 4 (hmac (u ++ E) (si_iv server ++ si_key server)))
    /\ (forall d k,
          si_param server = Some (d ++ 58 :: k) -> strchr d 58 = None ->
          uid (au_local a) = memintcopy_lt (to_uint32 (strtol10 d))
          /\ user_key (au_local a)
             = Some (firstn (Z.to_nat (hash_len local)) (hash k))
          /\ (Forall (fun c => is_digit c = true) d ->
              strtol10 d = decimal_value d))
    /\ ((forall p, si_param server = Some p -> strchr p 58 = None) ->
          uid (au_local a) = fst (rand_bytes 4 (snd g))
          /\ user_key (au_local a) = Some (si_key server)).
Proof.
  intros Hn Hfit Hkey n x rand_len data_offset rnd2 g.
  destruct (resolve_user_key_total server local (snd g) Hfit) as (local' & rnd4 & Hres).
  destruct (resolve_user_key_uid server local (snd g) local' rnd4 Hres Hn) as [Hu _].
  destruct (pack_auth_data_shape now global server local data rnd local' rnd4 Hres)
    as (a & Ha & Hs & Hl & Hg & Hloc & _).
  destruct (pack_auth_data_layout now global server local data rnd local' rnd4 Hres Hu)
    as (a' & Ha' & Hblock & Hdata & _).
  rewrite Ha in Ha'. inversion Ha'; subst a'. clear Ha'.
  exists a. split; [assumption|].
  change (auth_rand_len (Z.of_nat (length data)) rnd) with rand_len in *.
  fold n in Hs. rewrite (auth_hmac_key_full server Hkey) in Hblock.
  rewrite !Hloc. clear Hloc.
  refine (conj _ (conj Hl (conj Hdata (conj _ (conj _ _))))).
  - subst data_offset. lia.
  - cbn zeta. refine (conj Hu (conj (aes_length _ _) Hblock)).
  - intros d k Hp Hd.
    rewrite (resolve_user_key_param server local (snd g) d k Hn Hp Hd Hfit) in Hres.
    inversion Hres; subst local' rnd4.
    refine (conj eq_refl (conj eq_refl _)).
    intros Hdig. apply strtol10_decimal; [assumption|].
    unfold param_fits in Hfit. rewrite Hp, (strchr_app d k 58 Hd) in Hfit.
    apply andb_true_iff in Hfit as [H1 _]. apply Z.leb_le in H1. lia.
  - intros Hp.
    rewrite (resolve_user_key_fallback server local (snd g) Hn Hp) in Hres.
    inversion Hres; subst local' rnd4. split; reflexivity.
Qed.

End AuthChunk.

(** C3, as stated, fails for a parameter such as "abc:def", which is not of
    the form uid:key with a decimal uid and still does not fall back: the uid
    is 0, not four random bytes (all 7 on this oracle), and the user key is a
    digest of at most 20 bytes, not the 32-byte server key. *)
Lemma non_decimal_uid_is_not_a_fallback :
  (exists a,
     auth_aes128_sha1_pack_auth_data (P := test_primitives) 0 test_global
       abc_server auth_aes128_sha1_new_obfs [65] seven_rand = Some a
     /\ uid (au_local a) = [0; 0; 0; 0]
     /\ user_key (au_local a) = Some (repeat 47 20))
  /\ ~ exists (P : Primitives) a,
         auth_aes128_sha1_pack_auth_data 0 test_global abc_server
           auth_aes128_sha1_new_obfs [65] seven_rand = Some a
         /\ (uid (au_local a) = [7; 7; 7; 7]
             \/ user_key (au_local a) = Some (si_key abc_server)).
Proof.
  split.
  - eexists. split; [vm_compute; reflexivity|]. split; vm_compute; reflexivity.
  - intros (P & a & Ha & Hbad).
    destruct (pack_auth_data_shape 0 test_global abc_server
                auth_aes128_sha1_new_obfs [65] seven_rand _ _ eq_refl)
      as (a' & Ha' & _ & _ & _ & Hloc & _).
    rewrite Ha in Ha'. inversion Ha'; subst a'.
    rewrite Hloc in Hbad. destruct Hbad as [H | H].
    + vm_compute in H. discriminate.
    + pose proof (firstn_le_length 20 (hash [100; 101; 102])) as Hl.
      assert (E : firstn 20 (hash [100; 101; 102]) = repeat 2 32)
        by (injection H; intros E; exact E).
      rewrite E, repeat_length in Hl. lia.
Qed.

Lemma data_chunks_length_field_witness :
  param_fits (si_param test_server) = true
  /\ exists r,
       auth_aes128_sha1_client_pre_encrypt (P := test_primitives) 0 test_global
         test_server (set_sent_header test_receiver) [104; 105] zero_rand = Some r
       /\ Forall length_field_ok (pre_chunks r).
Proof.
  split; [reflexivity|].
  exact (data_chunks_length_field (P := test_primitives) 0 test_global test_server
           (set_sent_header test_receiver) [104; 105] zero_rand eq_refl).
Defined.

Lemma pre_encrypt_first_call_witness :
  [104; 105; 33] <> []
  /\ has_sent_header auth_aes128_sha1_new_obfs = false
  /\ param_fits (si_param test_server) = true
  /\ exists r,
       auth_aes128_sha1_client_pre_encrypt (P := test_primitives) 0 test_global
         test_server auth_aes128_sha1_new_obfs [104; 105; 33] zero_rand = Some r
       /\ Z.of_nat (length (pre_chunks r)) = 1
       /\ last_data_len (pre_local r) = 3.
Proof.
  split; [discriminate|]. split; [reflexivity|]. split; [reflexivity|].
  destruct (pre_encrypt_first_call (P := test_primitives) 0 test_global test_server
              auth_aes128_sha1_new_obfs [104; 105; 33] zero_rand
              ltac:(discriminate) eq_refl eq_refl)
    as (r & a & rest & fulls & final & Hr & _ & _ & _ & _ & _ & _ & Hc & Hl & _).
  exists r. split; [exact Hr|]. split; [exact Hc | exact Hl].
Defined.

Lemma connection_id_stepping_witness :
  param_fits (si_param test_server) = true
  /\ exists a,
       auth_aes128_sha1_pack_auth_data (P := test_primitives) 0 test_global
         test_server auth_aes128_sha1_new_obfs [65] zero_rand = Some a
       /\ connection_id (au_global a) = 2
       /\ local_client_id (au_global a) = local_client_id test_global.
Proof.
  split; [reflexivity|].
  destruct (connection_id_stepping (P := test_primitives) 0 test_global test_server
              auth_aes128_sha1_new_obfs [65] zero_rand eq_refl)
    as (a & Ha & Hstep & _).
  exists a. split; [exact Ha|]. apply Hstep. vm_compute. discriminate.
Defined.

Lemma auth_data_chunk_layout_witness :
  user_key auth_aes128_sha1_new_obfs = None
  /\ param_fits (si_param uid_server) = true
  /\ Z.of_nat (length (si_iv uid_server)) + Z.of_nat (length (si_key uid_server)) < 256
  /\ exists a,
       auth_aes128_sha1_pack_auth_data (P := test_primitives) 0 test_global
         uid_server auth_aes128_sha1_new_obfs [65] zero_rand = Some a
       /\ au_size a = 36
       /\ uid (au_local a) = [42; 0; 0; 0]
       /\ user_key (au_local a)
          = Some (firstn 20 (hash (Primitives := test_primitives)
                                   [115; 101; 99; 114; 101; 116])).
Proof.
  split; [reflexivity|]. split; [reflexivity|]. split; [vm_compute; reflexivity|].
  destruct (auth_data_chunk_layout (P := test_primitives) (OK := test_primitives_ok)
              0 test_global uid_server auth_aes128_sha1_new_obfs [65] zero_rand
              eq_refl eq_refl ltac:(vm_compute; reflexivity))
    as (a & Ha & Hs & _ & _ & _ & Hparam & _).
  exists a. split; [exact Ha|]. split; [exact Hs|].
  destruct (Hparam [52; 50] [115; 101; 99; 114; 101; 116] eq_refl eq_refl)
    as (Hu & Hk & _).
  split; [exact Hu | exact Hk].
Defined.

(** * Further properties of the code *)

Section GlobalInvariant.
Context {P : Primitives}.

Lemma pack_auth_data_global now global server local data rnd a :
  auth_aes128_sha1_pack_auth_data now global server local data rnd = Some a ->
  exists rnd2, au_global a = fst (step_connection_id global rnd2).
Proof.
  unfold auth_aes128_sha1_pack_auth_data.
  destruct (xorshift128plus rnd) as [x rnd1].
  destruct (rand_bytes _ rnd1) as [rd rnd2].
  destruct (step_connection_id global rnd2) as [g' rnd3] eqn:Eg.
  destruct (resolve_user_key server local rnd3) as [[l' rnd4]|]; [|discriminate].
  destruct (rand_bytes 1 rnd4) as [b0 rnd5].
  intros H. inversion H; subst a. cbn [au_global].
  exists rnd2. now rewrite Eg.
Qed.

Lemma init_data_spec rnd :
  let g := fst (auth_simple_init_data rnd) in
  0 <= connection_id g <= 0xFFFFFF /\ length (local_client_id g) = 8%nat.
Proof.
  cbn zeta. unfold auth_simple_init_data.
  pose proof (rand_bytes_length 8 rnd) as L8.
  destruct (rand_bytes 8 rnd) as [lcid rnd1]. cbn [fst] in L8.
  destruct (rand_bytes 4 rnd1) as [c4 rnd2].
  cbn [fst connection_id local_client_id].
  pose proof (land_ones_range (le_u32 c4) 24 ltac:(lia)) as Hr.
  change (Z.ones 24) with 0xFFFFFF in Hr. change (2 ^ 24) with 16777216 in Hr.
  split; [lia | exact L8].
Qed.

Lemma step_connection_id_bound g rnd :
  0 <= connection_id g <= 0xFF000000 -> length (local_client_id g) = 8%nat ->
  let g' := fst (step_connection_id g rnd) in
  0 <= connection_id g' <= 0xFF000000 /\ length (local_client_id g') = 8%nat
  /\ (connection_id g < 0xFF000000 ->
      connection_id g' = connection_id g + 1
      /\ local_client_id g' = local_client_id g).
Proof.
  intros Hc Hl. cbn zeta.
  pose proof (step_connection_id_spec g rnd) as [H1 H2]. cbn zeta in H1, H2.
  assert (Hw : to_uint32 (connection_id g + 1) = connection_id g + 1).
  { unfold to_uint32. apply Z.mod_small. lia. }
  rewrite Hw in H1, H2.
  destruct (Z.le_gt_cases (connection_id g + 1) 0xFF000000) as [Hle | Hgt].
  - destruct (H1 Hle) as [Ec El]. rewrite Ec, El.
    refine (conj _ (conj Hl _)); [lia | intros _; split; reflexivity].
  - destruct (H2 Hgt) as (Hr & El & _). rewrite El.
    refine (conj _ (conj (rand_bytes_length 8 rnd) _)); [lia | intros; lia].
Qed.

(** X1: in every plugin-global block the code can produce, the one
    [auth_simple_init_data] makes stepped by any number of initial packs, the
    connection counter stays within [0, 0xFF000000] and the client id holds 8
    bytes; so the increment of the next initial pack never wraps the 32-bit
    counter. *)
Theorem connection_id_never_wraps g :
  global_reachable g ->
  0 <= connection_id g <= 0xFF000000
  /\ length (local_client_id g) = 8%nat
  /\ to_uint32 (connection_id g + 1) = connection_id g + 1.
Proof.
  intros H.
  assert (Hinv : 0 <= connection_id g <= 0xFF000000
                 /\ length (local_client_id g) = 8%nat).
  { induction H as [rnd | g now server local data rnd a Hg IH Ha].
    - pose proof (init_data_spec rnd) as [Hc Hl]. cbn zeta in *. split; [lia | exact Hl].
    - destruct IH as [Hc Hl].
      destruct (pack_auth_data_global _ _ _ _ _ _ _ Ha) as [rnd2 ->].
      pose proof (step_connection_id_bound g rnd2 Hc Hl) as (Hc' & Hl' & _).
      split; assumption. }
  destruct Hinv as [Hc Hl]. refine (conj Hc (conj Hl _)).
  unfold to_uint32. apply Z.mod_small. lia.
Qed.

End GlobalInvariant.

Section UdpPreEncrypt.
Context {P : Primitives} {OK : PrimitivesOk P}.

Lemma udp_packet_layout (data u k : list Z) :
  length u = 4%nat ->
  let n := Z.of_nat (length data) in
  let out2 := memcpy (memcpy (repeat 0 (Z.to_nat (n + 8))) 0 data)
                     (Z.to_nat n) (firstn 4 u) in
  memcpy out2 (Z.to_nat (n + 8 - 4))
         (firstn 4 (hmac (firstn (Z.to_nat (n + 8 - 4)) out2) k))
  = data ++ u ++ firstn 4 (hmac (data ++ u) k).
Proof.
  intros Hu n. cbn zeta. subst n.
  rewrite (firstn_all2 (n := 4) u) by lia.
  replace (Z.to_nat (Z.of_nat (length data) + 8))
    with (length data + (4 + 4))%nat by lia.
  rewrite !repeat_app.
  set (zn := repeat 0 (length data)). set (z4 := repeat 0 4).
  assert (Ln : length zn = length data) by apply repeat_length.
  assert (L4 : length z4 = 4%nat) by apply repeat_length.
  clearbody zn z4.
  rewrite memcpy_front by lia.
  replace (Z.to_nat (Z.of_nat (length data))) with (length data) by lia.
  rewrite (memcpy_segment data z4 z4 u) by lia.
  replace (Z.to_nat (Z.of_nat (length data) + 8 - 4))
    with (length (data ++ u)) by (rewrite length_app; lia).
  replace (data ++ u ++ z4) with ((data ++ u) ++ z4 ++ [])
    by now rewrite <- app_assoc, app_nil_r.
  rewrite firstn_app_exact by reflexivity.
  rewrite memcpy_segment by (rewrite ?tag_length; lia).
  now rewrite <- app_assoc, app_nil_r.
Qed.

Lemma resolve_user_key_uid_length server local rnd local' rnd' :
  resolve_user_key server local rnd = Some (local', rnd') ->
  length (uid local) = 4%nat -> length (uid local') = 4%nat.
Proof.
  intros Hres Hu.
  destruct (user_key local) as [k|] eqn:Ek.
  - unfold resolve_user_key in Hres. rewrite Ek in Hres.
    inversion Hres; subst. assumption.
  - apply (resolve_user_key_uid server local rnd local' rnd' Hres Ek).
Qed.

Lemma udp_pre_encrypt_run server local data rnd :
  param_fits (si_param server) = true ->
  length (uid local) = 4%nat ->
  exists local' rnd',
    resolve_user_key server local rnd = Some (local', rnd')
    /\ auth_aes128_sha1_client_udp_pre_encrypt server local data rnd
       = Some (Z.of_nat (length data) + 8,
               data ++ uid local'
                    ++ firstn 4 (hmac (data ++ uid local') (user_key_bytes local')),
               local', rnd')
    /\ length (uid local') = 4%nat.
Proof.
  intros Hfit Hu.
  destruct (resolve_user_key_total server local rnd Hfit) as (local' & rnd' & Hres).
  pose proof (resolve_user_key_uid_length _ _ _ _ _ Hres Hu) as Hu'.
  exists local', rnd'. split; [exact Hres|].
  unfold auth_aes128_sha1_client_udp_pre_encrypt. rewrite Hres.
  split; [| exact Hu'].
  f_equal. f_equal. f_equal. f_equal.
  apply (udp_packet_layout data (uid local') (user_key_bytes local') Hu').
Qed.

(** X2: the UDP pre-encrypt returns the length n + 8 and the packet data, uid,
    first four bytes of the HMAC of data and uid under the user key; it
    resolves the key as the initial TCP chunk does, and once a key is set it
    touches neither the plugin data nor the oracle. *)
Theorem udp_pre_encrypt_layout server local data rnd :
  param_fits (si_param server) = true ->
  length (uid local) = 4%nat ->
  exists local' rnd',
    resolve_user_key server local rnd = Some (local', rnd')
    /\ auth_aes128_sha1_client_udp_pre_encrypt server local data rnd
       = Some (Z.of_nat (length data) + 8,
               data ++ uid local'
                    ++ firstn 4 (hmac (data ++ uid local') (user_key_bytes local')),
               local', rnd')
    /\ length (uid local') = 4%nat
    /\ (user_key local <> None -> local' = local /\ rnd' = rnd).
Proof.
  intros Hfit Hu.
  destruct (udp_pre_encrypt_run server local data rnd Hfit Hu)
    as (local' & rnd' & Hres & Hpre & Hu').
  exists local', rnd'. refine (conj Hres (conj Hpre (conj Hu' _))).
  intros Hk. unfold resolve_user_key in Hres.
  destruct (user_key local); [|contradiction].
  inversion Hres; subst; split; reflexivity.
Qed.

(** X3: the UDP decoder of the client checks with the server key what the UDP
    encoder of the client signed with the user key: it accepts the client's
    own packet, returning n + 4 (payload and uid), exactly when the two tags
    agree, which is always the case with the fallback key (no ':' in the
    parameter). *)
Theorem udp_own_packet_check server local data rnd :
  param_fits (si_param server) = true ->
  length (uid local) = 4%nat ->
  exists out local' rnd',
    auth_aes128_sha1_client_udp_pre_encrypt server local data rnd
    = Some (Z.of_nat (length data) + 8, out, local', rnd')
    /\ firstn (length data) out = data
    /\ auth_aes128_sha1_client_udp_post_decrypt server out
       = (if bytes_eqb (firstn 4 (hmac (data ++ uid local') (si_key server)))
                       (firstn 4 (hmac (data ++ uid local') (user_key_bytes local')))
          then Z.of_nat (length data) + 4 else 0, out)
    /\ (user_key local = None ->
        (forall p, si_param server = Some p -> strchr p 58 = None) ->
        auth_aes128_sha1_client_udp_post_decrypt server out
        = (Z.of_nat (length data) + 4, out)).
Proof.
  intros Hfit Hu.
  destruct (udp_pre_encrypt_run server local data rnd Hfit Hu)
    as (local' & rnd' & Hres & Hpre & Hu').
  eexists _, local', rnd'. split; [exact Hpre|].
  set (body := data ++ uid local').
  set (tag := firstn 4 (hmac body (user_key_bytes local'))).
  assert (Lt : length tag = 4%nat) by (apply tag_length; lia).
  assert (Lb : length body = (length data + 4)%nat)
    by (subst body; rewrite length_app; lia).
  assert (Hpost : auth_aes128_sha1_client_udp_post_decrypt server (data ++ uid local' ++ tag)
                  = (if bytes_eqb (firstn 4 (hmac body (si_key server))) tag
                     then Z.of_nat (length data) + 4 else 0,
                     data ++ uid local' ++ tag)).
  { unfold auth_aes128_sha1_client_udp_post_decrypt.
    replace (data ++ uid local' ++ tag) with (body ++ tag)
      by (subst body; now rewrite <- app_assoc).
    rewrite length_app, Lt, Lb.
    destruct (Z.leb_spec (Z.of_nat (length data + 4 + 4)) 4) as [Hle | _]; [lia|].
    replace (Z.to_nat (Z.of_nat (length data + 4 + 4) - 4)) with (length body) by lia.
    rewrite firstn_app_exact, skipn_app_exact by reflexivity.
    rewrite (firstn_all2 (n := 4) tag) by lia.
    destruct (bytes_eqb _ tag); cbn [negb]; f_equal; lia. }
  split; [| split; [exact Hpost|]].
  - apply firstn_app_exact. reflexivity.
  - intros Hk Hp. rewrite Hpost.
    rewrite (resolve_user_key_fallback server local rnd Hk Hp) in Hres.
    inversion Hres; subst local'. cbn [user_key_bytes set_user_key user_key] in *.
    subst tag. now rewrite bytes_eqb_refl.
Qed.

End UdpPreEncrypt.

Section SendSide.
Context {P : Primitives}.

Lemma set_pack_id_same local : set_pack_id local (pack_id local) = local.
Proof. now destruct local. Qed.

Lemma set_pack_id_twice local a b :
  set_pack_id (set_pack_id local a) b = set_pack_id local b.
Proof. reflexivity. Qed.

(** The loop touches [pack_id] only, and steps it once per chunk. *)
Lemma pack_loop_local dl server fuel :
  forall data local rnd chunks data' local' rnd',
  pack_loop fuel data dl server local rnd = (chunks, data', local', rnd') ->
  0 <= pack_id local < 2 ^ 32 ->
  local' = set_pack_id local
             ((pack_id local + Z.of_nat (length chunks)) mod 2 ^ 32).
Proof.
  induction fuel as [|fuel IH]; intros data local rnd chunks data' local' rnd' Hrun Hp.
  - cbn in Hrun. inversion Hrun; subst. cbn [length].
    rewrite Z.add_0_r, Z.mod_small by lia. symmetry. apply set_pack_id_same.
  - cbn [pack_loop] in Hrun.
    destruct (Z.of_nat (length data) >? auth_simple_pack_unit_size).
    + set (r := auth_aes128_sha1_pack_data _ dl server local rnd) in Hrun.
      destruct (pack_loop fuel _ dl server (pk_local r) (pk_rand r))
        as [[[c d] l] rn] eqn:Erun.
      inversion Hrun; subst. clear Hrun.
      pose proof (pack_data_local (firstn (Z.to_nat auth_simple_pack_unit_size) data)
                    dl server local rnd) as Hl. fold r in Hl.
      rewrite Hl in Erun.
      apply IH in Erun.
      2:{ cbn. unfold to_uint32. apply Z.mod_pos_bound. lia. }
      rewrite Erun. cbn [pack_id set_pack_id]. rewrite set_pack_id_twice.
      f_equal. unfold to_uint32. cbn [length]. rewrite Nat2Z.inj_succ.
      rewrite Zplus_mod_idemp_l. f_equal. lia.
    + inversion Hrun; subst. cbn [length].
      rewrite Z.add_0_r, Z.mod_small by lia. symmetry. apply set_pack_id_same.
Qed.

(** X5: once the header is out, a call with n bytes emits ceil(n / 2000)
    chunks, steps [pack_id] by that count modulo 2^32, stores n as
    [last_data_len], and leaves the rest of the plugin data and the global
    block as they were. *)
Theorem pre_encrypt_pack_id now global server local s rnd :
  has_sent_header local = true ->
  0 <= pack_id local < 2 ^ 32 ->
  let n := Z.of_nat (length s) in
  let k := (n + 1999) / 2000 in
  exists r,
    auth_aes128_sha1_client_pre_encrypt now global server local s rnd = Some r
    /\ Z.of_nat (length (pre_chunks r)) = k
    /\ pre_local r
       = set_last_data_len (set_pack_id local ((pack_id local + k) mod 2 ^ 32)) n
    /\ pre_global r = global.
Proof.
  intros Hh Hp n k.
  unfold auth_aes128_sha1_client_pre_encrypt. fold n.
  rewrite Hh, andb_false_r.
  destruct (pack_loop_slices n server (length s) s local rnd (Nat.le_refl _))
    as (chunks & data' & local' & rnd' & fulls & Erun & Hpk & Hfull & Hdata & Hlen & Hpos & _).
  rewrite Erun.
  pose proof (pack_loop_local n server _ _ _ _ _ _ _ _ Erun Hp) as Hl.
  destruct (Z.gtb_spec (Z.of_nat (length data')) 0) as [Hgt | Hz].
  - set (p := auth_aes128_sha1_pack_data data' n server local' rnd').
    assert (Hcount : Z.of_nat (length (chunks ++ [outdata p])) = k).
    { apply (data_chunk_count (packed_from n server) _ fulls [data'] n).
      - apply Forall2_app; [assumption|]. constructor; [|constructor].
        now exists local', rnd'.
      - assumption.
      - rewrite concat_app. cbn [concat]. rewrite app_nil_r, <- Hdata. reflexivity.
      - right. exists data'. split; [reflexivity | lia]. }
    eexists. split; [reflexivity|]. cbn [pre_chunks pre_local pre_global app].
    refine (conj Hcount (conj _ eq_refl)).
    f_equal. unfold p. rewrite pack_data_local. rewrite Hl.
    cbn [pack_id set_pack_id]. rewrite set_pack_id_twice. f_equal.
    unfold to_uint32. rewrite Zplus_mod_idemp_l. f_equal.
    rewrite <- Hcount, length_app. cbn [length]. lia.
  - assert (Hcount : Z.of_nat (length chunks) = k).
    { apply (data_chunk_count (packed_from n server) _ fulls [] n).
      - now rewrite app_nil_r.
      - assumption.
      - rewrite app_nil_r. destruct data'; [|cbn [length] in Hz; lia].
        rewrite app_nil_r in Hdata. now rewrite <- Hdata.
      - now left. }
    eexists. split; [reflexivity|]. cbn [pre_chunks pre_local pre_global app].
    rewrite app_nil_r. refine (conj Hcount (conj _ eq_refl)).
    f_equal. rewrite Hl. now rewrite Hcount.
Qed.

End SendSide.

Section Duplex.
Context {P : Primitives}.

Lemma pack_data_set_recv data full server local rnd b i :
  auth_aes128_sha1_pack_data data full server (set_recv local b i) rnd
  = let r := auth_aes128_sha1_pack_data data full server local rnd in
    mk_pack (out_size r) (outdata r) (set_recv (pk_local r) b i) (pk_rand r).
Proof.
  unfold auth_aes128_sha1_pack_data.
  change (get_rand_len (Z.of_nat (length data)) full (set_recv local b i) server rnd)
    with (get_rand_len (Z.of_nat (length data)) full local server rnd).
  destruct (get_rand_len _ _ _ _ _) as [r rnd1].
  destruct (rand_bytes _ _) as [rd rnd2]. reflexivity.
Qed.

Lemma pack_loop_set_recv dl server b i fuel :
  forall data local rnd,
  pack_loop fuel data dl server (set_recv local b i) rnd
  = let '(chunks, data', local', rnd') := pack_loop fuel data dl server local rnd in
    (chunks, data', set_recv local' b i, rnd').
Proof.
  induction fuel as [|fuel IH]; intros data local rnd; [reflexivity|].
  cbn [pack_loop].
  destruct (Z.of_nat (length data) >? auth_simple_pack_unit_size); [|reflexivity].
  rewrite pack_data_set_recv. cbn zeta. cbn [pk_local pk_rand outdata].
  rewrite IH.
  destruct (pack_loop fuel _ dl server _ _) as [[[c d] l] rn]. reflexivity.
Qed.

Lemma pre_encrypt_set_recv now global server local s rnd b i :
  has_sent_header local = true ->
  auth_aes128_sha1_client_pre_encrypt now global server (set_recv local b i) s rnd
  = match auth_aes128_sha1_client_pre_encrypt now global server local s rnd with
    | Some r => Some (mk_pre (pre_chunks r) (pre_global r)
                             (set_recv (pre_local r) b i) (pre_rand r))
    | None => None
    end.
Proof.
  intros Hh. unfold auth_aes128_sha1_client_pre_encrypt.
  change (has_sent_header (set_recv local b i)) with (has_sent_header local).
  rewrite Hh, andb_false_r.
  rewrite pack_loop_set_recv.
  destruct (pack_loop _ s _ server local rnd) as [[[c1 d2] l2] r2].
  destruct (Z.of_nat (length d2) >? 0); [|reflexivity].
  rewrite pack_data_set_recv. reflexivity.
Qed.

Lemma pack_loop_frame dl server fuel :
  forall data local rnd chunks data' local' rnd',
  pack_loop fuel data dl server local rnd = (chunks, data', local', rnd') ->
  local' = set_pack_id local (pack_id local').
Proof.
  induction fuel as [|fuel IH]; intros data local rnd chunks data' local' rnd' Hrun.
  - cbn in Hrun. inversion Hrun; subst. symmetry. apply set_pack_id_same.
  - cbn [pack_loop] in Hrun.
    destruct (Z.of_nat (length data) >? auth_simple_pack_unit_size).
    + set (r := auth_aes128_sha1_pack_data _ dl server local rnd) in Hrun.
      destruct (pack_loop fuel _ dl server (pk_local r) (pk_rand r))
        as [[[c d] l] rn] eqn:Erun.
      inversion Hrun; subst. clear Hrun.
      apply IH in Erun. unfold r in Erun. rewrite pack_data_local in Erun.
      rewrite Erun at 1. reflexivity.
    + inversion Hrun; subst. symmetry. apply set_pack_id_same.
Qed.

Lemma pre_encrypt_frame now global server local s rnd :
  has_sent_header local = true ->
  exists r,
    auth_aes128_sha1_client_pre_encrypt now global server local s rnd = Some r
    /\ pre_local r
       = set_last_data_len (set_pack_id local (pack_id (pre_local r)))
                           (Z.of_nat (length s))
    /\ pre_global r = global.
Proof.
  intros Hh. unfold auth_aes128_sha1_client_pre_encrypt.
  rewrite Hh, andb_false_r.
  destruct (pack_loop _ s _ server local rnd) as [[[c1 d2] l2] r2] eqn:Erun.
  apply pack_loop_frame in Erun.
  destruct (Z.of_nat (length d2) >? 0).
  - eexists. split; [reflexivity|]. cbn [pre_local pre_global].
    rewrite pack_data_local. split; [|reflexivity].
    rewrite Erun at 1. reflexivity.
  - eexists. split; [reflexivity|]. cbn [pre_local pre_global].
    split; [|reflexivity]. rewrite Erun at 1. reflexivity.
Qed.

Lemma set_recv_same local :
  set_recv local (recv_buffer local) (recv_id local) = local.
Proof. now destruct local. Qed.

(** The receive path reads [recv_buffer], [recv_id] and the user key, and
    writes the first two. *)
Lemma post_decrypt_frame local d :
  exists len out b i,
    auth_aes128_sha1_client_post_decrypt local d = (len, out, set_recv local b i)
    /\ forall local2,
         recv_buffer local2 = recv_buffer local ->
         recv_id local2 = recv_id local ->
         user_key local2 = user_key local ->
         auth_aes128_sha1_client_post_decrypt local2 d
         = (len, out, set_recv local2 b i).
Proof.
  unfold auth_aes128_sha1_client_post_decrypt.
  destruct (Z.of_nat (length (recv_buffer local)) + Z.of_nat (length d) >? 16384) eqn:Eo.
  - exists (-1), d, (recv_buffer local), (recv_id local).
    split; [now rewrite set_recv_same|].
    intros l2 Hb Hi Hk. rewrite Hb, Eo, <- Hb, <- Hi. now rewrite set_recv_same.
  - destruct (post_decrypt_loop _ (user_key_bytes local) _ (recv_id local) [])
      as [[[e b] i] out] eqn:El.
    exists (if e then -1 else Z.of_nat (length out)), (if e then d else out), b, i.
    split; [now destruct e|].
    intros l2 Hb Hi Hk. rewrite Hb, Eo, Hi.
    unfold user_key_bytes. rewrite Hk. fold (user_key_bytes local).
    rewrite El. now destruct e.
Qed.

(** X6: sending and receiving do not interfere: after the header,
    [client_pre_encrypt] gives the same chunks, global block and oracle
    whether a [client_post_decrypt] ran before it or not, and
    [client_post_decrypt] returns the same bytes before and after it. *)
Theorem send_receive_commute now global server local s d rnd len out l1 :
  has_sent_header local = true ->
  auth_aes128_sha1_client_post_decrypt local d = (len, out, l1) ->
  exists r r',
    auth_aes128_sha1_client_pre_encrypt now global server local s rnd = Some r
    /\ auth_aes128_sha1_client_pre_encrypt now global server l1 s rnd = Some r'
    /\ pre_chunks r' = pre_chunks r
    /\ pre_global r' = pre_global r
    /\ pre_rand r' = pre_rand r
    /\ auth_aes128_sha1_client_post_decrypt (pre_local r) d
       = (len, out, pre_local r').
Proof.
  intros Hh Hpost.
  destruct (post_decrypt_frame local d) as (len' & out' & b & i & Hp & Hext).
  rewrite Hp in Hpost. inversion Hpost; subst len' out' l1. clear Hpost.
  destruct (pre_encrypt_frame now global server local s rnd Hh) as (r & Hr & Hl & Hg).
  exists r. eexists. split; [exact Hr|].
  rewrite (pre_encrypt_set_recv now global server local s rnd b i Hh), Hr.
  split; [reflexivity|]. cbn [pre_chunks pre_global pre_rand pre_local].
  refine (conj eq_refl (conj eq_refl (conj eq_refl _))).
  apply Hext; rewrite Hl; reflexivity.
Qed.

End Duplex.

Section OutputSize.
Context {P : Primitives}.

Lemma packed_from_size dl server c d :
  packed_from dl server c d ->
  Z.of_nat (length d) + 9 <= Z.of_nat (length c) <= Z.of_nat (length d) + 1032
  /\ (1300 < Z.of_nat (length d) -> Z.of_nat (length c) = Z.of_nat (length d) + 9).
Proof.
  intros (local & rnd & ->).
  rewrite pack_data_length, pack_data_out_size.
  pose proof (get_rand_len_range (Z.of_nat (length d)) dl local server rnd) as Hr.
  cbn zeta in Hr. destruct Hr as (H0 & H1300 & _ & _ & _ & Hmax).
  split; [lia|]. intros Hd. rewrite H1300 by lia. lia.
Qed.

Lemma packed_units_size dl server rest fulls :
  Forall2 (packed_from dl server) rest fulls ->
  Forall (fun d => length d = 2000%nat) fulls ->
  Z.of_nat (length (concat rest)) = 2009 * Z.of_nat (length fulls).
Proof.
  induction 1 as [|c d rest fulls Hc _ IH]; intros Hf; [reflexivity|].
  inversion Hf as [|? ? Hd Hf']; subst.
  cbn [concat length]. rewrite length_app, Nat2Z.inj_add, IH by assumption.
  destruct (packed_from_size dl server c d Hc) as [_ H]. rewrite H by lia. lia.
Qed.

Lemma packed_slices_size dl server rest fulls final :
  Forall2 (packed_from dl server) rest (fulls ++ final) ->
  Forall (fun d => length d = 2000%nat) fulls ->
  (final = [] \/ exists d, final = [d] /\ (1 <= length d <= 2000)%nat) ->
  let m := Z.of_nat (length (concat (fulls ++ final))) in
  m <= Z.of_nat (length (concat rest)) <= m + 9 * (m / 2000) + 1032.
Proof.
  intros Hpk Hfull Hfin m.
  apply Forall2_app_inv_r in Hpk as (r1 & r2 & H1 & H2 & ->).
  pose proof (packed_units_size dl server r1 fulls H1 Hfull) as L1.
  pose proof (concat_units_length fulls Hfull) as Lf.
  subst m. rewrite !concat_app, !length_app, !Nat2Z.inj_add, L1, Lf.
  assert (Hq : forall x, 0 <= x -> Z.of_nat (length fulls)
                                   <= (2000 * Z.of_nat (length fulls) + x) / 2000).
  { intros x Hx. apply Z.div_le_lower_bound; lia. }
  destruct Hfin as [-> | (d & -> & Hd)].
  - inversion H2; subst. cbn [concat length]. specialize (Hq 0 ltac:(lia)). lia.
  - inversion H2 as [|c ? ? ? Hc Hnil]; subst. inversion Hnil; subst.
    cbn [concat length]. rewrite !app_nil_r.
    destruct (packed_from_size dl server c d Hc) as [Hb _].
    specialize (Hq (Z.of_nat (length d)) ltac:(lia)). lia.
Qed.

Lemma pre_encrypt_later_shape now global server local s rnd :
  (Z.of_nat (length s) >? 0) && negb (has_sent_header local) = false ->
  exists r fulls final,
    auth_aes128_sha1_client_pre_encrypt now global server local s rnd = Some r
    /\ Forall2 (packed_from (Z.of_nat (length s)) server) (pre_chunks r)
               (fulls ++ final)
    /\ concat (fulls ++ final) = s
    /\ Forall (fun d => length d = 2000%nat) fulls
    /\ (final = [] \/ exists d, final = [d] /\ (1 <= length d <= 2000)%nat).
Proof.
  intros Hfirst. unfold auth_aes128_sha1_client_pre_encrypt. rewrite Hfirst.
  destruct (pack_loop_slices (Z.of_nat (length s)) server (length s) s local rnd
              (Nat.le_refl _))
    as (chunks & data' & local' & rnd' & fulls & Erun & Hpk & Hfull & Hdata & Hlen & Hpos & _).
  rewrite Erun.
  destruct (Z.gtb_spec (Z.of_nat (length data')) 0) as [Hgt|Hz].
  - eexists _, fulls, [data']. split; [reflexivity|]. cbn [pre_chunks app].
    refine (conj _ (conj _ (conj Hfull _))).
    + apply Forall2_app; [assumption|]. constructor; [|constructor].
      eexists _, _; reflexivity.
    + rewrite concat_app. cbn [concat]. now rewrite app_nil_r.
    + right. exists data'. split; [reflexivity | lia].
  - destruct data'; [|cbn [length] in Hz; lia].
    eexists _, fulls, []. split; [reflexivity|]. cbn [pre_chunks app].
    rewrite !app_nil_r in *. refine (conj Hpk (conj _ (conj Hfull _))).
    + now symmetry.
    + now left.
Qed.

(** X7: the output of a call with n bytes is at least n and at most n + 9 * (n
    / 2000) + 2090 bytes long, so it fits the [calloc]ed buffer of n * 2 +
    SSR_BUFF_SIZE * 2 bytes whenever SSR_BUFF_SIZE is at least 1045. *)
Theorem pre_encrypt_output_bound now global server local s rnd :
  param_fits (si_param server) = true ->
  let n := Z.of_nat (length s) in
  exists r,
    auth_aes128_sha1_client_pre_encrypt now global server local s rnd = Some r
    /\ n <= Z.of_nat (length (pre_output r)) <= n + 9 * (n / 2000) + 2090
    /\ (forall B, 1045 <= B ->
          Z.of_nat (length (pre_output r)) <= n * 2 + B * 2).
Proof.
  intros Hfit n.
  assert (Hdiv : 0 <= 9 * (n / 2000) <= n).
  { pose proof (Z.div_pos n 2000 ltac:(lia) ltac:(lia)).
    pose proof (Z.mul_div_le n 2000 ltac:(lia)). lia. }
  assert (Hgoal : exists r,
    auth_aes128_sha1_client_pre_encrypt now global server local s rnd = Some r
    /\ n <= Z.of_nat (length (pre_output r)) <= n + 9 * (n / 2000) + 2090).
  { destruct ((Z.of_nat (length s) >? 0) && negb (has_sent_header local)) eqn:Hfirst.
    - apply andb_true_iff in Hfirst as [Hn Hh].
      apply Z.gtb_lt in Hn. apply negb_true_iff in Hh.
      assert (Hs : s <> []) by (destruct s; [cbn in Hn; lia | discriminate]).
      destruct (pre_encrypt_first_call_shape now global server local s rnd Hs Hh Hfit)
        as (r & a & rest & fulls & final & Hr & Ha & Hc & Hpk & Hcat & Hfull & Hfin & _).
      fold n in Ha, Hpk, Hcat, Hfin.
      destruct (pack_auth_data_total now global server local
                  (firstn (Z.to_nat (Z.min 1200 n)) s) rnd Hfit)
        as (a' & Ha' & Hsz & Hlen & _).
      rewrite Ha in Ha'. inversion Ha'; subst a'. clear Ha'.
      pose proof (auth_rand_len_range
                    (Z.of_nat (length (firstn (Z.to_nat (Z.min 1200 n)) s))) rnd)
        as [Hrl _].
      assert (Lh : Z.of_nat (length (firstn (Z.to_nat (Z.min 1200 n)) s)) = Z.min 1200 n)
        by (rewrite length_firstn; subst n; lia).
      rewrite Lh in *.
      pose proof (packed_slices_size n server rest fulls final Hpk Hfull
                    ltac:(destruct Hfin as [[Hf _] | Hf]; [left | right]; assumption))
        as Hsl.
      cbn zeta in Hsl. rewrite Hcat, length_skipn in Hsl.
      replace (Z.of_nat (length s - Z.to_nat (Z.min 1200 n))) with (n - Z.min 1200 n)
        in Hsl by (subst n; lia).
      exists r. split; [exact Hr|].
      unfold pre_output. rewrite Hc. cbn [concat]. rewrite length_app, Nat2Z.inj_add.
      assert (Hm : (n - Z.min 1200 n) / 2000 <= n / 2000)
        by (apply Z.div_le_mono; lia).
      lia.
    - destruct (pre_encrypt_later_shape now global server local s rnd Hfirst)
        as (r & fulls & final & Hr & Hpk & Hcat & Hfull & Hfin).
      pose proof (packed_slices_size _ server _ fulls final Hpk Hfull Hfin) as Hsl.
      cbn zeta in Hsl. rewrite Hcat in Hsl. fold n in Hsl.
      exists r. split; [exact Hr|]. unfold pre_output. lia. }
  destruct Hgoal as (r & Hr & Hb).
  exists r. refine (conj Hr (conj Hb _)). intros B HB. lia.
Qed.

End OutputSize.

Section KeySharing.
Context {P : Primitives} {OK : PrimitivesOk P}.

Lemma pack_auth_data_local now global server local data rnd a :
  auth_aes128_sha1_pack_auth_data now global server local data rnd = Some a ->
  exists rnd3 rnd4, resolve_user_key server local rnd3 = Some (au_local a, rnd4).
Proof.
  unfold auth_aes128_sha1_pack_auth_data.
  destruct (xorshift128plus rnd) as [x rnd1].
  destruct (rand_bytes _ rnd1) as [rd rnd2].
  destruct (step_connection_id global rnd2) as [g' rnd3].
  destruct (resolve_user_key server local rnd3) as [[l' rnd4]|] eqn:Eres; [|discriminate].
  destruct (rand_bytes 1 rnd4) as [b0 rnd5].
  intros H. inversion H; subst a. cbn [au_local]. now exists rnd3, rnd4.
Qed.

(** X4: the first non-empty TCP call resolves user key and uid; every later
    TCP call keeps them, and the UDP encoder then signs with that key, leaving
    the plugin data and the oracle as they are. *)
Theorem user_key_resolved_once now global server local s rnd :
  s <> [] -> has_sent_header local = false -> user_key local = None ->
  param_fits (si_param server) = true ->
  exists r k,
    auth_aes128_sha1_client_pre_encrypt now global server local s rnd = Some r
    /\ user_key (pre_local r) = Some k
    /\ length (uid (pre_local r)) = 4%nat
    /\ (forall now' global' s' rnd',
          exists r',
            auth_aes128_sha1_client_pre_encrypt now' global' server
              (pre_local r) s' rnd' = Some r'
            /\ user_key (pre_local r') = Some k
            /\ uid (pre_local r') = uid (pre_local r))
    /\ (forall data rnd',
          auth_aes128_sha1_client_udp_pre_encrypt server (pre_local r) data rnd'
          = Some (Z.of_nat (length data) + 8,
                  data ++ uid (pre_local r)
                       ++ firstn 4 (hmac (data ++ uid (pre_local r)) k),
                  pre_local r, rnd')).
Proof.
  intros Hs Hh Hk Hfit.
  assert (Hn : 0 < Z.of_nat (length s)) by (destruct s; [congruence | cbn [length]; lia]).
  unfold auth_aes128_sha1_client_pre_encrypt at 1. rewrite Hh.
  destruct (Z.gtb_spec (Z.of_nat (length s)) 0); [|lia]. cbn [negb andb].
  set (head := firstn _ s).
  destruct (pack_auth_data_total now global server local head rnd Hfit)
    as (a & Ha & _).
  rewrite Ha.
  destruct (pack_auth_data_local _ _ _ _ _ _ _ Ha) as (rnd3 & rnd4 & Hres).
  destruct (resolve_user_key_uid _ _ _ _ _ Hres Hk) as [Hu Hsome].
  destruct (user_key (au_local a)) as [k|] eqn:Ek; [|congruence]. clear Hsome.
  destruct (pack_loop _ _ _ server (set_sent_header (au_local a)) (au_rand a))
    as [[[c1 d2] l2] r2] eqn:Erun.
  apply pack_loop_frame in Erun.
  set (l3 := if Z.of_nat (length d2) >? 0
             then pk_local (auth_aes128_sha1_pack_data d2 (Z.of_nat (length s)) server l2 r2)
             else l2).
  assert (Hl3 : l3 = set_pack_id (set_sent_header (au_local a)) (pack_id l3)).
  { subst l3. destruct (Z.of_nat (length d2) >? 0).
    - rewrite pack_data_local. rewrite Erun at 1. reflexivity.
    - exact Erun. }
  assert (Hfinal : exists r,
    (let '(c2, local3, rnd3) :=
       if Z.of_nat (length d2) >? 0
       then let r := auth_aes128_sha1_pack_data d2 (Z.of_nat (length s)) server l2 r2 in
            ([outdata r], pk_local r, pk_rand r)
       else ([], l2, r2) in
     Some (mk_pre ([au_data a] ++ c1 ++ c2) (au_global a)
                  (set_last_data_len local3 (Z.of_nat (length s))) rnd3)) = Some r
    /\ pre_local r = set_last_data_len l3 (Z.of_nat (length s))).
  { subst l3. destruct (Z.of_nat (length d2) >? 0); eexists; split; reflexivity. }
  destruct Hfinal as (r & Hr & Hlr).
  exists r, k. split; [exact Hr|].
  assert (Hkey : user_key (pre_local r) = Some k)
    by (rewrite Hlr, Hl3; exact Ek).
  assert (Huid : uid (pre_local r) = uid (au_local a))
    by (rewrite Hlr, Hl3; reflexivity).
  assert (Hsent : has_sent_header (pre_local r) = true)
    by (rewrite Hlr, Hl3; reflexivity).
  refine (conj Hkey (conj _ (conj _ _))).
  - now rewrite Huid.
  - intros now' global' s' rnd'.
    destruct (pre_encrypt_frame now' global' server (pre_local r) s' rnd' Hsent)
      as (r' & Hr' & Hl' & _).
    exists r'. split; [exact Hr'|]. rewrite Hl'. split; [exact Hkey | reflexivity].
  - intros data rnd'. unfold auth_aes128_sha1_client_udp_pre_encrypt.
    unfold resolve_user_key. rewrite Hkey.
    unfold user_key_bytes. rewrite Hkey.
    f_equal. f_equal. f_equal. f_equal.
    apply (udp_packet_layout data (uid (pre_local r)) k). now rewrite Huid.
Qed.

End KeySharing.

Section SessionFacts.
Variable cipher_t : Type.
Variable tunnel_encrypt : cipher_t -> list Z -> ssr_error * list Z * cipher_t.
Variable can_access : tunnel_ctx cipher_t -> bool.
Variable uv_tcp_connect : tunnel_ctx cipher_t -> Z.
Variable can_auth_none : tunnel_ctx cipher_t -> bool.
Variable can_auth_passwd : tunnel_ctx cipher_t -> bool.

#[local] Arguments incoming {cipher_t}.
#[local] Arguments outgoing {cipher_t}.
#[local] Arguments state {cipher_t}.
#[local] Arguments ref_count {cipher_t}.
#[local] Arguments init_pkg {cipher_t}.
#[local] Arguments actions {cipher_t}.
#[local] Arguments socket_of {cipher_t}.
#[local] Arguments with_socket {cipher_t}.
#[local] Arguments with_state {cipher_t}.
#[local] Arguments with_result {cipher_t}.
#[local] Arguments add_refs {cipher_t}.
#[local] Arguments emit {cipher_t}.
#[local] Arguments tunnel_is_dead {cipher_t}.
#[local] Arguments tunnel_shutdown {cipher_t}.
#[local] Arguments socket_write {cipher_t}.
#[local] Arguments socket_close {cipher_t}.

Ltac break_tunnel t :=
  destruct t as [st [ird iwr ires ifam iport] [ord owr ores ofam oport]
                 rc dp pkg k acts].

Lemma shutdown_spec (t : tunnel_ctx cipher_t) :
  tunnel_is_dead t = false -> no_dead_socket t = true ->
  exists t',
    tunnel_shutdown t = Some t'
    /\ state t' = session_dead
    /\ all_dead t' = true
    /\ ref_count t' = ref_count t + 4
    /\ actions t' = actions t ++ cancel_request t ++ close_requests
    /\ result (incoming t') = result (incoming t)
    /\ result (outgoing t') = result (outgoing t).
Proof.
  break_tunnel t. unfold no_dead_socket, tunnel_is_dead. cbn.
  intros Hst Hsock.
  destruct ird, iwr, ord, owr; try discriminate; clear Hsock;
    destruct st; try discriminate; cbn;
    (eexists; split; [reflexivity|]; cbn;
     repeat split; try reflexivity; try lia;
     now rewrite <- ?app_assoc).
Qed.

Lemma shutdown_some (t t' : tunnel_ctx cipher_t) :
  tunnel_shutdown t = Some t' ->
  tunnel_is_dead t = false /\ no_dead_socket t = true.
Proof.
  break_tunnel t. unfold no_dead_socket, tunnel_shutdown, tunnel_is_dead. cbn.
  destruct st; cbn; try discriminate;
    destruct ird, iwr; cbn; try discriminate;
    destruct ord, owr; cbn; try discriminate; intros _; split; reflexivity.
Qed.

(** X11: shutting down a live tunnel that holds no reference marks all four
    socket states dead, cancels a pending lookup, requests the close of both
    handles and both timers, and takes one reference for each; the tunnel
    survives the first three close callbacks and is freed by the fourth.  A
    second shutdown aborts. *)
Theorem shutdown_frees_after_four_closes (t : tunnel_ctx cipher_t) :
  tunnel_is_dead t = false -> no_dead_socket t = true -> ref_count t = 0 ->
  exists t1 t2 t3 t4,
    tunnel_shutdown t = Some t1
    /\ state t1 = session_dead /\ all_dead t1 = true
    /\ actions t1 = actions t ++ cancel_request t ++ close_requests
    /\ socket_close_done_cb t1 = tunnel_kept t2
    /\ socket_close_done_cb t2 = tunnel_kept t3
    /\ socket_close_done_cb t3 = tunnel_kept t4
    /\ socket_close_done_cb t4 = tunnel_freed
    /\ tunnel_shutdown t1 = None.
Proof.
  intros Hlive Hsock Hrc.
  destruct (shutdown_spec t Hlive Hsock) as (t1 & Hsd & Hst & Hdead & Href & Hact & _).
  rewrite Hrc in Href.
  exists t1, (add_refs t1 (-1)), (add_refs (add_refs t1 (-1)) (-1)),
         (add_refs (add_refs (add_refs t1 (-1)) (-1)) (-1)).
  refine (conj Hsd (conj Hst (conj Hdead (conj Hact _)))).
  unfold socket_close_done_cb, tunnel_release.
  break_tunnel t1. cbn in *. subst rc st. cbn.
  repeat split; reflexivity.
Qed.


Ltac step :=
  match goal with
  | H : Some _ = Some _ |- _ => inversion H; subst; clear H
  | H : None = Some _ |- _ => discriminate H
  | H : context [match ?x with _ => _ end] |- _ =>
      match type of x with
      | socket_state => destruct x
      | session_state => destruct x
      | sa_family_t => destruct x
      | ssr_error => destruct x
      | bool => destruct x eqn:?
      | option _ => destruct x eqn:?
      | prod _ _ => destruct x eqn:?
      end
  end; cbn in *.

Lemma socket_write_keeps (t t' : tunnel_ctx cipher_t) c d :
  socket_write t c d = Some t' ->
  state t' = state t /\ no_dead_socket t' = no_dead_socket t
  /\ actions t' = actions t ++ [io_write c d; io_timer_reset c].
Proof.
  break_tunnel t. unfold socket_write, no_dead_socket. destruct c; cbn; intros H.
  - destruct iwr; cbn in H; try discriminate; inversion H; subst; cbn; auto.
  - destruct owr; cbn in H; try discriminate; inversion H; subst; cbn; auto.
Qed.

Lemma socket_read_keeps (t t' : tunnel_ctx cipher_t) c :
  socket_read t c = Some t' ->
  state t' = state t /\ no_dead_socket t' = no_dead_socket t
  /\ actions t' = actions t ++ [io_read_start c; io_timer_reset c].
Proof.
  break_tunnel t. unfold socket_read, no_dead_socket. destruct c; cbn; intros H.
  - destruct ird; cbn in H; try discriminate; inversion H; subst; cbn; auto.
  - destruct ord; cbn in H; try discriminate; inversion H; subst; cbn; auto.
Qed.

Lemma shutdown_coherent (t t' : tunnel_ctx cipher_t) :
  tunnel_shutdown t = Some t' -> coherent t' = true.
Proof.
  intros H. destruct (shutdown_some t t' H) as [Hl Hs].
  destruct (shutdown_spec t Hl Hs) as (t1 & H1 & Hst & Hd & _).
  rewrite H in H1. inversion H1; subst t1.
  unfold coherent, tunnel_is_dead. now rewrite Hst.
Qed.

Lemma coherent_live (t : tunnel_ctx cipher_t) :
  tunnel_is_dead t = false -> coherent t = no_dead_socket t.
Proof. unfold coherent. now intros ->. Qed.

Lemma with_state_coherent (t : tunnel_ctx cipher_t) s :
  s <> session_dead -> no_dead_socket t = true ->
  coherent (with_state t s) = true.
Proof.
  intros Hs Hn. unfold coherent, tunnel_is_dead. cbn.
  destruct s; try congruence; exact Hn.
Qed.


Ltac handler_crush t :=
  break_tunnel t;
  repeat (match goal with x : socket_state |- _ => destruct x end;
          cbn in *; try discriminate);
  repeat (match goal with x : session_state |- _ => destruct x end;
          cbn in *; try discriminate);
  repeat step; try reflexivity; try discriminate.

Lemma do_req_start_coherent (t t' : tunnel_ctx cipher_t) :
  coherent t = true -> do_req_start t = Some t' -> coherent t' = true.
Proof.
  intros Hc H. unfold do_req_start, socket_read, tunnel_shutdown, socket_close in H.
  unfold coherent, tunnel_is_dead, all_dead, no_dead_socket in *.
  handler_crush t.
Qed.

Lemma do_handshake_coherent (t t' : tunnel_ctx cipher_t) p :
  coherent t = true ->
  do_handshake can_auth_none can_auth_passwd t p = Some t' ->
  coherent t' = true.
Proof.
  intros Hc H.
  unfold do_handshake, socket_read, socket_write, tunnel_shutdown, socket_close in H.
  destruct p as [err left nb pb].
  unfold coherent, tunnel_is_dead, all_dead, no_dead_socket in *.
  destruct err; handler_crush t.
Qed.

Lemma do_ssr_auth_sent_coherent (t t' : tunnel_ctx cipher_t) :
  coherent t = true -> do_ssr_auth_sent t = Some t' -> coherent t' = true.
Proof.
  intros Hc H.
  unfold do_ssr_auth_sent, socket_write, tunnel_shutdown, socket_close in H.
  unfold coherent, tunnel_is_dead, all_dead, no_dead_socket in *.
  handler_crush t.
Qed.

Lemma do_proxy_start_coherent (t t' : tunnel_ctx cipher_t) :
  coherent t = true -> do_proxy_start t = Some t' -> coherent t' = true.
Proof.
  intros Hc H.
  unfold do_proxy_start, tunnel_shutdown, socket_close in H.
  unfold coherent, tunnel_is_dead, all_dead, no_dead_socket in *.
  handler_crush t.
Qed.


Lemma socket_cycle_total bufs (t : tunnel_ctx cipher_t) a b :
  a <> b ->
  exists r t',
    socket_cycle bufs t a b = Some (r, t')
    /\ state t' = state t
    /\ no_dead_socket t' = no_dead_socket t
    /\ tunnel_is_dead t' = tunnel_is_dead t.
Proof.
  intros Hab. break_tunnel t.
  unfold socket_cycle, socket_read, socket_write, no_dead_socket, tunnel_is_dead.
  destruct a, b; try congruence; cbn.
  - destruct (ires <? 0); [eexists _, _; repeat split; reflexivity|].
    destruct (ores <? 0); [eexists _, _; repeat split; reflexivity|].
    destruct iwr, ord; cbn; eexists _, _; repeat split; reflexivity.
  - destruct (ores <? 0); [eexists _, _; repeat split; reflexivity|].
    destruct (ires <? 0); [eexists _, _; repeat split; reflexivity|].
    destruct owr, ird; cbn; eexists _, _; repeat split; reflexivity.
Qed.

Lemma do_proxy_coherent bufs (t t' : tunnel_ctx cipher_t) :
  coherent t = true -> tunnel_is_dead t = false ->
  do_proxy bufs t = Some t' -> coherent t' = true.
Proof.
  intros Hc Hl H. unfold do_proxy in H.
  rewrite coherent_live in Hc by assumption.
  destruct (socket_cycle_total bufs (with_state t session_proxy) Incoming Outgoing
              ltac:(discriminate)) as (r1 & t1 & E1 & S1 & N1 & D1).
  rewrite E1 in H. cbn in S1, N1, D1.
  destruct (negb (r1 =? 0)); [now apply (shutdown_coherent t1)|].
  destruct (socket_cycle_total bufs t1 Outgoing Incoming ltac:(discriminate))
    as (r2 & t2 & E2 & S2 & N2 & D2).
  rewrite E2 in H.
  destruct (negb (r2 =? 0)); [now apply (shutdown_coherent t2)|].
  inversion H; subst t'. unfold coherent. rewrite D2, D1.
  unfold tunnel_is_dead. cbn. rewrite N2, N1. exact Hc.
Qed.

Lemma socket_read_coherent (t t' : tunnel_ctx cipher_t) c :
  coherent t = true -> socket_read t c = Some t' -> coherent t' = true.
Proof.
  intros Hc H. destruct (socket_read_keeps t t' c H) as (Hs & Hn & _).
  unfold coherent, tunnel_is_dead in *. rewrite Hs, Hn.
  destruct (state t); try exact Hc.
  clear - Hc H. break_tunnel t. unfold socket_read, all_dead in *.
  destruct c; cbn in *;
    repeat (match goal with x : socket_state |- _ => destruct x end;
            cbn in *; try discriminate).
Qed.

Section Handlers.
Variable p : s5_outcome.
Variable bufs : endpoint -> list Z.
Variable do_req_parse : tunnel_ctx cipher_t -> option (tunnel_ctx cipher_t).
Hypothesis do_req_parse_coherent :
  forall u u', coherent u = true -> do_req_parse u = Some u' -> coherent u' = true.

Lemma session_handlers_coherent (t t' : tunnel_ctx cipher_t) :
  coherent t = true ->
  session_handlers can_auth_none can_auth_passwd p bufs do_req_parse t
  = Some t' ->
  coherent t' = true.
Proof.
  intros Hc H. unfold session_handlers in H.
  destruct (state t) eqn:Est; try discriminate.
  - eapply do_handshake_coherent; eassumption.
  - eapply do_req_start_coherent; eassumption.
  - eapply do_req_parse_coherent; eassumption.
  - eapply socket_read_coherent; eassumption.
  - eapply do_ssr_auth_sent_coherent; eassumption.
  - eapply do_proxy_start_coherent; eassumption.
  - eapply do_proxy_coherent; try eassumption.
    unfold tunnel_is_dead. now rewrite Est.
Qed.

End Handlers.

Section Callbacks.
Variable other_states : tunnel_ctx cipher_t -> option (tunnel_ctx cipher_t).
Hypothesis other_states_coherent :
  forall u u', coherent u = true -> other_states u = Some u' -> coherent u' = true.

Lemma do_next_coherent (t t' : tunnel_ctx cipher_t) :
  coherent t = true ->
  do_next cipher_t tunnel_encrypt can_access uv_tcp_connect other_states t = Some t' ->
  coherent t' = true.
Proof.
  intros Hc H. unfold do_next in H.
  destruct (state t) eqn:Est;
    try (eapply other_states_coherent; eassumption);
    try discriminate.
  - (* lookup *)
    clear other_states_coherent.
    unfold do_req_lookup, do_req_connect_start, socket_connect, socket_write,
      tunnel_shutdown, socket_close, all_stopped in H.
    break_tunnel t. cbn in Est. subst st.
    unfold coherent, tunnel_is_dead, all_dead, no_dead_socket in *.
    repeat (match goal with x : socket_state |- _ => destruct x end;
            cbn in *; try discriminate);
    repeat step; try reflexivity; try discriminate.
  - (* connect *)
    clear other_states_coherent.
    unfold do_req_connect, socket_write, tunnel_shutdown, socket_close,
      all_stopped in H.
    break_tunnel t. cbn in Est. subst st.
    unfold coherent, tunnel_is_dead, all_dead, no_dead_socket in *.
    repeat (match goal with x : socket_state |- _ => destruct x end;
            cbn in *; try discriminate);
    repeat step; try reflexivity; try discriminate.
  - (* kill *)
    now apply (shutdown_coherent t).
Qed.

End Callbacks.

Lemma with_result_coherent (t : tunnel_ctx cipher_t) c status :
  coherent (with_result t c status) = coherent t.
Proof. break_tunnel t. now destruct c. Qed.

Lemma with_result_dead (t : tunnel_ctx cipher_t) c status :
  tunnel_is_dead (with_result t c status) = tunnel_is_dead t.
Proof. break_tunnel t. now destruct c. Qed.

(** X12: the completion callbacks keep the session coherent (a dead tunnel has
    four dead socket states, a live one none), whatever handler [do_next]
    runs; on a dead tunnel they only store the status and do nothing else. *)
Theorem callbacks_keep_coherent (p : s5_outcome) (bufs : endpoint -> list Z)
    (do_req_parse : tunnel_ctx cipher_t -> option (tunnel_ctx cipher_t))
    (t : tunnel_ctx cipher_t) :
  (forall u u', coherent u = true -> do_req_parse u = Some u' ->
                coherent u' = true) ->
  coherent t = true ->
  let others :=
    session_handlers can_auth_none can_auth_passwd p bufs do_req_parse in
  (forall c status t',
     socket_write_done_cb tunnel_encrypt can_access uv_tcp_connect
       others t c status = Some t' -> coherent t' = true)
  /\ (forall c t', socket_timer_expire_cb t c = Some t' -> coherent t' = true)
  /\ (forall status t',
        socket_connect_done_cb cipher_t tunnel_encrypt can_access uv_tcp_connect
          others t status = Some t' -> coherent t' = true)
  /\ (forall status ai t',
        socket_getaddrinfo_done_cb cipher_t tunnel_encrypt can_access
          uv_tcp_connect others t status ai = Some t' -> coherent t' = true)
  /\ (tunnel_is_dead t = true ->
      forall c status ai,
        socket_write_done_cb tunnel_encrypt can_access uv_tcp_connect
          others t c status = Some t
        /\ socket_timer_expire_cb t c = Some (with_result t c UV_ETIMEDOUT)
        /\ socket_connect_done_cb cipher_t tunnel_encrypt can_access
             uv_tcp_connect others t status
           = Some (with_result t Outgoing status)
        /\ socket_getaddrinfo_done_cb cipher_t tunnel_encrypt can_access
             uv_tcp_connect others t status ai
           = Some (with_result t Outgoing status)).
Proof.
  intros Hrp Hc others.
  assert (Hothers : forall u u', coherent u = true -> others u = Some u' ->
                                 coherent u' = true)
    by (intros u u'; apply session_handlers_coherent; exact Hrp).
  pose proof (do_next_coherent others Hothers) as Hnext.
  refine (conj _ (conj _ (conj _ (conj _ _)))).
  - intros c status t' H. unfold socket_write_done_cb in H.
    destruct (tunnel_is_dead t) eqn:Ed; [inversion H; now subst|].
    destruct (status =? UV_ECANCELED); [now apply (shutdown_coherent t)|].
    destruct (socket_state_eqb (wrstate (socket_of t c)) socket_busy) eqn:Eb;
      [|discriminate].
    apply Hnext in H; [exact H|].
    clear - Hc Ed Eb. break_tunnel t.
    unfold coherent, tunnel_is_dead, no_dead_socket in *. cbn in *.
    destruct st; try discriminate;
    destruct c; cbn in *;
      repeat (match goal with x : socket_state |- _ => destruct x end;
              cbn in *; try discriminate); reflexivity.
  - intros c t' H. unfold socket_timer_expire_cb in H.
    rewrite with_result_dead in H.
    destruct (tunnel_is_dead t).
    { assert (E : t' = with_result t c UV_ETIMEDOUT) by congruence.
      now rewrite E, with_result_coherent. }
    now apply (shutdown_coherent (with_result t c UV_ETIMEDOUT)).
  - intros status t' H. unfold socket_connect_done_cb in H.
    fold (@with_result cipher_t) in H. rewrite with_result_dead in H.
    destruct (tunnel_is_dead t).
    { assert (E : t' = with_result t Outgoing status) by congruence.
      now rewrite E, with_result_coherent. }
    destruct (_ || _);
      [now apply (shutdown_coherent (with_result t Outgoing status))|].
    apply Hnext in H; [exact H | now rewrite with_result_coherent].
  - intros status ai t' H. unfold socket_getaddrinfo_done_cb in H.
    fold (@with_result cipher_t) in H. rewrite with_result_dead in H.
    destruct (tunnel_is_dead t) eqn:Ed.
    { assert (E : t' = with_result t Outgoing status) by congruence.
      now rewrite E, with_result_coherent. }
    destruct (status =? 0).
    + destruct ai; try discriminate; apply Hnext in H; try exact H;
        clear - Hc Ed; break_tunnel t;
        unfold coherent, tunnel_is_dead in *; cbn in *;
        destruct st; try discriminate; exact Hc.
    + apply Hnext in H; [exact H | now rewrite with_result_coherent].
  - intros Hd c status ai.
    unfold socket_write_done_cb, socket_timer_expire_cb, socket_connect_done_cb,
      socket_getaddrinfo_done_cb.
    fold (@with_result cipher_t). rewrite !with_result_dead, Hd.
    repeat split; reflexivity.
Qed.

(** X13: an idle timer that expires on a live tunnel stores UV_ETIMEDOUT in
    its socket and shuts the tunnel down: all socket states dead, four more
    references, a pending lookup cancelled, and the four close requests
    issued. *)
Theorem timer_expiry_shuts_down (t : tunnel_ctx cipher_t) (c : endpoint) :
  tunnel_is_dead t = false -> coherent t = true ->
  exists t',
    socket_timer_expire_cb t c = Some t'
    /\ state t' = session_dead /\ all_dead t' = true
    /\ result (socket_of t' c) = UV_ETIMEDOUT
    /\ ref_count t' = ref_count t + 4
    /\ actions t' = actions t ++ cancel_request t ++ close_requests.
Proof.
  intros Hl Hc. rewrite coherent_live in Hc by assumption.
  unfold socket_timer_expire_cb. rewrite with_result_dead, Hl.
  destruct (shutdown_spec (with_result t c UV_ETIMEDOUT))
    as (t' & Hsd & Hst & Hd & Href & Hact & Hri & Hro).
  - now rewrite with_result_dead.
  - clear - Hc. break_tunnel t. now destruct c.
  - exists t'. refine (conj Hsd (conj Hst (conj Hd (conj _ (conj _ _))))).
    + destruct c; cbn [socket_of]; [rewrite Hri | rewrite Hro];
        clear; break_tunnel t; reflexivity.
    + rewrite Href. clear. break_tunnel t. now destruct c.
    + rewrite Hact. clear. break_tunnel t. now destruct c.
Qed.

(** X14: on a complete method-selection message the handshake answers 05 00
    and goes on to read the request when the client offers no-auth and it is
    allowed, shuts down when only user/password would do, and otherwise
    answers 05 FF and closes the tunnel once that write completes, whatever
    its status. *)
Theorem handshake_method_selection (t : tunnel_ctx cipher_t) (p : s5_outcome)
    (bufs : endpoint -> list Z)
    (do_req_parse : tunnel_ctx cipher_t -> option (tunnel_ctx cipher_t)) :
  state t = session_handshake ->
  rdstate (incoming t) = socket_done -> wrstate (incoming t) = socket_stop ->
  no_dead_socket t = true ->
  0 <= result (incoming t) ->
  s5_result p = s5_auth_select -> s5_left p = 0 ->
  let t1 := with_socket t Incoming (set_rdstate (incoming t) socket_stop) in
  let others :=
    session_handlers can_auth_none can_auth_passwd p bufs do_req_parse in
  exists t',
    do_handshake can_auth_none can_auth_passwd t p = Some t'
    /\ if auth_none_bit p && can_auth_none t1 then
         state t' = session_req_start
         /\ actions t'
            = actions t ++ [io_write Incoming [5; 0]; io_timer_reset Incoming]
         /\ forall status, 0 <= status ->
              exists t'',
                socket_write_done_cb tunnel_encrypt can_access
                  uv_tcp_connect others t' Incoming status = Some t''
                /\ state t'' = session_req_parse
                /\ actions t''
                   = actions t' ++ [io_read_start Incoming; io_timer_reset Incoming]
       else if auth_passwd_bit p && can_auth_passwd t1 then
         state t' = session_dead
         /\ actions t' = actions t ++ close_requests
       else
         state t' = session_kill
         /\ actions t'
            = actions t ++ [io_write Incoming [5; 255]; io_timer_reset Incoming]
         /\ forall status,
              exists t'',
                socket_write_done_cb tunnel_encrypt can_access
                  uv_tcp_connect others t' Incoming status = Some t''
                /\ state t'' = session_dead
                /\ actions t'' = actions t' ++ close_requests.
Proof.
  intros Hst Hrd Hwr Hnd Hres Herr Hleft t1 others.
  subst t1 others.
  destruct p as [err left nb pb]. cbn in Herr, Hleft. subst err left.
  break_tunnel t. cbn in Hst, Hrd, Hwr, Hres. subst st ird iwr.
  unfold no_dead_socket in Hnd. cbn in Hnd.
  unfold do_handshake. cbn.
  destruct (Z.ltb_spec ires 0) as [|_]; [lia|]. cbn.
  match goal with
  | |- context [nb && can_auth_none ?x] => destruct (nb && can_auth_none x)
  end.
  - eexists. split; [reflexivity|]. cbn.
    split; [reflexivity|]. split; [reflexivity|].
    intros status Hs. unfold socket_write_done_cb. cbn.
    replace (status =? UV_ECANCELED) with false
      by (symmetry; apply Z.eqb_neq; unfold UV_ECANCELED; lia).
    unfold do_next, session_handlers, do_req_start. cbn.
    destruct (Z.ltb_spec status 0) as [|_]; [lia|].
    eexists. split; [reflexivity|]. cbn. split; reflexivity.
  - match goal with
    | |- context [pb && can_auth_passwd ?x] => destruct (pb && can_auth_passwd x)
    end.
    + destruct ord, owr; try discriminate; cbn;
        (eexists; split; [reflexivity|]; cbn; split; [reflexivity|];
         now rewrite <- app_assoc).
    + eexists. split; [reflexivity|]. cbn.
      split; [reflexivity|]. split; [reflexivity|].
      intros status. unfold socket_write_done_cb. cbn.
      destruct (status =? UV_ECANCELED);
        destruct ord, owr; try discriminate; cbn;
        (eexists; split; [reflexivity|]; cbn; split; [reflexivity|];
         now rewrite <- ?app_assoc).
Qed.

(** X15: [socket_cycle] reads when it does not write and writes when it does
    not read: it returns -1 and changes nothing when either socket holds an
    error; otherwise it starts a read on [b] only when [a] is not writing and
    [b] is idle, and writes to [a] exactly the [result] bytes read from [b]
    only when that read is done. *)
Theorem socket_cycle_backpressure (bufs : endpoint -> list Z)
    (t : tunnel_ctx cipher_t) (a b : endpoint) :
  a <> b ->
  let wa := wrstate (socket_of t a) in
  let rb := rdstate (socket_of t b) in
  exists r t',
    socket_cycle bufs t a b = Some (r, t')
    /\ state t' = state t
    /\ if (result (socket_of t a) <? 0) || (result (socket_of t b) <? 0)
       then r = -1 /\ t' = t
       else
         r = 0
         /\ rdstate (socket_of t' a) = rdstate (socket_of t a)
         /\ wrstate (socket_of t' b) = wrstate (socket_of t b)
         /\ if socket_state_eqb wa socket_stop || socket_state_eqb wa socket_done
            then
              match rb with
              | socket_stop =>
                wrstate (socket_of t' a) = socket_stop
                /\ rdstate (socket_of t' b) = socket_busy
                /\ actions t' = actions t ++ [io_read_start b; io_timer_reset b]
              | socket_done =>
                wrstate (socket_of t' a) = socket_busy
                /\ rdstate (socket_of t' b) = socket_stop
                /\ actions t'
                   = actions t
                     ++ [io_write a (firstn (Z.to_nat (result (socket_of t b)))
                                            (bufs b));
                         io_timer_reset a]
              | _ =>
                wrstate (socket_of t' a) = socket_stop
                /\ rdstate (socket_of t' b) = rb
                /\ actions t' = actions t
              end
            else t' = t.
Proof.
  intros Hab wa rb. subst wa rb. break_tunnel t.
  unfold socket_cycle, socket_read, socket_write.
  destruct a, b; try congruence; cbn.
  - destruct (ires <? 0); [eexists _, _; repeat split; reflexivity|].
    destruct (ores <? 0); [eexists _, _; repeat split; reflexivity|].
    destruct iwr, ord; cbn; eexists _, _; repeat split; reflexivity.
  - destruct (ores <? 0); [eexists _, _; repeat split; reflexivity|].
    destruct (ires <? 0); [eexists _, _; repeat split; reflexivity|].
    destruct owr, ird; cbn; eexists _, _; repeat split; reflexivity.
Qed.

(** X16: once the first package has been written upstream, the client is sent
    05 00 00 followed by the initial package, and the completion of that write
    starts reading on both sockets without leaving [session_proxy_start]; a
    failed upstream write shuts the tunnel down instead. *)
Theorem ssr_auth_sent_reply (t : tunnel_ctx cipher_t) (p : s5_outcome)
    (bufs : endpoint -> list Z)
    (do_req_parse : tunnel_ctx cipher_t -> option (tunnel_ctx cipher_t)) :
  state t = session_ssr_auth_sent ->
  rdstate (incoming t) = socket_stop -> wrstate (incoming t) = socket_stop ->
  rdstate (outgoing t) = socket_stop -> wrstate (outgoing t) = socket_done ->
  let others :=
    session_handlers can_auth_none can_auth_passwd p bufs do_req_parse in
  exists t',
    do_ssr_auth_sent t = Some t'
    /\ if result (outgoing t) <? 0 then
         state t' = session_dead /\ actions t' = actions t ++ close_requests
       else
         state t' = session_proxy_start
         /\ actions t'
            = actions t ++ [io_write Incoming ([5; 0; 0] ++ init_pkg t);
                            io_timer_reset Incoming]
         /\ forall status, 0 <= status ->
              exists t'',
                socket_write_done_cb tunnel_encrypt can_access
                  uv_tcp_connect others t' Incoming status = Some t''
                /\ state t'' = session_proxy_start
                /\ all_stopped cipher_t t'' = true
                /\ actions t''
                   = actions t' ++ [io_read_start Outgoing; io_read_start Incoming].
Proof.
  intros Hst Hir Hiw Hor Hwr others. subst others.
  break_tunnel t. cbn in Hst, Hir, Hiw, Hor, Hwr. subst st ird iwr ord owr.
  unfold do_ssr_auth_sent. cbn.
  destruct (ores <? 0); cbn.
  - eexists. split; [reflexivity|]. cbn. split; [reflexivity|].
    now rewrite <- app_assoc.
  - eexists. split; [reflexivity|]. cbn.
    split; [reflexivity|]. split; [reflexivity|].
    intros status Hs. unfold socket_write_done_cb. cbn.
    replace (status =? UV_ECANCELED) with false
      by (symmetry; apply Z.eqb_neq; unfold UV_ECANCELED; lia).
    unfold do_next, session_handlers, do_proxy_start. cbn.
    destruct (Z.ltb_spec status 0) as [|_]; [lia|].
    eexists. split; [reflexivity|]. cbn. repeat split; reflexivity.
Qed.

End SessionFacts.

Lemma htons_bytes_inj (p q : Z) :
  0 <= p < 65536 -> 0 <= q < 65536 ->
  htons_bytes p = htons_bytes q -> p = q.
Proof.
  intros Hp Hq H. unfold htons_bytes in H. inversion H as [[H1 H2]].
  pose proof (le_u16_split p Hp) as Ep. pose proof (le_u16_split q Hq) as Eq.
  rewrite H1, H2 in Ep. congruence.
Qed.

Lemma to_uint16_range (x : Z) : 0 <= to_uint16 x < 65536.
Proof. unfold to_uint16. apply Z.mod_pos_bound. lia. Qed.

Lemma strchr_bound (s : list Z) (c : Z) (n : nat) :
  strchr s c = Some n -> (n < length s)%nat.
Proof.
  revert n. induction s as [|x s IH]; intros n H; [discriminate|].
  cbn in H. destruct (x =? c); [inversion H; cbn; lia|].
  destruct (strchr s c); [|discriminate].
  inversion H; subst. specialize (IH _ eq_refl). cbn. lia.
Qed.

Lemma to_signed_char_small (x : Z) :
  0 <= to_signed_char x -> 0 <= x < 257 -> to_signed_char x = x \/ x = 256.
Proof.
  unfold to_signed_char. intros H Hx.
  destruct (Z.eq_dec x 256) as [->|Hn]; [now right|]. left.
  rewrite Z.mod_small in * by lia.
  destruct (Z.ltb_spec x 128); lia.
Qed.

Lemma app_inv_length {A} (a b c d : list A) :
  length a = length c -> a ++ b = c ++ d -> a = c /\ b = d.
Proof.
  revert c. induction a as [|x a IH]; intros [|y c] Hl H; cbn in *; try lia.
  - now split.
  - inversion H; subst. destruct (IH c ltac:(lia) H2). now subst.
Qed.

Lemma to_signed_char_byte (k : Z) :
  0 <= k <= 255 -> 0 <= to_signed_char k -> to_signed_char k = k /\ k <= 127.
Proof.
  unfold to_signed_char. intros Hk. rewrite Z.mod_small by lia.
  destruct (Z.ltb_spec k 128); lia.
Qed.

Lemma skipn_last_two (a b : list Z) :
  length b = 2%nat -> skipn (length (a ++ b) - 2) (a ++ b) = b.
Proof.
  intros Hb. rewrite length_app, Hb.
  replace (length a + 2 - 2)%nat with (length a) by lia.
  now apply skipn_app_exact.
Qed.

(** The shape of the package: address type, the length byte of a host name,
    the destination, the port. *)
Lemma initial_package_shape (parser : s5_ctx) (pkg : list Z) :
  (16 <= length (s5_daddr parser))%nat ->
  (length (destination parser) <= 255)%nat ->
  initial_package_create parser = Some pkg ->
  let n := Z.of_nat (length (destination parser)) in
  let port := htons_bytes (to_uint16 (s5_dport parser)) in
  (s5_atyp parser = 1 /\ n = 4 /\ pkg = [1] ++ destination parser ++ port)
  \/ (s5_atyp parser = 4 /\ n = 16 /\ pkg = [4] ++ destination parser ++ port)
  \/ (s5_atyp parser = 3 /\ n <= 127
      /\ pkg = [3; n] ++ destination parser ++ port).
Proof.
  intros Hlen Hdst Hpkg n port.
  unfold initial_package_create in Hpkg. fold port in Hpkg.
  unfold destination in n, Hdst |- *.
  unfold s5_atyp_ipv4, s5_atyp_ipv6, s5_atyp_host in *.
  destruct (Z.eqb_spec (s5_atyp parser) 1) as [E1|N1].
  { left. rewrite E1 in Hpkg. change (to_char 1) with 1 in Hpkg.
    split; [exact E1|]. split.
    - subst n. rewrite length_firstn. lia.
    - symmetry. congruence. }
  destruct (Z.eqb_spec (s5_atyp parser) 4) as [E4|N4].
  { right. left. rewrite E4 in Hpkg. change (to_char 4) with 4 in Hpkg.
    split; [exact E4|]. split.
    - subst n. rewrite length_firstn. lia.
    - symmetry. congruence. }
  destruct (Z.eqb_spec (s5_atyp parser) 3) as [E3|N3]; [|discriminate].
  right. right.
  destruct (strchr (s5_daddr parser) 0) as [k|] eqn:Ek; [|discriminate].
  pose proof (strchr_bound _ _ _ Ek) as Hk.
  assert (Lk : length (firstn k (s5_daddr parser)) = k)
    by (rewrite length_firstn; lia).
  rewrite Lk in Hdst. subst n. rewrite Lk.
  destruct (Z.ltb_spec (to_signed_char (Z.of_nat k)) 0) as [|Hs]; [discriminate|].
  destruct (to_signed_char_byte (Z.of_nat k) ltac:(lia) Hs) as [Ec Hsmall].
  rewrite Ec, Nat2Z.id, E3 in Hpkg.
  assert (Eb : to_char (Z.of_nat k) = Z.of_nat k)
    by (unfold to_char; apply Z.mod_small; lia).
  rewrite Eb in Hpkg. change (to_char 3) with 3 in Hpkg.
  split; [exact E3|]. split; [exact Hsmall|]. symmetry.
  change ([3; Z.of_nat k] ++ firstn k (s5_daddr parser) ++ port)
    with ([3] ++ [Z.of_nat k] ++ firstn k (s5_daddr parser) ++ port).
  congruence.
Qed.

(** X8: the initial package is the address type, for a host name the length
    byte, the destination and the port in network byte order; an IPv4
    destination has 4 bytes, an IPv6 one 16, a host name at most 127, and the
    package is 4 to 131 bytes long. *)
Theorem initial_package_layout (parser : s5_ctx) (pkg : list Z) :
  (16 <= length (s5_daddr parser))%nat ->
  (length (destination parser) <= 255)%nat ->
  initial_package_create parser = Some pkg ->
  let n := Z.of_nat (length (destination parser)) in
  let port := htons_bytes (to_uint16 (s5_dport parser)) in
  nth 0 pkg 0 = s5_atyp parser
  /\ skipn (length pkg - 2) pkg = port
  /\ pkg = [s5_atyp parser]
           ++ (if s5_atyp parser =? s5_atyp_host then [n] else [])
           ++ destination parser ++ port
  /\ (if s5_atyp parser =? s5_atyp_host then n <= 127
      else if s5_atyp parser =? s5_atyp_ipv4 then n = 4 else n = 16)
  /\ 4 <= Z.of_nat (length pkg) <= 131.
Proof.
  intros Hlen Hdst Hpkg n port.
  assert (Lp : length port = 2%nat) by reflexivity.
  destruct (initial_package_shape parser pkg Hlen Hdst Hpkg)
    as [(Ea & Hn & ->) | [(Ea & Hn & ->) | (Ea & Hn & ->)]];
    fold n port in Hn |- *; rewrite Ea; cbn [Z.eqb Pos.eqb s5_atyp_host s5_atyp_ipv4].
  - refine (conj eq_refl (conj _ (conj eq_refl (conj Hn _)))).
    + rewrite app_assoc. now apply skipn_last_two.
    + subst n. rewrite !length_app, Lp. cbn [length]. clear - Hn. lia.
  - refine (conj eq_refl (conj _ (conj eq_refl (conj Hn _)))).
    + rewrite app_assoc. now apply skipn_last_two.
    + subst n. rewrite !length_app, Lp. cbn [length]. clear - Hn. lia.
  - refine (conj eq_refl (conj _ (conj eq_refl (conj Hn _)))).
    + rewrite app_assoc. now apply skipn_last_two.
    + subst n. rewrite !length_app, Lp. cbn [length]. clear - Hn. lia.
Qed.

(** X9: two requests with the same initial package have the same address type,
    destination and port: the package determines where the server connects. *)
Theorem initial_package_injective (p1 p2 : s5_ctx) (pkg : list Z) :
  (16 <= length (s5_daddr p1))%nat -> (16 <= length (s5_daddr p2))%nat ->
  (length (destination p1) <= 255)%nat -> (length (destination p2) <= 255)%nat ->
  initial_package_create p1 = Some pkg ->
  initial_package_create p2 = Some pkg ->
  s5_atyp p1 = s5_atyp p2
  /\ destination p1 = destination p2
  /\ to_uint16 (s5_dport p1) = to_uint16 (s5_dport p2).
Proof.
  intros L1 L2 D1 D2 H1 H2.
  pose proof (initial_package_shape p1 pkg L1 D1 H1) as A1.
  pose proof (initial_package_shape p2 pkg L2 D2 H2) as A2.
  cbn zeta in A1, A2.
  assert (Hport : forall a b, htons_bytes (to_uint16 a) = htons_bytes (to_uint16 b) ->
                              to_uint16 a = to_uint16 b)
    by (intros a b; apply htons_bytes_inj; apply to_uint16_range).
  destruct A1 as [(Ea1 & Hn1 & E1) | [(Ea1 & Hn1 & E1) | (Ea1 & Hn1 & E1)]];
    destruct A2 as [(Ea2 & Hn2 & E2) | [(Ea2 & Hn2 & E2) | (Ea2 & Hn2 & E2)]];
    rewrite E1 in E2; try (cbn in E2; congruence);
    (split; [congruence|]).
  - inversion E2 as [E].
    apply app_inv_length in E as [Ed Ep]; [|lia]. split; [exact Ed | now apply Hport].
  - inversion E2 as [E].
    apply app_inv_length in E as [Ed Ep]; [|lia]. split; [exact Ed | now apply Hport].
  - inversion E2 as [[En E]].
    apply app_inv_length in E as [Ed Ep]; [|lia]. split; [exact Ed | now apply Hport].
Qed.

Section FirstPackage.
Context {P : Primitives}.

(** X10: the initial package of a tunnel always fits the head of the first
    call: [client_pre_encrypt] on a fresh instance turns it into the auth-data
    chunk alone, of rand_len + 35 + n bytes (39 to 1189), and leaves [pack_id]
    where it was. *)
Theorem first_package_is_one_auth_chunk (parser : s5_ctx) (pkg : list Z)
    now global server local rnd :
  (16 <= length (s5_daddr parser))%nat ->
  (length (destination parser) <= 255)%nat ->
  initial_package_create parser = Some pkg ->
  has_sent_header local = false ->
  param_fits (si_param server) = true ->
  let n := Z.of_nat (length pkg) in
  exists r a,
    auth_aes128_sha1_client_pre_encrypt now global server local pkg rnd = Some r
    /\ auth_aes128_sha1_pack_auth_data now global server local pkg rnd = Some a
    /\ pre_chunks r = [au_data a]
    /\ Z.of_nat (length (pre_output r)) = auth_rand_len n rnd + 35 + n
    /\ 39 <= Z.of_nat (length (pre_output r)) <= 1189
    /\ has_sent_header (pre_local r) = true
    /\ pack_id (pre_local r) = pack_id local.
Proof.
  intros Hlen Hdst Hpkg Hh Hfit n.
  pose proof (initial_package_shape parser pkg Hlen Hdst Hpkg) as Hshape.
  assert (Hn : 4 <= n <= 131).
  { subst n. cbn zeta in Hshape.
    destruct Hshape as [(_ & Hd & ->) | [(_ & Hd & ->) | (_ & Hd & ->)]];
      rewrite !length_app; cbn [length htons_bytes]; lia. }
  assert (Hs : pkg <> []) by (intros ->; cbn in n; lia).
  destruct (pre_encrypt_first_call_shape now global server local pkg rnd Hs Hh Hfit)
    as (r & a & rest & fulls & final & Hr & Ha & Hc & Hpk & Hcat & Hfull & Hfin
        & _ & Hsent).
  fold n in Ha, Hpk, Hcat, Hfin.
  replace (Z.min 1200 n) with n in * by lia.
  assert (Hall : firstn (Z.to_nat n) pkg = pkg) by (apply firstn_all2; lia).
  rewrite Hall in Ha.
  assert (Hskip : skipn (Z.to_nat n) pkg = []) by (apply skipn_all2; lia).
  rewrite Hskip in Hcat.
  assert (Hrest : rest = []).
  { destruct Hfin as [[-> _] | (d & -> & Hd)].
    - rewrite app_nil_r in *. destruct fulls as [|f fulls].
      + now inversion Hpk.
      + inversion Hfull; subst. cbn in Hcat.
        apply (f_equal (@length Z)) in Hcat. rewrite length_app in Hcat.
        cbn in Hcat. lia.
    - rewrite concat_app in Hcat. cbn in Hcat. rewrite app_nil_r in Hcat.
      apply (f_equal (@length Z)) in Hcat. rewrite length_app in Hcat.
      cbn in Hcat. lia. }
  subst rest.
  destruct (pack_auth_data_total now global server local pkg rnd Hfit)
    as (a' & Ha' & Hsz & Hl & _).
  rewrite Ha in Ha'. inversion Ha'; subst a'. clear Ha'.
  fold n in Hsz.
  pose proof (auth_rand_len_range n rnd) as [Hrl _].
  exists r, a. refine (conj Hr (conj Ha (conj Hc _))).
  assert (Hout : Z.of_nat (length (pre_output r)) = auth_rand_len n rnd + 35 + n).
  { unfold pre_output. rewrite Hc. cbn [concat]. rewrite app_nil_r. lia. }
  refine (conj Hout (conj _ (conj Hsent _))); [lia|].
  (* the pack counter *)
  clear - Hr Hh Hs Ha Hn Hskip.
  unfold auth_aes128_sha1_client_pre_encrypt in Hr. rewrite Hh in Hr.
  fold n in Hr.
  destruct (Z.gtb_spec n 0); [|lia]. cbn [negb andb] in Hr.
  destruct (Z.gtb_spec 1200 n); [|lia].
  rewrite (firstn_all2 (n := Z.to_nat n) pkg) in Hr by lia.
  rewrite Ha, Hskip in Hr. cbn in Hr. inversion Hr; subst r. cbn.
  destruct (pack_auth_data_local _ _ _ _ _ _ _ Ha) as (r3 & r4 & Hres).
  clear - Hres. unfold resolve_user_key in Hres.
  destruct (user_key local); [now inversion Hres|].
  destruct (rand_bytes 4 r3) as [u r].
  destruct (si_param server) as [[|c p]|]; try now inversion Hres.
  destruct (strchr (c :: p) 58); [|now inversion Hres].
  destruct (_ || _); [discriminate | now inversion Hres].
Qed.

End FirstPackage.

(** X1: a witness. *)
Lemma connection_id_never_wraps_witness :
  let g := fst (auth_simple_init_data zero_rand) in
  0 <= connection_id g <= 0xFF000000
  /\ to_uint32 (connection_id g + 1) = connection_id g + 1.
Proof.
  destruct (connection_id_never_wraps (P := test_primitives)
              (fst (auth_simple_init_data zero_rand)) (reach_init zero_rand))
    as (H1 & _ & H2).
  split; assumption.
Defined.

(** X2: a witness. *)
Lemma udp_pre_encrypt_layout_witness :
  exists local' rnd',
    auth_aes128_sha1_client_udp_pre_encrypt (P := test_primitives) test_server
      auth_aes128_sha1_new_obfs [1; 2; 3] zero_rand
    = Some (11,
            [1; 2; 3] ++ uid local'
              ++ firstn 4 (hmac (Primitives := test_primitives)
                                ([1; 2; 3] ++ uid local') (user_key_bytes local')),
            local', rnd')
    /\ length (uid local') = 4%nat.
Proof.
  destruct (udp_pre_encrypt_layout (P := test_primitives) (OK := test_primitives_ok)
              test_server auth_aes128_sha1_new_obfs [1; 2; 3] zero_rand
              eq_refl eq_refl) as (l & r & _ & H & Hu & _).
  exists l, r. split; [exact H | exact Hu].
Defined.

(** X3: a witness. *)
Lemma udp_own_packet_check_witness :
  exists out local' rnd',
    auth_aes128_sha1_client_udp_pre_encrypt (P := test_primitives) test_server
      auth_aes128_sha1_new_obfs [1; 2; 3] zero_rand
    = Some (11, out, local', rnd')
    /\ auth_aes128_sha1_client_udp_post_decrypt (P := test_primitives)
         test_server out = (7, out).
Proof.
  destruct (udp_own_packet_check (P := test_primitives) (OK := test_primitives_ok)
              test_server auth_aes128_sha1_new_obfs [1; 2; 3] zero_rand
              eq_refl eq_refl) as (out & l & r & H & _ & _ & Hfb).
  exists out, l, r. split; [exact H|].
  apply Hfb; [reflexivity | intros p Hp; discriminate Hp].
Defined.

(** X4: a witness. *)
Lemma user_key_resolved_once_witness :
  exists r k,
    auth_aes128_sha1_client_pre_encrypt (P := test_primitives) 0 test_global
      test_server auth_aes128_sha1_new_obfs [65] zero_rand = Some r
    /\ user_key (pre_local r) = Some k
    /\ length (uid (pre_local r)) = 4%nat.
Proof.
  destruct (user_key_resolved_once (P := test_primitives) (OK := test_primitives_ok)
              0 test_global test_server auth_aes128_sha1_new_obfs [65] zero_rand
              ltac:(discriminate) eq_refl eq_refl eq_refl)
    as (r & k & Hr & Hk & Hu & _).
  exists r, k. repeat split; assumption.
Defined.

(** X5: a witness. *)
Lemma pre_encrypt_pack_id_witness :
  exists r,
    auth_aes128_sha1_client_pre_encrypt (P := test_primitives) 0 test_global
      test_server (set_sent_header test_receiver) [1; 2; 3] zero_rand = Some r
    /\ Z.of_nat (length (pre_chunks r)) = 1
    /\ pack_id (pre_local r) = 2.
Proof.
  destruct (pre_encrypt_pack_id (P := test_primitives) 0 test_global test_server
              (set_sent_header test_receiver) [1; 2; 3] zero_rand eq_refl
              ltac:(split; [discriminate | reflexivity]))
    as (r & Hr & Hc & Hl & _).
  exists r. split; [exact Hr|]. split; [exact Hc|]. rewrite Hl. reflexivity.
Defined.

(** X6: a witness. *)
Lemma send_receive_commute_witness :
  let local := set_sent_header test_receiver in
  let received :=
    auth_aes128_sha1_client_post_decrypt (P := test_primitives) local [1; 2] in
  exists r r',
    auth_aes128_sha1_client_pre_encrypt (P := test_primitives) 0 test_global
      test_server local [3] zero_rand = Some r
    /\ auth_aes128_sha1_client_pre_encrypt (P := test_primitives) 0 test_global
         test_server (snd received) [3] zero_rand = Some r'
    /\ pre_chunks r' = pre_chunks r.
Proof.
  cbv zeta.
  destruct (send_receive_commute (P := test_primitives) 0 test_global test_server
              (set_sent_header test_receiver) [3] [1; 2] zero_rand
              (fst (fst (auth_aes128_sha1_client_post_decrypt (P := test_primitives)
                           (set_sent_header test_receiver) [1; 2])))
              (snd (fst (auth_aes128_sha1_client_post_decrypt (P := test_primitives)
                           (set_sent_header test_receiver) [1; 2])))
              (snd (auth_aes128_sha1_client_post_decrypt (P := test_primitives)
                      (set_sent_header test_receiver) [1; 2]))
              eq_refl eq_refl)
    as (r & r' & Hr & Hr' & Hc & _).
  exists r, r'. repeat split; assumption.
Defined.

(** X7: a witness. *)
Lemma pre_encrypt_output_bound_witness :
  exists r,
    auth_aes128_sha1_client_pre_encrypt (P := test_primitives) 0 test_global
      test_server auth_aes128_sha1_new_obfs [65] zero_rand = Some r
    /\ Z.of_nat (length (pre_output r)) <= 1 * 2 + 2048 * 2.
Proof.
  destruct (pre_encrypt_output_bound (P := test_primitives) 0 test_global
              test_server auth_aes128_sha1_new_obfs [65] zero_rand eq_refl)
    as (r & Hr & _ & Hb).
  exists r. split; [exact Hr|]. apply (Hb 2048). discriminate.
Defined.

(** X8: a witness. *)
Lemma initial_package_layout_witness :
  let pkg := [3; 3; 97; 46; 98; 1; 187] in
  initial_package_create test_parser = Some pkg
  /\ nth 0 pkg 0 = s5_atyp test_parser
  /\ skipn (length pkg - 2) pkg = htons_bytes (to_uint16 (s5_dport test_parser))
  /\ 4 <= Z.of_nat (length pkg) <= 131.
Proof.
  cbv zeta. split; [reflexivity|].
  destruct (initial_package_layout test_parser [3; 3; 97; 46; 98; 1; 187]
              ltac:(apply Nat.leb_le; reflexivity) ltac:(apply Nat.leb_le; reflexivity)
              eq_refl) as (H0 & Hp & _ & _ & Hl).
  repeat split; try assumption; apply Hl.
Defined.

(** X9: a witness. *)
Lemma initial_package_injective_witness :
  s5_daddr test_parser <> s5_daddr test_parser_dirty
  /\ destination test_parser = destination test_parser_dirty.
Proof.
  split; [discriminate|].
  apply (initial_package_injective test_parser test_parser_dirty
           [3; 3; 97; 46; 98; 1; 187]
           ltac:(apply Nat.leb_le; reflexivity) ltac:(apply Nat.leb_le; reflexivity)
           ltac:(apply Nat.leb_le; reflexivity) ltac:(apply Nat.leb_le; reflexivity)
           eq_refl eq_refl).
Defined.

(** X10: a witness. *)
Lemma first_package_is_one_auth_chunk_witness :
  exists r a,
    auth_aes128_sha1_client_pre_encrypt (P := test_primitives) 0 test_global
      test_server auth_aes128_sha1_new_obfs [3; 3; 97; 46; 98; 1; 187] zero_rand
    = Some r
    /\ pre_chunks r = [au_data a]
    /\ Z.of_nat (length (pre_output r)) = 42.
Proof.
  destruct (first_package_is_one_auth_chunk (P := test_primitives) test_parser
              [3; 3; 97; 46; 98; 1; 187] 0 test_global test_server
              auth_aes128_sha1_new_obfs zero_rand
              ltac:(apply Nat.leb_le; reflexivity) ltac:(apply Nat.leb_le; reflexivity)
              eq_refl eq_refl eq_refl) as (r & a & Hr & _ & Hc & Hl & _).
  exists r, a. repeat split; assumption.
Defined.

(** X11: a witness. *)
Lemma shutdown_frees_after_four_closes_witness :
  exists t1 t2 t3 t4,
    tunnel_shutdown unit (test_tunnel session_proxy) = Some t1
    /\ state unit t1 = session_dead
    /\ socket_close_done_cb t1 = tunnel_kept t2
    /\ socket_close_done_cb t2 = tunnel_kept t3
    /\ socket_close_done_cb t3 = tunnel_kept t4
    /\ socket_close_done_cb t4 = tunnel_freed.
Proof.
  destruct (shutdown_frees_after_four_closes unit (test_tunnel session_proxy)
              eq_refl eq_refl eq_refl)
    as (t1 & t2 & t3 & t4 & H1 & H2 & _ & _ & H3 & H4 & H5 & H6 & _).
  exists t1, t2, t3, t4. repeat split; assumption.
Defined.

(** X12: a witness. *)
Lemma callbacks_keep_coherent_witness :
  coherent (test_tunnel session_req_connect) = true
  /\ forall c status t',
       test_write_done (mk_outcome s5_ok 0 false false) (fun _ => [])
         (test_tunnel session_req_connect) c status = Some t' ->
       coherent t' = true.
Proof.
  split; [reflexivity|].
  apply (callbacks_keep_coherent unit test_encrypt (fun _ => true) (fun _ => 0)
           (fun _ => true) (fun _ => false) (mk_outcome s5_ok 0 false false)
           (fun _ => []) (fun _ => None) (test_tunnel session_req_connect)).
  - intros u u' _ H. discriminate H.
  - reflexivity.
Defined.

(** X13: a witness. *)
Lemma timer_expiry_shuts_down_witness :
  exists t',
    socket_timer_expire_cb (test_tunnel session_req_lookup) Outgoing = Some t'
    /\ state unit t' = session_dead
    /\ ref_count unit t' = 4
    /\ actions unit t' = io_cancel_resolve :: close_requests.
Proof.
  destruct (timer_expiry_shuts_down unit (test_tunnel session_req_lookup) Outgoing
              eq_refl eq_refl) as (t' & H1 & H2 & _ & _ & H3 & H4).
  exists t'. repeat split; assumption.
Defined.

(** X14: a witness. *)
Lemma handshake_method_selection_witness :
  let t := test_session session_handshake
             (test_socket socket_done socket_stop 3) idle_socket in
  exists t',
    do_handshake (fun _ => true) (fun _ => false) t
      (mk_outcome s5_auth_select 0 true false) = Some t'
    /\ state unit t' = session_req_start
    /\ actions unit t' = [io_write Incoming [5; 0]; io_timer_reset Incoming].
Proof.
  cbv zeta.
  destruct (handshake_method_selection unit test_encrypt (fun _ => true)
              (fun _ => 0) (fun _ => true) (fun _ => false)
              (test_session session_handshake
                 (test_socket socket_done socket_stop 3) idle_socket)
              (mk_outcome s5_auth_select 0 true false) (fun _ => [])
              (fun _ => None) eq_refl eq_refl eq_refl eq_refl
              ltac:(discriminate) eq_refl eq_refl) as (t' & H1 & H2).
  cbn in H2. destruct H2 as (H2 & H3 & _).
  exists t'. repeat split; assumption.
Defined.

(** X15: a witness. *)
Lemma socket_cycle_backpressure_witness :
  let t := test_session session_proxy idle_socket
             (test_socket socket_done socket_stop 2) in
  exists r t',
    socket_cycle (fun _ => [7; 8; 9]) t Incoming Outgoing = Some (r, t')
    /\ r = 0
    /\ actions unit t' = [io_write Incoming [7; 8]; io_timer_reset Incoming].
Proof.
  cbv zeta.
  destruct (socket_cycle_backpressure unit (fun _ => [7; 8; 9])
              (test_session session_proxy idle_socket
                 (test_socket socket_done socket_stop 2))
              Incoming Outgoing ltac:(discriminate))
    as (r & t' & H1 & _ & H2).
  cbn in H2. destruct H2 as (H2 & _ & _ & _ & _ & H3).
  exists r, t'. repeat split; assumption.
Defined.

(** X16: a witness. *)
Lemma ssr_auth_sent_reply_witness :
  let t := test_session session_ssr_auth_sent idle_socket
             (test_socket socket_stop socket_done 0) in
  exists t',
    do_ssr_auth_sent t = Some t'
    /\ state unit t' = session_proxy_start
    /\ actions unit t'
       = [io_write Incoming [5; 0; 0; 1; 1; 2; 3; 4; 0; 80];
          io_timer_reset Incoming].
Proof.
  cbv zeta.
  destruct (ssr_auth_sent_reply unit test_encrypt (fun _ => true) (fun _ => 0)
              (fun _ => true) (fun _ => false)
              (test_session session_ssr_auth_sent idle_socket
                 (test_socket socket_stop socket_done 0))
              (mk_outcome s5_ok 0 false false) (fun _ => []) (fun _ => None)
              eq_refl eq_refl eq_refl eq_refl eq_refl) as (t' & H1 & H2).
  cbn in H2. destruct H2 as (H2 & H3 & _).
  exists t'. repeat split; assumption.
Defined.
